(** * Scoring engine, corpus assembly and lifecycle of the WAF review system

    A shallow embedding of
      - [backend/utils/scoring/scoring.py] and [src/utils/scoring/scoring.py]
        (signal matching, practice scoring, weighted aggregation,
        recommendation selection, gap evaluation, reliability breakdown),
      - [backend/app/analysis/orchestrator.py] (section truncation, corpus
        composition, recommendation deduplication, lifecycle progress,
        progress phases, evidence of the pillar context, cross-pillar
        conflicts and synthesis).

    Conventions.  Python [str] values are modelled as [string] over 8-bit
    character codes and the character classes are the ASCII ones.  Python
    floats that hold weights, coverages and percentages are modelled as
    exact rationals [Q]; the vectors of the deduplicator are modelled over
    the reals [R], where [math.sqrt] is [sqrt], and once more over the
    binary64 floats of the machine ([Orchestrator64]), on which the
    decision at the threshold rests.

    What the model leaves out.  On exact rationals a sum or a quotient has
    no rounding error: a statement about scores and percentages is made
    here only where the rounding of floats keeps it (bounds, order,
    distances of a hundredth).  A character outside ASCII is neither a
    letter nor a blank here, and [upper] and [lower] leave it alone.  The
    JSON values are those with finite numbers.  The progress callback of
    the lifecycle is taken to return. *)

From Stdlib Require Import Floats.
From Stdlib Require Import String Ascii List Bool Arith ZArith QArith Lia.
From Stdlib Require Import Qround Qabs Reals Lra Lqa Sorted.
Import ListNotations.

Local Open Scope string_scope.

(* ===================================================================== *)
(** * Python string primitives (ASCII) *)
(* ===================================================================== *)

Module PyStr.

Definition code (c : ascii) : nat := nat_of_ascii c.

Definition in_range (lo hi : nat) (c : ascii) : bool :=
  (lo <=? code c)%nat && (code c <=? hi)%nat.

Definition is_upper (c : ascii) : bool := in_range 65 90 c.
Definition is_lower (c : ascii) : bool := in_range 97 122 c.
Definition is_alpha (c : ascii) : bool := is_upper c || is_lower c.
Definition is_digit (c : ascii) : bool := in_range 48 57 c.

(** [\w] of the [re] module: letters, digits and the underscore. *)
Definition is_word (c : ascii) : bool :=
  is_alpha c || is_digit c || (code c =? 95)%nat.

(** [str.isspace] on one character: TAB..CR, FS..US and the blank. *)
Definition is_space (c : ascii) : bool :=
  in_range 9 13 c || in_range 28 32 c.

Definition lower_char (c : ascii) : ascii :=
  if is_upper c then ascii_of_nat (code c + 32) else c.

Definition upper_char (c : ascii) : ascii :=
  if is_lower c then ascii_of_nat (code c - 32) else c.

(** [s.lower()] *)
Fixpoint lower (s : string) : string :=
  match s with
  | EmptyString => EmptyString
  | String c r => String (lower_char c) (lower r)
  end.

(** [s.title()]: a cased character that follows an uncased one is put in
    upper case, every other cased character in lower case. *)
Fixpoint title_from (prev_cased : bool) (s : string) : string :=
  match s with
  | EmptyString => EmptyString
  | String c r =>
      if is_alpha c
      then String (if prev_cased then lower_char c else upper_char c)
                  (title_from true r)
      else String c (title_from false r)
  end.

Definition title (s : string) : string := title_from false s.

(** [s.lstrip()], [s.rstrip()], [s.strip()] *)
Fixpoint lstrip (s : string) : string :=
  match s with
  | EmptyString => EmptyString
  | String c r => if is_space c then lstrip r else s
  end.

Fixpoint rstrip (s : string) : string :=
  match s with
  | EmptyString => EmptyString
  | String c r =>
      match rstrip r with
      | EmptyString => if is_space c then EmptyString else String c EmptyString
      | r' => String c r'
      end
  end.

Definition strip (s : string) : string := rstrip (lstrip s).

(** [sep.join(parts)] *)
Fixpoint join (sep : string) (parts : list string) : string :=
  match parts with
  | [] => EmptyString
  | [p] => p
  | p :: rest => p ++ sep ++ join sep rest
  end.

(** [s.split()]: the maximal runs of non-blank characters.  [cur] is the
    word being read, in reverse. *)
Fixpoint rev_string (acc s : string) : string :=
  match s with
  | EmptyString => acc
  | String c r => rev_string (String c acc) r
  end.

Fixpoint split_from (cur : string) (s : string) : list string :=
  match s with
  | EmptyString =>
      match cur with
      | EmptyString => []
      | _ => [rev_string EmptyString cur]
      end
  | String c r =>
      if is_space c
      then match cur with
           | EmptyString => split_from EmptyString r
           | _ => rev_string EmptyString cur :: split_from EmptyString r
           end
      else split_from (String c cur) r
  end.

Definition split (s : string) : list string := split_from EmptyString s.

(** [s[:k]] for [0 <= k] and [s[k:]] *)
Fixpoint take (k : nat) (s : string) : string :=
  match k, s with
  | O, _ => EmptyString
  | S k', String c r => String c (take k' r)
  | S _, EmptyString => EmptyString
  end.

(** [s[:k]] with Python's reading of a negative bound. *)
Definition slice_to (s : string) (k : Z) : string :=
  if (0 <=? k)%Z then take (Z.to_nat k) s
  else take (Z.to_nat (Z.of_nat (String.length s) + k)) s.

(** [s.rfind(c)] for a one-character needle: the last index, or -1. *)
Fixpoint rfind_from (i : Z) (best : Z) (c : ascii) (s : string) : Z :=
  match s with
  | EmptyString => best
  | String d r =>
      rfind_from (i + 1) (if Ascii.eqb d c then i else best) c r
  end.

Definition rfind (s : string) (c : ascii) : Z := rfind_from 0 (-1) c s.

(** [s.endswith(t)] *)
Definition endswith (s t : string) : bool :=
  let n := String.length s in
  let m := String.length t in
  (m <=? n)%nat && String.eqb (substring (n - m) m s) t.

(** [s.isalpha()]: non-empty and all letters. *)
Fixpoint all_alpha (s : string) : bool :=
  match s with
  | EmptyString => true
  | String c r => is_alpha c && all_alpha r
  end.

Definition isalpha (s : string) : bool :=
  match s with
  | EmptyString => false
  | _ => all_alpha s
  end.

End PyStr.

(* ===================================================================== *)
(** * The regular expression [\b<literal>\b] *)
(* ===================================================================== *)

Module Regex.
Import PyStr.

(** Is the first (last) character of a string a word character?  Outside
    the string there is no word character; [d] stands for what lies before
    an empty string. *)
Definition first_is_word (s : string) : bool :=
  match s with
  | EmptyString => false
  | String c _ => is_word c
  end.

Fixpoint last_is_word (d : bool) (s : string) : bool :=
  match s with
  | EmptyString => d
  | String c r => last_is_word (is_word c) r
  end.

(** After reading the literal [p] at the head of [s]: what remains. *)
Fixpoint drop_prefix (p s : string) : option string :=
  match p, s with
  | EmptyString, _ => Some s
  | String a p', String b s' =>
      if Ascii.eqb a b then drop_prefix p' s' else None
  | String _ _, EmptyString => None
  end.

(** An attempt of [\b p \b] at the current position; [prev] tells whether
    the character before the position is a word character. *)
Definition match_here (prev : bool) (p s : string) : bool :=
  match drop_prefix p s with
  | None => false
  | Some rest =>
      xorb prev (first_is_word s)
      && xorb (last_is_word prev p) (first_is_word rest)
  end.

(** [re.search]: the attempts at the successive positions, the end of the
    text included. *)
Fixpoint search_from (prev : bool) (p s : string) : bool :=
  match_here prev p s
  || match s with
     | EmptyString => false
     | String c r => search_from (is_word c) p r
     end.

Definition search_bounded (p text : string) : bool :=
  search_from false p text.

(** The meaning of the pattern: an occurrence of [p] in the text with a
    word boundary (a word character on exactly one side) at both ends. *)
Definition boundary (before after : string) : bool :=
  xorb (last_is_word false before) (first_is_word after).

Definition occurs_bounded (p text : string) : Prop :=
  exists pre post,
    text = pre ++ p ++ post
    /\ boundary pre (p ++ post) = true
    /\ boundary (pre ++ p) post = true.

End Regex.

(* ===================================================================== *)
(** * Python values, exceptions and numbers *)
(* ===================================================================== *)

Module Py.
Import PyStr.

(** The exceptions the modelled code can raise. *)
Inductive exn : Type :=
| KeyError (key : string)
| IndexError
| TypeError
| ValueError
| ZeroDivisionError
| OtherError (what : string).

Inductive result (A : Type) : Type :=
| Ok (a : A)
| Raise (e : exn).
Arguments Ok {A} a.
Arguments Raise {A} e.

Definition bind {A B : Type} (r : result A) (k : A -> result B) : result B :=
  match r with
  | Ok a => k a
  | Raise e => Raise e
  end.

(** A value as [json.load] produces it from a document whose numbers are
    finite.  (The parser also reads [1e999], [Infinity] and [NaN]; a
    number that is not finite is not a value of this type.) *)
#[warnings="-register-all"]
Inductive value : Type :=
| VNone
| VBool (b : bool)
| VInt (z : Z)
| VFloat (q : Q)
| VStr (s : string)
| VList (items : list value)
| VDict (fields : list (string * value)).

(** A Python [dict] with string keys, in insertion order. *)
Definition dict (V : Type) : Type := list (string * V).

Fixpoint dict_get {V : Type} (d : dict V) (k : string) : option V :=
  match d with
  | [] => None
  | (k', v) :: r => if String.eqb k' k then Some v else dict_get r k
  end.

(** [d.get(k, default)] *)
Definition get_default {V : Type} (d : dict V) (k : string) (dflt : V) : V :=
  match dict_get d k with
  | Some v => v
  | None => dflt
  end.

(** [d[k] = v]: an existing key keeps its place. *)
Fixpoint dict_set {V : Type} (d : dict V) (k : string) (v : V) : dict V :=
  match d with
  | [] => [(k, v)]
  | (k', v') :: r =>
      if String.eqb k' k then (k', v) :: r else (k', v') :: dict_set r k v
  end.

(** [dict.fromkeys(keys, v)] *)
Definition fromkeys {V : Type} (keys : list string) (v : V) : dict V :=
  fold_left (fun d k => dict_set d k v) keys [].

(** Truth value of an object. *)
Definition truthy (v : value) : bool :=
  match v with
  | VNone => false
  | VBool b => b
  | VInt z => negb (z =? 0)%Z
  | VFloat q => negb (Qeq_bool q 0)
  | VStr s => negb (String.eqb s "")
  | VList l => match l with [] => false | _ => true end
  | VDict l => match l with [] => false | _ => true end
  end.

(** [a or b] *)
Definition py_or (a b : value) : value := if truthy a then a else b.

(** [int(s)] for a string: blanks around, an optional sign, decimal digits
    with single underscores between digits. *)
Definition digit_value (c : ascii) : Z := Z.of_nat (code c - 48).

Fixpoint parse_digits (acc : Z) (after_digit : bool) (s : string) : option Z :=
  match s with
  | EmptyString => if after_digit then Some acc else None
  | String c r =>
      if is_digit c then parse_digits (10 * acc + digit_value c) true r
      else if (code c =? 95)%nat && after_digit then parse_digits acc false r
      else None
  end.

Definition parse_int (s : string) : option Z :=
  match strip s with
  | String "+" r => parse_digits 0 false r
  | String "-" r => option_map Z.opp (parse_digits 0 false r)
  | t => parse_digits 0 false t
  end.

(** [int(v)]: [TypeError] on [None], a list and a dict, [ValueError] on a
    string that is not an integer numeral; a float is cut towards zero.
    On the values of the model it raises nothing else. *)
Definition py_int (v : value) : result Z :=
  match v with
  | VNone => Raise TypeError
  | VBool b => Ok (if b then 1 else 0)%Z
  | VInt z => Ok z
  | VFloat q => Ok (Z.quot (Qnum q) (Z.pos (Qden q)))
  | VStr s => match parse_int s with Some z => Ok z | None => Raise ValueError end
  | VList _ => Raise TypeError
  | VDict _ => Raise TypeError
  end.

(** [round(x)]: to the nearest integer, ties to the even one. *)
Definition py_round (x : Q) : Z :=
  let f := Qfloor x in
  match ((x - inject_Z f) ?= (1 # 2))%Q with
  | Lt => f
  | Gt => (f + 1)%Z
  | Eq => if Z.even f then f else (f + 1)%Z
  end.

(** [round(x, 2)] *)
Definition round2 (x : Q) : Q := (inject_Z (py_round (x * 100)) / 100)%Q.

(** [sum(xs)] *)
Definition qsum (xs : list Q) : Q := fold_left Qplus xs 0.

End Py.

(* ===================================================================== *)
(** * The scoring module ([utils/scoring/scoring.py]) *)
(* ===================================================================== *)

Module Scoring.
Import PyStr Py.
Local Open Scope Q_scope.

(** ** Data model *)

(** The ["scoring"] block of a practice; absent keys take the defaults the
    code gives them ([signals] [[]], the two maps [{}]). *)
Record ScoringConf : Type := {
  sc_mode : option string;
  sc_signals : list string;
  sc_signal_weights : dict Q;
  sc_signal_aliases : dict (list string)
}.

Definition Recommendation : Type := dict value.

(** A practice of a pillar definition.  [p_scoring] is [Some] exactly when
    the practice has a non-empty ["scoring"] object. *)
Record Practice : Type := {
  p_code : option string;
  p_title : string;
  p_weight : Q;
  p_scoring : option ScoringConf;
  p_signals : list string;
  p_recommendations : list Recommendation
}.

(** The dictionary [_match_scoring_signals] returns; [mi_coverage] is
    [None] when the key ["coverage"] is not in it. *)
Record MatchInfo : Type := {
  mi_matched : list string;
  mi_matched_weight : Q;
  mi_total_weight : Q;
  mi_coverage : option Q
}.

Record PracticeScore : Type := {
  code : option string;
  title : string;
  weight : Q;
  score : Z;
  matched_signals : list string;
  total_signals : nat;
  coverage : Q;
  mode : string
}.

(** ** Signal matching *)

Definition _phrase_present (text phrase : string) : bool :=
  let phrase := strip phrase in
  if String.eqb phrase "" then false
  else Regex.search_bounded phrase text.

Definition nonzero (q : Q) : bool := negb (Qeq_bool q 0).

Definition base_terms (aliases : dict (list string)) (sig : string)
  : list string :=
  lower sig :: map lower (get_default aliases sig []).

Definition signal_present (text : string) (aliases : dict (list string))
  (sig : string) : bool :=
  existsb (_phrase_present text) (base_terms aliases sig).

(** One turn of the loop over the signals; the state is
    [(matched, matched_weight)]. *)
Definition match_step (text : string) (weights : dict Q)
  (aliases : dict (list string)) (st : list string * Q) (sig : string)
  : list string * Q :=
  if signal_present text aliases sig
  then ((fst st ++ [sig])%list, snd st + get_default weights sig 1)
  else st.

Definition effective_weights (conf : ScoringConf) : dict Q :=
  match sc_signal_weights conf with
  | [] => fromkeys (sc_signals conf) 1
  | w => w
  end.

Definition signals_total_weight (conf : ScoringConf) : Q :=
  let s := qsum (map (fun s => get_default (effective_weights conf) s 1)
                     (sc_signals conf)) in
  if nonzero s then s else 0.

Definition match_loop (text : string) (conf : ScoringConf) : list string * Q :=
  fold_left (match_step text (effective_weights conf) (sc_signal_aliases conf))
            (sc_signals conf) ([], 0).

(** [backend/utils/scoring/scoring.py], lines 35-44. *)
Definition _match_scoring_signals (text : string) (conf : ScoringConf)
  : MatchInfo :=
  let total_weight := signals_total_weight conf in
  let st := match_loop text conf in
  let coverage :=
    if nonzero total_weight then snd st / total_weight else 0 in
  {| mi_matched := fst st;
     mi_matched_weight := snd st;
     mi_total_weight := total_weight;
     mi_coverage := Some coverage |}.

(** [src/utils/scoring/scoring.py], lines 140-164: the early return for a
    zero total weight gives a dictionary without ["coverage"]. *)
Definition _match_scoring_signals_src (text : string) (conf : ScoringConf)
  : MatchInfo :=
  let total_weight := signals_total_weight conf in
  if Qeq_bool total_weight 0
  then {| mi_matched := [];
          mi_matched_weight := 0;
          mi_total_weight := 0;
          mi_coverage := None |}
  else
    let st := match_loop text conf in
    let coverage :=
      if nonzero total_weight then snd st / total_weight else 0 in
    {| mi_matched := fst st;
       mi_matched_weight := snd st;
       mi_total_weight := total_weight;
       mi_coverage := Some coverage |}.

(** ** From coverage to score *)

Definition Qlt_bool (a b : Q) : bool := negb (Qle_bool b a).

Definition thresholds : list (Q * Z) :=
  [(1, 5%Z); (75 # 100, 4%Z); (1 # 2, 3%Z); (1 # 4, 2%Z); (0, 1%Z)].

Fixpoint tiered_scan (coverage : Q) (full_match : bool)
  (ths : list (Q * Z)) : Z :=
  match ths with
  | [] => 1%Z
  | (t, sc) :: rest =>
      if Qle_bool (t - (1 # 1000000000)) coverage
         && (Qlt_bool t 1 || full_match)
      then sc
      else tiered_scan coverage full_match rest
  end.

Definition _score_from_coverage (mode : string) (coverage : Q)
  (any_matched full_match : bool) : Z :=
  if negb any_matched then 0%Z
  else if String.eqb mode "proportional" then py_round (coverage * 5)
  else if String.eqb mode "tiered"
       then tiered_scan coverage full_match thresholds
  else if String.eqb mode "binary"
       then if full_match then 5%Z
            else if Qle_bool (1 # 2) coverage then 4%Z else 2%Z
  else py_round (coverage * 5).

Definition nonempty {A : Type} (l : list A) : bool :=
  match l with [] => false | _ => true end.

Definition len_q {A : Type} (l : list A) : Q := inject_Z (Z.of_nat (length l)).

(** ** Scoring one practice

    The function is the same in the two copies of the module; the copy of
    [_match_scoring_signals] it calls is the parameter [matcher].  The
    lookup [match_info["coverage"]] raises [KeyError] on a missing key. *)
Definition score_practice_with
  (matcher : string -> ScoringConf -> MatchInfo)
  (practice : Practice) (text : string) (override_weight : option Q)
  : result PracticeScore :=
  let w := match override_weight with
           | Some o => o
           | None => p_weight practice
           end in
  match p_scoring practice with
  | Some scoring_conf =>
      let mode := lower (match sc_mode scoring_conf with
                         | Some m => m
                         | None => "proportional"
                         end) in
      let match_info := matcher text scoring_conf in
      match mi_coverage match_info with
      | None => Raise (KeyError "coverage")
      | Some coverage =>
          let any_matched := nonempty (mi_matched match_info) in
          let full_match := Qle_bool (999 # 1000) coverage in
          let score := _score_from_coverage mode coverage any_matched full_match in
          Ok {| code := p_code practice;
                title := p_title practice;
                weight := w;
                score := score;
                matched_signals := mi_matched match_info;
                total_signals := length (sc_signals scoring_conf);
                coverage := coverage;
                mode := mode |}
      end
  | None =>
      let signals := p_signals practice in
      let matched :=
        filter (fun s => _phrase_present text (lower s)) signals in
      let coverage :=
        if nonempty signals then len_q matched / len_q signals else 0 in
      let score :=
        if nonempty signals then py_round (coverage * 5) else 0%Z in
      Ok {| code := p_code practice;
            title := p_title practice;
            weight := w;
            score := score;
            matched_signals := matched;
            total_signals := length signals;
            coverage := coverage;
            mode := "legacy-proportional" |}
  end.

(** [_score_practice] of [backend/utils/scoring/scoring.py] and of
    [src/utils/scoring/scoring.py]. *)
Definition _score_practice := score_practice_with _match_scoring_signals.
Definition _score_practice_src := score_practice_with _match_scoring_signals_src.

(** ** Recommendations of a low scoring practice *)

Definition rec_get (rec : Recommendation) (k : string) : value :=
  get_default rec k VNone.

(** [rec.get('severity') or rec.get('execution_priority')
     or rec.get('priority') or 5] *)
Definition severity_raw (rec : Recommendation) : value :=
  py_or (rec_get rec "severity")
    (py_or (rec_get rec "execution_priority")
       (py_or (rec_get rec "priority") (VInt 5))).

(** The [try: int(...) except (TypeError, ValueError): 5] block;
    [TypeError] and [ValueError] are all that [py_int] raises. *)
Definition severity_of (rec : Recommendation) : Z :=
  match py_int (severity_raw rec) with
  | Ok z => z
  | Raise _ => 5%Z
  end.

Definition code_value (c : option string) : value :=
  match c with
  | Some s => VStr s
  | None => VNone
  end.

Definition normalized (rec : Recommendation) (severity : Z)
  (ps : PracticeScore) : Recommendation :=
  let kept :=
    filter (fun kv => negb (String.eqb (fst kv) "priority"
                            || String.eqb (fst kv) "execution_priority"))
           rec in
  dict_set (dict_set kept "severity" (VInt severity))
           "practice" (code_value (code ps)).

Definition surfaced (ps : PracticeScore) (rec : Recommendation) : bool :=
  (score ps <=? 2)%Z && (severity_of rec <=? 2)%Z.

Definition collect_step (ps : PracticeScore) (recs : list Recommendation)
  (rec : Recommendation) : list Recommendation :=
  if surfaced ps rec
  then (recs ++ [normalized rec (severity_of rec) ps])%list
  else recs.

Definition _collect_recommendations (practice : Practice)
  (ps : PracticeScore) : list Recommendation :=
  fold_left (collect_step ps) (p_recommendations practice) [].

(** ** The pillar score *)

Section Pillar.

(** Gap evaluation compiles regular expressions written by the author of
    the definition; it takes no part in the maturity percentage and is a
    parameter here. *)
Variables Gap GapResult : Type.
Variable _evaluate_gaps : string -> list Gap -> list GapResult.

(** The loaded definition ([load_pillar]); [d_weights] is the optional
    map of per-practice weight overrides. *)
Record PillarData : Type := {
  d_pillar : option string;
  d_version : option string;
  d_practices : list Practice;
  d_weights : dict Q;
  d_gaps : list Gap
}.

Record PillarScores : Type := {
  pillar : string;
  version : string;
  overall_maturity_percent : Q;
  practice_scores : list PracticeScore;
  recommendations : list Recommendation;
  gap_results : list GapResult
}.

(** The state of the loop over the practices. *)
Record Acc : Type := {
  acc_scores : list PracticeScore;
  acc_recs : list Recommendation;
  acc_total_weight : Q;
  acc_weighted_scores : Q
}.

Definition acc0 : Acc :=
  {| acc_scores := []; acc_recs := [];
     acc_total_weight := 0; acc_weighted_scores := 0 |}.

Definition override_for (weights_map : dict Q) (c : option string)
  : option Q :=
  match c with
  | Some k => if negb (String.eqb k "") then dict_get weights_map k else None
  | None => None
  end.

Definition practice_step
  (scorer : Practice -> string -> option Q -> result PracticeScore)
  (weights_map : dict Q) (text : string) (practice : Practice) (a : Acc)
  : result Acc :=
  bind (scorer practice text (override_for weights_map (p_code practice)))
    (fun ps =>
       Ok {| acc_scores := (acc_scores a ++ [ps])%list;
             acc_recs :=
               (acc_recs a ++ _collect_recommendations practice ps)%list;
             acc_total_weight := acc_total_weight a + weight ps;
             acc_weighted_scores :=
               acc_weighted_scores a + inject_Z (score ps) * weight ps |}).

Fixpoint practice_loop
  (scorer : Practice -> string -> option Q -> result PracticeScore)
  (weights_map : dict Q) (text : string) (practices : list Practice) (a : Acc)
  : result Acc :=
  match practices with
  | [] => Ok a
  | practice :: rest =>
      bind (practice_step scorer weights_map text practice a)
           (practice_loop scorer weights_map text rest)
  end.

Definition compute_with
  (scorer : Practice -> string -> option Q -> result PracticeScore)
  (data : PillarData) (architecture_text : string) (pillar_name : string)
  : result PillarScores :=
  let text := lower architecture_text in
  bind (practice_loop scorer (d_weights data) text (d_practices data) acc0)
    (fun a =>
       let overall_percent :=
         if nonzero (acc_total_weight a)
         then (acc_weighted_scores a / (5 * acc_total_weight a)) * 100
         else 0 in
       let gaps := _evaluate_gaps text (d_gaps data) in
       Ok {| pillar := match d_pillar data with
                       | Some p => p
                       | None => pillar_name
                       end;
             version := match d_version data with
                        | Some v => v
                        | None => "1.0"
                        end;
             overall_maturity_percent := round2 overall_percent;
             practice_scores := acc_scores a;
             recommendations := acc_recs a;
             gap_results := gaps |}).

(** [compute_pillar_scores] of the two copies, after [load_pillar]. *)
Definition compute_pillar_scores := compute_with _score_practice.
Definition compute_pillar_scores_src := compute_with _score_practice_src.

End Pillar.

Arguments d_pillar {Gap} _.
Arguments d_version {Gap} _.
Arguments d_practices {Gap} _.
Arguments d_weights {Gap} _.
Arguments d_gaps {Gap} _.
Arguments pillar {GapResult} _.
Arguments version {GapResult} _.
Arguments overall_maturity_percent {GapResult} _.
Arguments practice_scores {GapResult} _.
Arguments recommendations {GapResult} _.
Arguments gap_results {GapResult} _.
Arguments compute_with {Gap GapResult} _ _ _ _ _.
Arguments compute_pillar_scores {Gap GapResult} _ _ _ _.
Arguments compute_pillar_scores_src {Gap GapResult} _ _ _ _.

End Scoring.

(* ===================================================================== *)
(** * The orchestrator ([backend/app/analysis/orchestrator.py]) *)
(* ===================================================================== *)

Module Orchestrator.
Import PyStr Py.

Definition nl : string := String (ascii_of_nat 10) EmptyString.

(** ** Section truncation *)

Definition truncation_marker : string :=
  nl ++ nl ++
  "... [Content truncated for token budget - full context preserved in document analysis]".

(** [int(len(text.split()) * 1.3)]; on a word count the product with the
    float 1.3, cut to an integer, is the integer quotient of [13 * n] by
    10. *)
Definition _estimate_tokens (text : string) : Z :=
  if String.eqb text "" then 0%Z
  else (13 * Z.of_nat (List.length (split text)) / 10)%Z.

(** The test [last_period > max_chars * 0.8] is written on integers as
    [8 * max_chars < 10 * last_period]. *)
Definition _safe_truncate_corpus_section (section_text : string)
  (max_tokens : Z) : string :=
  if String.eqb section_text "" then section_text
  else
    let estimated_tokens := _estimate_tokens section_text in
    if (estimated_tokens <=? max_tokens)%Z then section_text
    else
      let max_chars := (max_tokens * 4)%Z in
      if (max_chars <? Z.of_nat (String.length section_text))%Z
      then
        let truncated := slice_to section_text max_chars in
        let last_period := rfind truncated "."%char in
        let truncated :=
          if (8 * max_chars <? 10 * last_period)%Z
          then slice_to truncated (last_period + 1)
          else truncated in
        truncated ++ truncation_marker
      else section_text.

(** ** The unified corpus *)

(** An entry of the component inventory: [comp["service"]] and
    [comp.get("category")]. *)
Record Component : Type := {
  service : string;
  category : option string
}.

Section Corpus.

(** The order in which [set(services)] is iterated.  Python derives it
    from the hashes of the strings, which change from one interpreter
    process to the next; within one process it is a function of the list. *)
Variable set_iter : list string -> list string.

Definition add_component (by_category : dict (list string))
  (comp : Component) : dict (list string) :=
  let cat := match category comp with
             | Some c => c
             | None => "other"
             end in
  dict_set by_category cat
           (List.app (get_default by_category cat []) [service comp]).

Definition group_by_category (inventory : list Component)
  : dict (list string) :=
  fold_left add_component inventory [].

Definition inventory_line (entry : string * list string) : string :=
  title (fst entry) ++ ": " ++ join ", " (set_iter (snd entry)).

Definition part_if (section : string) (part : string) : list string :=
  if negb (String.eqb section "") then [part] else [].

Definition section_parts (narrative visual cases : string) : list string :=
  List.app
    (part_if narrative ("=== ARCHITECTURE NARRATIVE ===" ++ nl ++ narrative))
    (List.app
       (part_if visual
          (nl ++ "=== VISUAL TOPOLOGY INSIGHTS ===" ++ nl ++ visual))
       (part_if cases
          (nl ++ "=== OPERATIONAL REALITY (SUPPORT CASES) ===" ++ nl ++ cases))).

Definition inventory_parts (inventory : list Component) : list string :=
  match inventory with
  | [] => []
  | _ => (nl ++ "=== COMPONENT INVENTORY ===")
         :: map inventory_line (group_by_category inventory)
  end.

Definition evidence_line (entry : string * list string) : string :=
  "**" ++ title (fst entry) ++ "**: " ++ join "; " (firstn 8 (snd entry)).

Definition evidence_section (pillar_context : dict (list string))
  : list string :=
  (nl ++ "=== CONSOLIDATED PILLAR EVIDENCE ===")
  :: map evidence_line
       (filter (fun e => match snd e with [] => false | _ => true end)
               pillar_context).

(** [UnifiedReviewCorpus.__post_init__] *)
Definition compose_full_corpus (narrative visual cases : string)
  (inventory : list Component) (pillar_context : dict (list string))
  : string :=
  let parts :=
    List.app (section_parts narrative visual cases)
             (inventory_parts inventory) in
  let full_corpus := join nl parts in
  match pillar_context with
  | [] => full_corpus
  | _ => full_corpus ++ nl ++ join nl (evidence_section pillar_context)
  end.

Record UnifiedReviewCorpus : Type := {
  architecture_narrative : string;
  visual_augmentation : string;
  reactive_case_signals : string;
  component_inventory : list Component;
  pillar_context : dict (list string);
  full_corpus : string
}.

Definition make_corpus (narrative visual cases : string)
  (inventory : list Component) (context : dict (list string))
  : UnifiedReviewCorpus :=
  {| architecture_narrative := narrative;
     visual_augmentation := visual;
     reactive_case_signals := cases;
     component_inventory := inventory;
     pillar_context := context;
     full_corpus :=
       compose_full_corpus narrative visual cases inventory context |}.

End Corpus.

(** ** Semantic deduplication of recommendations *)

Section Dedupe.
Local Open Scope R_scope.

(** A recommendation is a dictionary; the function reads
    [r.get("title","")] and [r.get("reasoning","")] of it. *)
Variable Rec : Type.
Variable rec_title rec_reasoning : Rec -> string.

(** The embedding service (the provider, then the legacy client): the
    vectors of the texts, or [[]] when there is none. *)
Variable embed : list string -> list (list R).

Definition combined_text (r : Rec) : string :=
  strip (rec_title r ++ " " ++ nl ++ rec_reasoning r).

(** *** The bag-of-words vectors *)

Definition tokens (c : string) : list string :=
  filter isalpha (split (lower c)).

Definition vocab_add (vocab : dict nat) (tok : string) : dict nat :=
  match dict_get vocab tok with
  | Some _ => vocab
  | None => List.app vocab [(tok, List.length vocab)]
  end.

Definition build_vocab (tokenized : list (list string)) : dict nat :=
  fold_left (fun vocab toks => fold_left vocab_add toks vocab) tokenized [].

(** [vec[i] += 1.0] *)
Fixpoint add_at (i : nat) (vec : list R) : list R :=
  match vec, i with
  | [], _ => []
  | x :: r, O => (x + 1) :: r
  | x :: r, S j => x :: add_at j r
  end.

Definition count_vec (vocab : dict nat) (toks : list string) : list R :=
  fold_left (fun vec tok => match dict_get vocab tok with
                            | Some i => add_at i vec
                            | None => vec
                            end)
            toks (repeat 0 (List.length vocab)).

Definition rsum (l : list R) : R := fold_left Rplus l 0.

(** [x or 1.0] *)
Definition or_one (x : R) : R := if Req_dec_T x 0 then 1 else x.

Definition l2norm (vec : list R) : R :=
  or_one (sqrt (rsum (map (fun v => v * v) vec))).

Definition normalize (vec : list R) : list R :=
  let norm := l2norm vec in map (fun v => v / norm) vec.

Definition bag_of_words (combined : list string) : list (list R) :=
  let tokenized := map tokens combined in
  let vocab := build_vocab tokenized in
  map (fun toks => normalize (count_vec vocab toks)) tokenized.

(** *** Cosine similarity and the greedy pass *)

Fixpoint zip_mul (a b : list R) : list R :=
  match a, b with
  | x :: a', y :: b' => (x * y) :: zip_mul a' b'
  | _, _ => []
  end.

Definition _cos (a b : list R) : R :=
  rsum (zip_mul a b) / (l2norm a * l2norm b).

Definition too_similar (vec rep_vec : list R) : bool :=
  if Rgt_dec (_cos vec rep_vec) (9 / 10) then true else false.

Definition is_duplicate (vec : list R) (rep_vectors : list (list R)) : bool :=
  existsb (too_similar vec) rep_vectors.

(** The loop [for idx, rec in enumerate(recs)]; the state is
    [(kept, rep_vectors)] and [vectors[idx]] raises [IndexError]. *)
Fixpoint dedupe_loop (vectors : list (list R)) (idx : nat) (recs : list Rec)
  (kept : list Rec) (rep_vectors : list (list R)) : result (list Rec) :=
  match recs with
  | [] => Ok kept
  | rec :: rest =>
      match nth_error vectors idx with
      | None => Raise IndexError
      | Some vec =>
          if is_duplicate vec rep_vectors
          then dedupe_loop vectors (S idx) rest kept rep_vectors
          else dedupe_loop vectors (S idx) rest
                 (List.app kept [rec]) (List.app rep_vectors [vec])
      end
  end.

Definition vectors_for (recs : list Rec) : list (list R) :=
  let combined := map combined_text recs in
  match embed combined with
  | [] => bag_of_words combined
  | vectors => vectors
  end.

Definition _dedupe_semantic_recommendations (recs : list Rec)
  : result (list Rec) :=
  match recs with
  | [] => Ok recs
  | _ => dedupe_loop (vectors_for recs) 0 recs [] []
  end.

End Dedupe.

Arguments combined_text {Rec} _ _ _.
Arguments vectors_for {Rec} _ _ _ _.
Arguments dedupe_loop {Rec} _ _ _ _ _.
Arguments _dedupe_semantic_recommendations {Rec} _ _ _ _.

(** ** The assessment lifecycle *)

Inductive AssessmentState : Type :=
| NEW | REGISTERED | PREPROCESSING | ACTIVE_ANALYSIS
| CROSS_PILLAR_ALIGNMENT | COMPLETED | FAILED.

(** The orchestrator object together with the calls its progress sink has
    received, oldest first. *)
Record Orch : Type := {
  current_state : AssessmentState;
  notified : list (Z * string)
}.

(** A computation on the orchestrator that can raise; the state reached
    when it raises is kept. *)
Definition Run (A : Type) : Type := Orch -> result A * Orch.

Definition ret {A : Type} (a : A) : Run A := fun o => (Ok a, o).

Definition bindR {A B : Type} (m : Run A) (k : A -> Run B) : Run B :=
  fun o => match m o with
           | (Ok a, o') => k a o'
           | (Raise e, o') => (Raise e, o')
           end.

Definition await {A : Type} (r : result A) : Run A := fun o => (r, o).

Definition set_state (s : AssessmentState) : Run unit :=
  fun o => (Ok tt, {| current_state := s; notified := notified o |}).

Notation "x <- m ;; k" := (bindR m (fun x => k))
  (at level 61, m at next level, right associativity).
Notation "m ;;; k" := (bindR m (fun _ => k))
  (at level 61, right associativity).

Section Lifecycle.

Variables Documents Analysis Corpus PillarResult Conflict Rec : Type.

(** The collaborators of the run; each can raise. *)
Variable create_unified_corpus : Documents -> Analysis -> result Corpus.
Variable pillar_executor : Corpus -> result (list PillarResult).
Variable detect_cross_pillar_conflicts :
  list PillarResult -> result (list Conflict).
Variable generate_cohesive_recommendations :
  list PillarResult -> list Conflict -> result (list Rec).
Variable overall_score_of : PillarResult -> Q.
Variable corpus_text : Corpus -> string.

(** Whether a [progress_callback] was given. *)
Variable has_callback : bool.

Definition update_progress (percent : Z) (description : string) : Run unit :=
  fun o =>
    if has_callback
    then (Ok tt, {| current_state := current_state o;
                    notified := List.app (notified o) [(percent, description)] |})
    else (Ok tt, o).

Record LifecycleResult : Type := {
  pillar_results : list PillarResult;
  cross_pillar_conflicts : list Conflict;
  cohesive_recommendations : list Rec;
  overall_architecture_score : Q;
  unified_corpus : string
}.

Definition mean_score (results : list PillarResult) : Q :=
  match results with
  | [] => 0%Q
  | _ => (qsum (map overall_score_of results)
          / inject_Z (Z.of_nat (List.length results)))%Q
  end.

(** [run_assessment_lifecycle]; the waits ([asyncio.sleep]) take time and
    change nothing else. *)
Definition run_assessment_lifecycle (documents : Documents)
  (analysis_results : Analysis) : Run LifecycleResult :=
  update_progress 5 "Initializing assessment environment" ;;;
  set_state PREPROCESSING ;;;
  update_progress 10 "Processing uploaded artifacts" ;;;
  corpus <- await (create_unified_corpus documents analysis_results) ;;
  update_progress 20 "Unified review corpus assembled" ;;;
  set_state ACTIVE_ANALYSIS ;;;
  update_progress 25 "Launching five pillar assessments" ;;;
  results <- await (pillar_executor corpus) ;;
  update_progress 80 "Pillar assessments complete" ;;;
  set_state CROSS_PILLAR_ALIGNMENT ;;;
  update_progress 85 "Analyzing cross-pillar dependencies" ;;;
  conflicts <- await (detect_cross_pillar_conflicts results) ;;
  update_progress 90 "Generating cohesive recommendations" ;;;
  cohesive_recs <- await (generate_cohesive_recommendations results conflicts) ;;
  update_progress 95 "Finalizing assessment" ;;;
  let overall_score := mean_score results in
  update_progress 100 "Assessment complete" ;;;
  set_state COMPLETED ;;;
  ret {| pillar_results := results;
         cross_pillar_conflicts := conflicts;
         cohesive_recommendations := cohesive_recs;
         overall_architecture_score := round2 overall_score;
         unified_corpus := corpus_text corpus |}.

End Lifecycle.

(** The orchestrator as [__init__] leaves it. *)
Definition new_orchestrator : Orch :=
  {| current_state := NEW; notified := [] |}.

(** What the claims ask of an iteration order: the elements of the list,
    each once. *)
Definition set_order (it : list string -> list string) : Prop :=
  forall l, NoDup (it l) /\ (forall x, In x (it l) <-> In x l).

(** Two iteration orders one can meet. *)
Definition order_first (l : list string) : list string :=
  nodup string_dec l.
Definition order_rev (l : list string) : list string :=
  rev (nodup string_dec l).

End Orchestrator.

(* ===================================================================== *)
(** * The deduplication pass on binary64 numbers *)
(* ===================================================================== *)

(** [_dedupe_semantic_recommendations] once more, its numbers being the
    binary64 floats of the machine where the module above has real
    numbers: the products, quotients, square roots and comparisons are
    those of IEEE 754 with rounding to nearest, ties to even. *)
Module Orchestrator64.
Import PyStr Py.
Import PrimFloat.
Local Open Scope float_scope.

(** The literal [0.90]: the float nearest to nine tenths. *)
Definition threshold : float := 0x1.ccccccccccccdp-1.

(** [sum] of floats adds from left to right up to Python 3.11. *)
Definition sum_in_order (xs : list float) : float := fold_left add xs 0.

(** From Python 3.12 on [sum] of floats carries a compensation term
    (Neumaier), added at the end when it is finite and not zero. *)
Definition compensate (st : float * float) (x : float) : float * float :=
  let (f_result, c) := st in
  let t := f_result + x in
  if abs x <=? abs f_result
  then (t, c + ((f_result - t) + x))
  else (t, c + ((x - t) + f_result)).

Definition sum_compensated (xs : list float) : float :=
  match xs with
  | [] => 0
  | x :: rest =>
      let (f_result, c) := fold_left compensate rest (0 + x, 0) in
      if negb (c =? 0) && (abs c <? infinity) then f_result + c
      else f_result
  end.

(** [math.sqrt(x)] raises [ValueError] below zero. *)
Definition py_sqrt (x : float) : result float :=
  if x <? 0 then Raise ValueError else Ok (sqrt x).

(** [a / b] raises [ZeroDivisionError] on a zero divisor. *)
Definition py_div (a b : float) : result float :=
  if b =? 0 then Raise ZeroDivisionError else Ok (a / b).

(** [x or 1.0] *)
Definition or_one (x : float) : float := if x =? 0 then 1 else x.

Fixpoint map_result {A B : Type} (f : A -> result B) (l : list A)
  : result (list B) :=
  match l with
  | [] => Ok []
  | a :: r =>
      bind (f a) (fun b => bind (map_result f r) (fun bs => Ok (b :: bs)))
  end.

Section Dedupe.

Variable Rec : Type.
Variable rec_title rec_reasoning : Rec -> string.

(** The embedding service: the vectors of the texts, or [[]] when there
    is none. *)
Variable embed : list string -> list (list float).

(** The builtin [sum] on floats, of the interpreter that runs the code. *)
Variable py_sum : list float -> float.

(** *** The bag-of-words vectors *)

(** [vec[i] += 1.0] *)
Fixpoint add_at (i : nat) (vec : list float) : list float :=
  match vec, i with
  | [], _ => []
  | x :: r, O => (x + 1) :: r
  | x :: r, S j => x :: add_at j r
  end.

Definition count_vec (vocab : dict nat) (toks : list string) : list float :=
  fold_left (fun vec tok => match dict_get vocab tok with
                            | Some i => add_at i vec
                            | None => vec
                            end)
            toks (repeat 0 (List.length vocab)).

(** [math.sqrt(sum(v*v for v in vec)) or 1.0] *)
Definition l2norm (vec : list float) : result float :=
  bind (py_sqrt (py_sum (map (fun v => v * v) vec)))
       (fun norm => Ok (or_one norm)).

Definition normalize (vec : list float) : result (list float) :=
  bind (l2norm vec) (fun norm => map_result (fun v => py_div v norm) vec).

Definition bag_of_words (combined : list string)
  : result (list (list float)) :=
  let tokenized := map Orchestrator.tokens combined in
  let vocab := Orchestrator.build_vocab tokenized in
  map_result (fun toks => normalize (count_vec vocab toks)) tokenized.

(** *** Cosine similarity and the greedy pass *)

Fixpoint zip_mul (a b : list float) : list float :=
  match a, b with
  | x :: a', y :: b' => (x * y) :: zip_mul a' b'
  | _, _ => []
  end.

Definition _cos (a b : list float) : result float :=
  let dot := py_sum (zip_mul a b) in
  bind (l2norm a) (fun norm_a =>
  bind (l2norm b) (fun norm_b =>
  py_div dot (norm_a * norm_b))).

(** [_cos(vec, rep_vec) > 0.90] *)
Definition too_similar (vec rep_vec : list float) : result bool :=
  bind (_cos vec rep_vec) (fun c => Ok (threshold <? c)).

(** The loop over the representatives, left at the first one that is too
    similar. *)
Fixpoint is_duplicate (vec : list float) (rep_vectors : list (list float))
  : result bool :=
  match rep_vectors with
  | [] => Ok false
  | rep_vec :: rest =>
      bind (too_similar vec rep_vec)
           (fun d => if d then Ok true else is_duplicate vec rest)
  end.

Fixpoint dedupe_loop (vectors : list (list float)) (idx : nat)
  (recs : list Rec) (kept : list Rec) (rep_vectors : list (list float))
  : result (list Rec) :=
  match recs with
  | [] => Ok kept
  | rec :: rest =>
      match nth_error vectors idx with
      | None => Raise IndexError
      | Some vec =>
          bind (is_duplicate vec rep_vectors)
            (fun d =>
               if d
               then dedupe_loop vectors (S idx) rest kept rep_vectors
               else dedupe_loop vectors (S idx) rest
                      (List.app kept [rec]) (List.app rep_vectors [vec]))
      end
  end.

Definition vectors_for (recs : list Rec) : result (list (list float)) :=
  let combined :=
    map (Orchestrator.combined_text rec_title rec_reasoning) recs in
  match embed combined with
  | [] => bag_of_words combined
  | vectors => Ok vectors
  end.

Definition _dedupe_semantic_recommendations (recs : list Rec)
  : result (list Rec) :=
  match recs with
  | [] => Ok recs
  | _ => bind (vectors_for recs)
              (fun vectors => dedupe_loop vectors 0 recs [] [])
  end.

End Dedupe.

Arguments dedupe_loop {Rec} _ _ _ _ _ _.
Arguments vectors_for {Rec} _ _ _ _ _.
Arguments _dedupe_semantic_recommendations {Rec} _ _ _ _ _.

End Orchestrator64.

(* ===================================================================== *)
(** * Notions used to state the properties *)
(* ===================================================================== *)

Module Props.
Import PyStr Py Scoring.
Local Open Scope Q_scope.

(** The signal weights of a scoring block are not negative. *)
Definition signal_weights_nonneg (practice : Practice) : Prop :=
  match p_scoring practice with
  | Some conf => forall k w, In (k, w) (sc_signal_weights conf) -> 0 <= w
  | None => True
  end.

(** [text'] is [text] with a phrase added after or before it, a blank in
    between. *)
Definition adds_phrase (text addition text' : string) : Prop :=
  text' = (text ++ " " ++ addition)%string
  \/ text' = (addition ++ " " ++ text)%string.

(** Every phrase present in [t1] is present in [t2]. *)
Definition keeps_phrases (t1 t2 : string) : Prop :=
  forall phrase,
    _phrase_present t1 phrase = true -> _phrase_present t2 phrase = true.

(** The sums of the aggregation formula, over the scores of a result. *)
Definition sum_weights (scores : list PracticeScore) : Q :=
  qsum (map weight scores).

Definition sum_weighted_scores (scores : list PracticeScore) : Q :=
  qsum (map (fun ps => inject_Z (score ps) * weight ps) scores).

(** The recommendations the loop of [compute_pillar_scores] gathers. *)
Definition collected (practices : list Practice) (scores : list PracticeScore)
  : list Recommendation :=
  flat_map (fun pp => _collect_recommendations (fst pp) (snd pp))
           (combine practices scores).

(** [scores] are the scores of [practices] on [text], in order. *)
Definition scored_by
  (scorer : Practice -> string -> option Q -> result PracticeScore)
  (weights_map : dict Q) (text : string)
  (practices : list Practice) (scores : list PracticeScore) : Prop :=
  Forall2 (fun p ps =>
             scorer p text (override_for weights_map (p_code p)) = Ok ps)
          practices scores.

(** Severity read as "the first of the keys that is present". *)
Definition first_present (rec : Recommendation) : option value :=
  match dict_get rec "severity" with
  | Some v => Some v
  | None =>
      match dict_get rec "execution_priority" with
      | Some v => Some v
      | None => dict_get rec "priority"
      end
  end.

Definition int_or_5 (v : option value) : Z :=
  match v with
  | None => 5%Z
  | Some x => match py_int x with Ok z => z | Raise _ => 5%Z end
  end.

Definition severity_first_key (rec : Recommendation) : Z :=
  int_or_5 (first_present rec).

(** Severity read as "the first of the keys whose value is true in the
    sense of Python" (so neither absent, [None], [0], [0.0], [""], [[]]
    nor [{}]). *)
Definition first_truthy (rec : Recommendation) : option value :=
  find truthy [rec_get rec "severity";
               rec_get rec "execution_priority";
               rec_get rec "priority"].

Definition severity_first_truthy (rec : Recommendation) : Z :=
  int_or_5 (first_truthy rec).

(** [out] is the entry of the result that stands for [rec] of a practice
    scored [ps]. *)
Definition entry_of (ps : PracticeScore) (rec out : Recommendation) : Prop :=
  out = normalized rec (severity_first_truthy rec) ps.

(** The percentages the progress sink has received, oldest first. *)
Definition progress_values (o : Orchestrator.Orch) : list Z :=
  map fst (Orchestrator.notified o).

(** The similarity of two vectors does not exceed the threshold. *)
Definition not_too_similar (a b : list R) : Prop :=
  (Orchestrator._cos a b <= 9 / 10)%R.

(** The sum of the squares of a vector. *)
Definition sumsq (a : list R) : R :=
  Orchestrator.rsum (map (fun v => (v * v)%R) a).

(** [kept] lists the elements of [recs] at the positions [positions]. *)
Definition at_positions {A : Type} (recs : list A) (positions : list nat)
  (kept : list A) : Prop :=
  Forall2 (fun i r => nth_error recs i = Some r) positions kept.

(** The positions a greedy pass keeps among the first [n]: they are in
    increasing order, and a position is kept exactly when its vector is
    not too similar to the vector of any position kept before it. *)
Definition greedy_positions (vectors : list (list R)) (n : nat)
  (positions : list nat) : Prop :=
  StronglySorted lt positions
  /\ (forall i, In i positions -> (i < n)%nat)
  /\ (forall i, (i < n)%nat ->
                (In i positions <->
                 forall j, In j positions -> (j < i)%nat ->
                           not_too_similar (nth i vectors [])
                                           (nth j vectors []))).

(** The embedding service answers with one vector per text, or with
    nothing. *)
Definition embed_well_formed (embed : list string -> list (list R)) : Prop :=
  forall texts,
    embed texts = [] \/ List.length (embed texts) = List.length texts.

(** The percentage is the aggregation formula up to the rounding to two
    decimals: it is within one hundredth of the exact quotient, and 0
    when the total weight is zero. *)
Definition percent_near (scores : list PracticeScore) (percent : Q) : Prop :=
  (~ sum_weights scores == 0 ->
   Qabs (percent - 100 * sum_weighted_scores scores / (5 * sum_weights scores))
   <= 1 # 100)
  /\ (sum_weights scores == 0 -> percent == 0).

(** The aggregation formula, the result being rounded to two decimals. *)
Definition percent_formula (scores : list PracticeScore) (percent : Q) : Prop :=
  (~ sum_weights scores == 0 ->
   percent == round2 (100 * sum_weighted_scores scores
                      / (5 * sum_weights scores)))
  /\ (sum_weights scores == 0 -> percent == 0).

End Props.

(* ===================================================================== *)
(** * Concrete definitions and inputs *)
(* ===================================================================== *)

Module Examples.
Import PyStr Py Scoring.
Local Open Scope Q_scope.

Definition legacy_practice (c : string) (w : Q) (signals : list string)
  : Practice :=
  {| p_code := Some c; p_title := ""; p_weight := w; p_scoring := None;
     p_signals := signals; p_recommendations := [] |}.

Definition block_practice (c : string) (w : Q) (conf : ScoringConf)
  : Practice :=
  {| p_code := Some c; p_title := ""; p_weight := w; p_scoring := Some conf;
     p_signals := []; p_recommendations := [] |}.

Definition no_gaps : string -> list unit -> list unit := fun _ _ => [].

Definition pillar_of (practices : list Practice) : PillarData unit :=
  {| d_pillar := Some "reliability"; d_version := Some "1.0";
     d_practices := practices; d_weights := []; d_gaps := [] |}.

(** Three practices of weight 1, the first one alone satisfied by the text
    ["alpha"]. *)
Definition three_practices : PillarData unit :=
  pillar_of [legacy_practice "A" 1 ["alpha"];
             legacy_practice "B" 1 ["beta"];
             legacy_practice "C" 1 ["gamma"]].

(** Two practices of weight 1. *)
Definition two_practices : PillarData unit :=
  pillar_of [legacy_practice "A" 1 ["multi-region"];
             legacy_practice "B" 1 ["backup"]].

(** The scenario of the specification: one practice, one signal. *)
Definition one_practice : PillarData unit :=
  pillar_of [legacy_practice "A" 1 ["multi-region"]].

Definition scenario_text : string :=
  "Our deployment spans multi-region failover groups.".

(** A recommendation whose severity is the integer 0, one whose severity
    is the string "0", and a practice for each. *)
Definition rec_int_zero : Recommendation :=
  [("id", VStr "re01-1"); ("title", VStr "Add a second region");
   ("severity", VInt 0)].

Definition rec_str_zero : Recommendation :=
  [("id", VStr "re01-2"); ("title", VStr "Add a second region");
   ("severity", VStr "0")].

Definition practice_with (rec : Recommendation) : Practice :=
  {| p_code := Some "RE01"; p_title := "Redundancy"; p_weight := 1;
     p_scoring := None; p_signals := ["multi-region"];
     p_recommendations := [rec] |}.

Definition low_score : PracticeScore :=
  {| code := Some "RE01"; title := "Redundancy"; weight := 1; score := 0;
     matched_signals := []; total_signals := 1; coverage := 0;
     mode := "legacy-proportional" |}.

(** A practice with a weighted scoring block. *)
Definition weighted_block : ScoringConf :=
  {| sc_mode := Some "tiered";
     sc_signals := ["slo"; "backup"; "multi-region"];
     sc_signal_weights := [("slo", 2); ("backup", 1)];
     sc_signal_aliases := [("slo", ["service level objective"])] |}.

(** A scoring block in which one signal counts against the practice. *)
Definition penalty_block : ScoringConf :=
  {| sc_mode := Some "proportional";
     sc_signals := ["slo"; "backup"; "multi-region"];
     sc_signal_weights := [("slo", 3); ("backup", -1); ("multi-region", 2)];
     sc_signal_aliases := [] |}.

(** A scoring block that declares no signal. *)
Definition empty_block : ScoringConf :=
  {| sc_mode := Some "proportional"; sc_signals := [];
     sc_signal_weights := []; sc_signal_aliases := [] |}.

(** Eight hundred one-letter words, and eight hundred five-letter words. *)
Definition words800 : string := join " " (repeat "a" 800).
Definition alphas800 : string := join " " (repeat "alpha" 800).

(** Two components of one category. *)
Definition two_services : list Orchestrator.Component :=
  [ {| Orchestrator.service := "vm"; Orchestrator.category := Some "compute" |};
    {| Orchestrator.service := "aks"; Orchestrator.category := Some "compute" |} ].

(** Recommendations as pairs of a title and a reasoning, and no embedding
    service. *)
Definition no_embedding : list string -> list (list R) := fun _ => [].

Definition near1 : string * string :=
  ("alpha alpha alpha beta", "beta beta gamma delta").
Definition near2 : string * string :=
  ("alpha alpha alpha beta", "beta beta gamma epsilon").
Definition far1 : string * string := ("alpha", "beta").
Definition far2 : string * string := ("alpha", "gamma").

Definition fallback_vectors (recs : list (string * string))
  : list (list R) :=
  Orchestrator.vectors_for fst snd no_embedding recs.

Definition fallback_dedupe (recs : list (string * string))
  : result (list (string * string)) :=
  Orchestrator._dedupe_semantic_recommendations fst snd no_embedding recs.

End Examples.

(* ===================================================================== *)
(** * Gap evaluation ([utils/scoring/scoring.py]) *)
(* ===================================================================== *)

Module Gaps.
Import PyStr Py.

(** [re.sub(r"\s+", " ", s)]: every run of blank characters becomes one
    space; [in_ws] tells that the run has begun. *)
Fixpoint collapse_from (in_ws : bool) (s : string) : string :=
  match s with
  | EmptyString => EmptyString
  | String c r =>
      if is_space c
      then if in_ws then collapse_from true r
           else String " " (collapse_from true r)
      else String c (collapse_from false r)
  end.

Definition collapse_ws (s : string) : string := collapse_from false s.

(** The test [re.search(r"[\(\)\|\[\]\?\+\*]", s)]. *)
Definition is_meta (c : ascii) : bool :=
  existsb (Ascii.eqb c) ["("; ")"; "|"; "["; "]"; "?"; "+"; "*"]%char.

Fixpoint has_meta (s : string) : bool :=
  match s with
  | EmptyString => false
  | String c r => is_meta c || has_meta r
  end.

(** The pattern [\b t1 \s+ t2 ... \s+ tn \b] built from the tokens of a
    plain phrase.  A token has no blank character, so that [\s+] can only
    take a whole run of blanks.  [match_rest] reads what follows the first
    token; [last_word] tells whether the last character read is a word
    character. *)
Fixpoint match_rest (last_word : bool) (tokens : list string) (s : string)
  : bool :=
  match tokens with
  | [] => xorb last_word (Regex.first_is_word s)
  | t :: ts =>
      match s with
      | EmptyString => false
      | String c r =>
          if is_space c
          then match Regex.drop_prefix t (lstrip r) with
               | Some rest => match_rest (Regex.last_is_word false t) ts rest
               | None => false
               end
          else false
      end
  end.

Definition match_plain_here (prev : bool) (tokens : list string) (s : string)
  : bool :=
  match tokens with
  | [] => false
  | t :: ts =>
      xorb prev (Regex.first_is_word s)
      && match Regex.drop_prefix t s with
         | Some rest => match_rest (Regex.last_is_word prev t) ts rest
         | None => false
         end
  end.

Fixpoint search_plain_from (prev : bool) (tokens : list string) (s : string)
  : bool :=
  match_plain_here prev tokens s
  || match s with
     | EmptyString => false
     | String c r => search_plain_from (is_word c) tokens r
     end.

Definition search_plain (tokens : list string) (text : string) : bool :=
  search_plain_from false tokens text.

(** A compiled pattern: the tokens of a plain phrase, or the search
    function of a regular expression of the author.  The flag IGNORECASE
    changes nothing, the pattern and the text being in lower case. *)
Inductive Compiled : Type :=
| Plain (tokens : list string)
| Author (search : string -> bool).

Definition compiled_search (regex : Compiled) (text : string) : bool :=
  match regex with
  | Plain tokens => search_plain tokens text
  | Author search => search text
  end.

Record Gap : Type := {
  g_id : option string;
  g_label : option string;
  g_detail : option string;
  g_practice : option string;
  g_patterns : list string;
  g_recommendation_hint_keywords : list string
}.

Record GapResult : Type := {
  id : option string;
  label : option string;
  detail : option string;
  practice : option string;
  matched : bool;
  matchedPatterns : list string;
  recommendationHintKeywords : list string
}.

Section Evaluate.

(** [re.compile] on an expression of the author: its search function, or
    [None] when [re.error] is raised. *)
Variable author_regex : string -> option (string -> bool).

Definition normalize_pattern (raw : string) : string :=
  collapse_ws (lower (strip raw)).

(** One turn of the loop over the raw patterns. *)
Definition compile_step (compiled : list (string * Compiled)) (raw : string)
  : list (string * Compiled) :=
  let raw_norm := normalize_pattern raw in
  if has_meta raw_norm
  then match author_regex raw_norm with
       | Some search => List.app compiled [(raw, Author search)]
       | None => compiled
       end
  else match split raw_norm with
       | [] => compiled
       | tokens => List.app compiled [(raw, Plain tokens)]
       end.

Definition evaluate_gap (norm_text : string) (gap : Gap) : GapResult :=
  let compiled := fold_left compile_step (g_patterns gap) [] in
  let matched_patterns :=
    map fst (filter (fun entry => compiled_search (snd entry) norm_text)
                    compiled) in
  {| id := g_id gap;
     label := g_label gap;
     detail := g_detail gap;
     practice := g_practice gap;
     matched := match matched_patterns with [] => false | _ => true end;
     matchedPatterns := matched_patterns;
     recommendationHintKeywords := g_recommendation_hint_keywords gap |}.

Definition _evaluate_gaps (text : string) (gaps_def : list Gap)
  : list GapResult :=
  let norm_text := collapse_ws (lower text) in
  map (evaluate_gap norm_text) gaps_def.

End Evaluate.

End Gaps.

(* ===================================================================== *)
(** * The reliability breakdown ([utils/scoring/scoring.py]) *)
(* ===================================================================== *)

Module Breakdown.
Import PyStr Py Scoring.
Local Open Scope Q_scope.

(** A dict whose keys are practice codes ([None] for a practice without
    one).  The comprehension [{p.code: f(p) for p in scores}] keeps the
    place of the first entry of a key and the value of its last. *)
Definition code_map (V : Type) : Type := list (option string * V).

Definition code_eqb (a b : option string) : bool :=
  match a, b with
  | Some x, Some y => String.eqb x y
  | None, None => true
  | _, _ => false
  end.

Fixpoint code_set {V : Type} (m : code_map V) (k : option string) (v : V)
  : code_map V :=
  match m with
  | [] => [(k, v)]
  | (k', v') :: r =>
      if code_eqb k' k then (k', v) :: r else (k', v') :: code_set r k v
  end.

Fixpoint code_get {V : Type} (m : code_map V) (k : option string)
  : option V :=
  match m with
  | [] => None
  | (k', v) :: r => if code_eqb k' k then Some v else code_get r k
  end.

Definition by_code {V : Type} (f : PracticeScore -> V)
  (scores : list PracticeScore) : code_map V :=
  fold_left (fun m p => code_set m (code p) (f p)) scores [].

(** [m.get(c, default)] for a code [c] of the mapping. *)
Definition get_code {V : Type} (m : code_map V) (c : string) (default : V)
  : V :=
  match code_get m (Some c) with
  | Some v => v
  | None => default
  end.

Definition mappings : list (string * list string) :=
  [ ("Reliability-Focused Design Foundations", ["RE01"; "RE02"; "RE03"]);
    ("Reliability Objectives & Health Metrics", ["RE04"; "RE10"]);
    ("Resilient Architecture & Scaling Strategies", ["RE05"; "RE06"; "RE07"]);
    ("Reliability Testing & Chaos Validation", ["RE08"]);
    ("Recovery & Continuity Preparedness", ["RE09"]) ].

Record CategoryPractice : Type := {
  cp_code : string;
  cp_title : string;
  cp_percent : Q
}.

Record CategoryBreakdown : Type := {
  b_pillar : string;
  b_overall_maturity_percent : Q;
  categories : dict Q;
  category_practices : dict (list CategoryPractice)
}.

Definition pct (code_to_score : code_map Z) (c : string) : Q :=
  inject_Z (get_code code_to_score c 0%Z) / 5 * 100.

Definition category_percent (code_to_score : code_map Z)
  (codes : list string) : Q :=
  if nonempty codes
  then round2 (qsum (map (pct code_to_score) codes) / len_q codes)
  else 0.

Definition reliability_category_breakdown {GapResult : Type}
  (scores : PillarScores GapResult) : CategoryBreakdown :=
  let code_to_score := by_code score (practice_scores scores) in
  let categories :=
    map (fun entry => (fst entry, category_percent code_to_score (snd entry)))
        mappings in
  let practice_details := by_code title (practice_scores scores) in
  let category_practices :=
    map (fun entry =>
           (fst entry,
            map (fun c =>
                   {| cp_code := c;
                      cp_title := get_code practice_details c "";
                      cp_percent :=
                        round2 (inject_Z (get_code code_to_score c 0%Z)
                                / 5 * 100) |})
                (snd entry)))
        mappings in
  {| b_pillar := pillar scores;
     b_overall_maturity_percent := overall_maturity_percent scores;
     categories := categories;
     category_practices := category_practices |}.

End Breakdown.

(* ===================================================================== *)
(** * Progress phases ([app/analysis/orchestrator.py]) *)
(* ===================================================================== *)

Module Phases.
Import PyStr Py.

Record ProgressPhase : Type := {
  name : string;
  start_percent : Z;
  end_percent : Z;
  description : string
}.

Definition Initialization : ProgressPhase :=
  {| name := "Initialization"; start_percent := 0; end_percent := 5;
     description := "Setting up analysis environment" |}.
Definition Document_Processing : ProgressPhase :=
  {| name := "Document Processing"; start_percent := 5; end_percent := 15;
     description := "Analyzing uploaded artifacts" |}.
Definition Corpus_Assembly : ProgressPhase :=
  {| name := "Corpus Assembly"; start_percent := 15; end_percent := 20;
     description := "Building unified review context" |}.
Definition Pillar_Evaluation : ProgressPhase :=
  {| name := "Pillar Evaluation"; start_percent := 20; end_percent := 80;
     description := "Running five pillar assessments concurrently" |}.
Definition Cross_Pillar_Alignment : ProgressPhase :=
  {| name := "Cross-Pillar Alignment"; start_percent := 80; end_percent := 90;
     description := "Identifying dependencies and conflicts" |}.
Definition Synthesis : ProgressPhase :=
  {| name := "Synthesis"; start_percent := 90; end_percent := 95;
     description := "Generating cohesive recommendations" |}.
Definition Finalization : ProgressPhase :=
  {| name := "Finalization"; start_percent := 95; end_percent := 100;
     description := "Completing assessment" |}.

Definition PHASES : list ProgressPhase :=
  [Initialization; Document_Processing; Corpus_Assembly; Pillar_Evaluation;
   Cross_Pillar_Alignment; Synthesis; Finalization].

(** The loop of [get_phase_for_progress]: the first phase whose range
    holds the progress. *)
Fixpoint first_phase_holding (phases : list ProgressPhase) (progress : Z)
  : option ProgressPhase :=
  match phases with
  | [] => None
  | phase :: rest =>
      if (start_percent phase <=? progress)%Z
         && (progress <=? end_percent phase)%Z
      then Some phase
      else first_phase_holding rest progress
  end.

(** [self.PHASES[-1]] *)
Definition last_phase : ProgressPhase := last PHASES Finalization.

Definition get_phase_for_progress (progress : Z) : ProgressPhase :=
  match first_phase_holding PHASES progress with
  | Some phase => phase
  | None => last_phase
  end.

(** [int(x)] of a float: the integer part, towards zero.  The fraction of
    [calculate_phase_progress] is a rational here and its product with the
    range is exact; the product of floats is rounded, which keeps the
    order and is exact at 0 and at 1. *)
Definition py_trunc (x : Q) : Z := Z.quot (Qnum x) (Z.pos (Qden x)).

(** [next((p for p in self.PHASES if p.name == phase_name), None)] *)
Definition phase_named (phase_name : string) : option ProgressPhase :=
  find (fun p => String.eqb (name p) phase_name) PHASES.

Definition calculate_phase_progress (phase_name : string) (sub_progress : Q)
  : Z :=
  match phase_named phase_name with
  | None => 0%Z
  | Some phase =>
      let range_size := (end_percent phase - start_percent phase)%Z in
      let offset := py_trunc (inject_Z range_size * sub_progress) in
      (start_percent phase + offset)%Z
  end.

End Phases.

(* ===================================================================== *)
(** * Evidence of the pillar context ([create_unified_corpus]) *)
(* ===================================================================== *)

Module Evidence.
Import PyStr Py.

(** The part of [create_unified_corpus] that removes the repeated signals
    of each pillar of [pillar_context]; [dedupe_signals] is what the loop
    does to the list of one pillar. *)

(** [s.lower()[:140]] *)
Definition evidence_key (s : string) : string := take 140 (lower s).

(** The loop over the signals of one pillar; [seen] is the set of the keys
    met so far, of which only membership is asked. *)
Fixpoint evidence_loop (sigs : list string) (seen : list string)
  (deduped : list string) : list string :=
  match sigs with
  | [] => deduped
  | s :: rest =>
      let key := evidence_key s in
      if existsb (String.eqb key) seen
      then evidence_loop rest seen deduped
      else evidence_loop rest (key :: seen) (List.app deduped [s])
  end.

Definition dedupe_signals (sigs : list string) : list string :=
  evidence_loop sigs [] [].

End Evidence.

(* ===================================================================== *)
(** * Cross-pillar conflicts and synthesis ([app/analysis/orchestrator.py]) *)
(* ===================================================================== *)

Module Conflicts.
Import PyStr Py.

(** [needle in hay] *)
Fixpoint contains (needle hay : string) : bool :=
  String.prefix needle hay
  || match hay with
     | EmptyString => false
     | String _ r => contains needle r
     end.

(** [any(k in text for k in keywords)] *)
Definition any_keyword (keywords : list string) (text : string) : bool :=
  existsb (fun k => contains k text) keywords.

(** A conflict as the detection builds it: a dictionary with the keys
    [type], [pillar_a], [pillar_b], [description] and [mitigation]. *)
Record Conflict : Type := {
  c_type : string;
  pillar_a : string;
  pillar_b : string;
  description : string;
  mitigation : string
}.

Definition cost_vs_reliability : Conflict :=
  {| c_type := "cost_vs_reliability";
     pillar_a := "Cost Optimization";
     pillar_b := "Reliability";
     description := "Cost reduction measures may undermine availability targets";
     mitigation := "Prioritize cost optimization in non-critical paths; preserve redundancy for critical flows" |}.

Definition security_vs_performance : Conflict :=
  {| c_type := "security_vs_performance";
     pillar_a := "Security";
     pillar_b := "Performance Efficiency";
     description := "Security hardening may introduce performance overhead";
     mitigation := "Use Azure-native security services with performance optimization (e.g., Azure Front Door with WAF)" |}.

Definition operational_enabler : Conflict :=
  {| c_type := "operational_enabler";
     pillar_a := "Operational Excellence";
     pillar_b := "All Pillars";
     description := "Automation and IaC improvements enable better outcomes across all pillars";
     mitigation := "Prioritize operational excellence as foundational capability" |}.

Definition cost_keywords : list string :=
  ["reduce"; "downsize"; "lower tier"; "scale down"].
Definition reliability_keywords : list string :=
  ["redundancy"; "replica"; "multi-region"; "failover"].
Definition security_keywords : list string :=
  ["encrypt"; "authentication"; "firewall"; "inspection"].
Definition performance_keywords : list string :=
  ["latency"; "faster"; "reduce overhead"].
Definition operational_keywords : list string :=
  ["automation"; "ci/cd"; "pipeline"; "iac"].
Definition enrichment_keywords : list string :=
  ["cost"; "reduce"; "downsize"; "encrypt"; "security"; "latency"].

Section Recs.

(** A recommendation is a dictionary; [rec_title] and [rec_reasoning] are
    [rec.get("title", "")] and [rec.get("reasoning", "")], and
    [rec_considerations] is the value of ["cross_pillar_considerations"]
    when the dictionary has one. *)
Variable Rec : Type.
Variable rec_title rec_reasoning : Rec -> string.
Variable rec_considerations : Rec -> option (list string).

(** A pillar result: [result.get("pillar")] and
    [result.get("recommendations", [])]. *)
Record PillarResult : Type := {
  pr_pillar : option string;
  pr_recommendations : list Rec
}.

Definition pillar_name (result : PillarResult) : string :=
  match pr_pillar result with
  | Some p => p
  | None => "unknown"
  end.

Definition rec_text (rec : Rec) : string :=
  lower (rec_title rec ++ " " ++ rec_reasoning rec).

(** [recs_by_pillar[pillar] = recs], result after result. *)
Definition recs_by_pillar (pillar_results : list PillarResult)
  : dict (list Rec) :=
  fold_left (fun d result =>
               dict_set d (pillar_name result) (pr_recommendations result))
            pillar_results [].

(** The inner loop: the first recommendation with a keyword appends the
    conflict and ends the loop. *)
Fixpoint first_hit (keywords : list string) (recs : list Rec)
  (conflict : Conflict) (conflicts : list Conflict) : list Conflict :=
  match recs with
  | [] => conflicts
  | rec :: rest =>
      if any_keyword keywords (rec_text rec)
      then List.app conflicts [conflict]
      else first_hit keywords rest conflict conflicts
  end.

(** The outer loop over the recommendations of the first pillar. *)
Definition pair_scan (keywords_a : list string) (recs_a : list Rec)
  (keywords_b : list string) (recs_b : list Rec)
  (conflict : Conflict) (conflicts : list Conflict) : list Conflict :=
  fold_left (fun cs rec =>
               if any_keyword keywords_a (rec_text rec)
               then first_hit keywords_b recs_b conflict cs
               else cs)
            recs_a conflicts.

Definition detect_cross_pillar_conflicts (pillar_results : list PillarResult)
  : list Conflict :=
  let by_pillar := recs_by_pillar pillar_results in
  let cost_recs := get_default by_pillar "Cost Optimization" [] in
  let reliability_recs := get_default by_pillar "Reliability" [] in
  let conflicts :=
    pair_scan cost_keywords cost_recs reliability_keywords reliability_recs
      cost_vs_reliability [] in
  let security_recs := get_default by_pillar "Security" [] in
  let performance_recs := get_default by_pillar "Performance Efficiency" [] in
  let conflicts :=
    pair_scan security_keywords security_recs
      performance_keywords performance_recs security_vs_performance
      conflicts in
  let operational_recs := get_default by_pillar "Operational Excellence" [] in
  first_hit operational_keywords operational_recs operational_enabler
    conflicts.

(** A copy of a recommendation with its source pillar and, once enriched,
    its cross-pillar considerations. *)
Record Cohesive : Type := {
  co_rec : Rec;
  source_pillar : string;
  cross_pillar_considerations : option (list string)
}.

Definition collect_all (pillar_results : list PillarResult) : list Cohesive :=
  flat_map (fun result =>
              map (fun rec =>
                     {| co_rec := rec;
                        source_pillar := pillar_name result;
                        cross_pillar_considerations := rec_considerations rec |})
                  (pr_recommendations result))
           pillar_results.

Definition relates (rec : Cohesive) (conflict : Conflict) : bool :=
  (String.eqb (c_type conflict) "cost_vs_reliability"
   || String.eqb (c_type conflict) "security_vs_performance")
  && (String.eqb (source_pillar rec) (pillar_a conflict)
      || String.eqb (source_pillar rec) (pillar_b conflict))
  && any_keyword enrichment_keywords (rec_text (co_rec rec)).

(** [f"⚠ {conf['description']} - {conf['mitigation']}"]; the sign is
    held as the three bytes of its UTF-8 form. *)
Definition consideration (conflict : Conflict) : string :=
  "⚠ " ++ description conflict ++ " - " ++ mitigation conflict.

Definition enrich (conflicts : list Conflict) (rec : Cohesive) : Cohesive :=
  match filter (relates rec) conflicts with
  | [] => rec
  | related =>
      {| co_rec := co_rec rec;
         source_pillar := source_pillar rec;
         cross_pillar_considerations := Some (map consideration related) |}
  end.

Variable embed : list string -> list (list R).

Definition generate_cohesive_recommendations
  (pillar_results : list PillarResult) (conflicts : list Conflict)
  : result (list Cohesive) :=
  let all_recs := map (enrich conflicts) (collect_all pillar_results) in
  Orchestrator._dedupe_semantic_recommendations
    (fun rec => rec_title (co_rec rec)) (fun rec => rec_reasoning (co_rec rec))
    embed all_recs.

End Recs.

Arguments pr_pillar {Rec} _.
Arguments pr_recommendations {Rec} _.
Arguments pillar_name {Rec} _.
Arguments rec_text {Rec} _ _ _.
Arguments recs_by_pillar {Rec} _.
Arguments first_hit {Rec} _ _ _ _ _ _.
Arguments pair_scan {Rec} _ _ _ _ _ _ _ _.
Arguments detect_cross_pillar_conflicts {Rec} _ _ _.
Arguments co_rec {Rec} _.
Arguments source_pillar {Rec} _.
Arguments cross_pillar_considerations {Rec} _.
Arguments collect_all {Rec} _ _.
Arguments relates {Rec} _ _ _ _.
Arguments enrich {Rec} _ _ _ _.
Arguments generate_cohesive_recommendations {Rec} _ _ _ _ _ _.

End Conflicts.

(* ===================================================================== *)
(** * Notions used to state the further properties *)
(* ===================================================================== *)

Module ScoringProps.
Import PyStr Py Scoring.
Local Open Scope Q_scope.

(** The signals a practice declares, and the test that makes one of them
    count as matched. *)
Definition declared_signals (practice : Practice) : list string :=
  match p_scoring practice with
  | Some conf => sc_signals conf
  | None => p_signals practice
  end.

Definition signal_found (practice : Practice) (text : string) (sig : string)
  : bool :=
  match p_scoring practice with
  | Some conf => signal_present text (sc_signal_aliases conf) sig
  | None => _phrase_present text (lower sig)
  end.

(** The practice has something to weigh: a scoring block of non-zero total
    weight, or a non-empty legacy list. *)
Definition weighable (practice : Practice) : Prop :=
  match p_scoring practice with
  | Some conf => nonzero (signals_total_weight conf) = true
  | None => p_signals practice <> []
  end.

(** The weights of a definition are not negative: those of the practices,
    those of their signals and the overriding ones. *)
Definition weights_nonneg {Gap : Type} (data : PillarData Gap) : Prop :=
  (forall practice, In practice (d_practices data) ->
                    0 <= p_weight practice
                    /\ Props.signal_weights_nonneg practice)
  /\ (forall k w, In (k, w) (d_weights data) -> 0 <= w).

(** [s.upper()] *)
Fixpoint upper (s : string) : string :=
  match s with
  | EmptyString => EmptyString
  | String c r => String (upper_char c) (upper r)
  end.

(** [s.isascii()]: the text has no character outside ASCII, where
    [upper] and [lower] are the maps of this file. *)
Fixpoint isascii (s : string) : bool :=
  match s with
  | EmptyString => true
  | String c r => (PyStr.code c <? 128)%nat && isascii r
  end.

(** The keys [_collect_recommendations] removes or writes. *)
Definition reserved_key (k : string) : bool :=
  String.eqb k "priority" || String.eqb k "execution_priority"
  || String.eqb k "severity" || String.eqb k "practice".

End ScoringProps.

Module GapProps.
Import PyStr Py Gaps.

(** A text in which every blank character is a single space, not next to
    another one; [prev_ws] tells that the character before is a space. *)
Fixpoint tidy_from (prev_ws : bool) (s : string) : bool :=
  match s with
  | EmptyString => true
  | String c r =>
      if is_space c
      then Ascii.eqb c " " && negb prev_ws && tidy_from true r
      else tidy_from false r
  end.

(** A token: not empty, without blank character. *)
Fixpoint ws_free (s : string) : bool :=
  match s with
  | EmptyString => true
  | String c r => negb (is_space c) && ws_free r
  end.

Definition is_token (t : string) : Prop := t <> "" /\ ws_free t = true.

(** What makes a raw pattern count as matched on the normalized text. *)
Definition pattern_holds (author_regex : string -> option (string -> bool))
  (norm_text raw : string) : Prop :=
  let raw_norm := normalize_pattern raw in
  if has_meta raw_norm
  then exists search, author_regex raw_norm = Some search
                      /\ search norm_text = true
  else split raw_norm <> []
       /\ Regex.occurs_bounded (join " " (split raw_norm)) norm_text.

(** What one raw pattern adds to the list of compiled patterns. *)
Definition compile_one (author_regex : string -> option (string -> bool))
  (raw : string) : list (string * Compiled) :=
  compile_step author_regex [] raw.

(** A gap and its result agree: same identity, and the matched patterns
    are the raw patterns of the gap that hold. *)
Definition gap_result_ok (author_regex : string -> option (string -> bool))
  (norm_text : string) (gap : Gap) (res : GapResult) : Prop :=
  id res = g_id gap /\ label res = g_label gap
  /\ (forall raw, In raw (matchedPatterns res) <->
                  In raw (g_patterns gap)
                  /\ pattern_holds author_regex norm_text raw)
  /\ (matched res = true <->
      exists raw, In raw (g_patterns gap)
                  /\ pattern_holds author_regex norm_text raw).

(** The tokens after the first one, each behind a space. *)
Fixpoint spaced (ts : list string) : string :=
  match ts with
  | [] => ""
  | t :: r => " " ++ t ++ spaced r
  end.

End GapProps.

Module BreakdownProps.
Import PyStr Py Scoring Breakdown.
Local Open Scope Q_scope.

(** The last practice score that bears the code [c]. *)
Definition last_with_code (scores : list PracticeScore) (c : string)
  : option PracticeScore :=
  find (fun p => code_eqb (code p) (Some c)) (rev scores).

Definition score_percent (scores : list PracticeScore) (c : string) : Q :=
  inject_Z (match last_with_code scores c with
            | Some p => score p
            | None => 0%Z
            end) / 5 * 100.

End BreakdownProps.

Module ConflictProps.
Import PyStr Py Conflicts.

(** The number of conflicts a pair of pillars gives: one for each
    recommendation of the first pillar with a keyword, when some
    recommendation of the second pillar has a keyword of its own. *)
Definition hits {Rec : Type} (rec_title rec_reasoning : Rec -> string)
  (keywords_a : list string) (recs_a : list Rec)
  (keywords_b : list string) (recs_b : list Rec) : nat :=
  if existsb (fun rec => any_keyword keywords_b
                           (rec_text rec_title rec_reasoning rec)) recs_b
  then List.length
         (filter (fun rec => any_keyword keywords_a
                               (rec_text rec_title rec_reasoning rec))
                 recs_a)
  else 0%nat.

(** The recommendations filed under a pillar name: those of the last
    result that carries the name. *)
Definition recs_of {Rec : Type} (pillar_results : list (PillarResult Rec))
  (pillar : string) : list Rec :=
  match find (fun result => String.eqb (pillar_name result) pillar)
             (rev pillar_results) with
  | Some result => pr_recommendations result
  | None => []
  end.

(** The pillars a conflict with considerations can name. *)
Definition conflict_pillar (pillar : string) : bool :=
  String.eqb pillar "Cost Optimization" || String.eqb pillar "Reliability"
  || String.eqb pillar "Security"
  || String.eqb pillar "Performance Efficiency".

End ConflictProps.

Module DedupeProps.
Import PyStr Py Orchestrator.
Local Open Scope R_scope.

(** Every index of the vocabulary is below its size. *)
Definition well_indexed (d : dict nat) : Prop :=
  forall k i, dict_get d k = Some i -> (i < List.length d)%nat.

(** One turn of the loop of [count_vec]. *)
Definition count_step (vocab : dict nat) (vec : list R) (tok : string)
  : list R :=
  match dict_get vocab tok with
  | Some i => add_at i vec
  | None => vec
  end.

End DedupeProps.

Module Dedupe64Props.
Import Py Orchestrator64.

Section Sum.

Variable py_sum : list float -> float.

(** The similarity of two vectors is computed and does not exceed the
    threshold: it is at most the threshold, or it is not a number. *)
Definition not_too_similar (a b : list float) : Prop :=
  exists c, _cos py_sum a b = Ok c /\ PrimFloat.ltb threshold c = false.

(** The positions a greedy pass keeps among the first [n], as
    [Props.greedy_positions] has them for real numbers. *)
Definition greedy_positions (vectors : list (list float)) (n : nat)
  (positions : list nat) : Prop :=
  StronglySorted lt positions
  /\ (forall i, In i positions -> (i < n)%nat)
  /\ (forall i, (i < n)%nat ->
                (In i positions <->
                 forall j, In j positions -> (j < i)%nat ->
                           not_too_similar (nth i vectors [])
                                           (nth j vectors []))).

(** No similarity between two of the vectors raises. *)
Definition cos_defined (vectors : list (list float)) : Prop :=
  forall a b, In a vectors -> In b vectors ->
              exists c, _cos py_sum a b = Ok c.

End Sum.

(** The embedding service answers with one vector per text, or with
    nothing. *)
Definition embed_well_formed (embed : list string -> list (list float))
  : Prop :=
  forall texts,
    embed texts = [] \/ List.length (embed texts) = List.length texts.

(** No embedding service, and the pass on pairs of a title and a
    reasoning. *)
Definition no_embedding : list string -> list (list float) := fun _ => [].

Definition fallback_dedupe (py_sum : list float -> float)
  (recs : list (string * string)) : result (list (string * string)) :=
  _dedupe_semantic_recommendations fst snd no_embedding py_sum recs.

(** Two texts whose bag-of-words vectors have the similarity 0.9 exactly:
    (1, 3, 0) and (0, 3, 1), of squared norm 10 and scalar product 9. *)
Definition edge1 : string * string := ("beta gamma gamma gamma", "").
Definition edge2 : string * string := ("alpha gamma gamma gamma", "").

End Dedupe64Props.

(* ===================================================================== *)
(** * Further examples *)
(* ===================================================================== *)

Module MoreExamples.
Import PyStr Py Scoring.
Local Open Scope Q_scope.

(** A practice score with a code and a score. *)
Definition practice_score_of (c : string) (s : Z) : PracticeScore :=
  {| code := Some c; title := c; weight := 1; score := s;
     matched_signals := []; total_signals := 0; coverage := 0;
     mode := "proportional" |}.

(** Three scores, the code RE04 twice. *)
Definition repeated_code : PillarScores unit :=
  {| pillar := "reliability"; version := "1.0";
     overall_maturity_percent := 0;
     practice_scores :=
       [ practice_score_of "RE04" 2; practice_score_of "RE10" 3;
         practice_score_of "RE04" 5 ];
     recommendations := [];
     gap_results := [] |}.

(** A recommendation of severity 1 that carries a priority. *)
Definition urgent_rec : Recommendation :=
  [("id", VStr "re01-3"); ("title", VStr "Add a second region");
   ("severity", VInt 1); ("priority", VInt 3)].

(** A text and a gap with a plain pattern. *)
Definition backup_text : string :=
  "There is  no backup configured for the primary database.".

Definition backup_gap : Gaps.Gap :=
  {| Gaps.g_id := Some "gap-backup"; Gaps.g_label := Some "No backup";
     Gaps.g_detail := None; Gaps.g_practice := Some "RE09";
     Gaps.g_patterns := ["no backup"];
     Gaps.g_recommendation_hint_keywords := [] |}.

(** The result of the cost pillar, with one recommendation (a title and a
    reasoning). *)
Definition cost_result : Conflicts.PillarResult (string * string) :=
  {| Conflicts.pr_pillar := Some "Cost Optimization";
     Conflicts.pr_recommendations :=
       [("Reduce cost", "Downsize the tier of the database")] |}.

(** A run whose collaborators answer at once: two pillar results, given by
    their scores, no conflict and no recommendation. *)
Definition quiet_run
  : Orchestrator.Run (Orchestrator.LifecycleResult Q unit unit) :=
  Orchestrator.run_assessment_lifecycle unit unit string Q unit unit
    (fun _ _ => Ok "corpus") (fun _ => Ok [80; 60])
    (fun _ => Ok []) (fun _ _ => Ok []) (fun score => score)
    (fun corpus => corpus) true tt tt.

End MoreExamples.

(* ===================================================================== *)
(** * Facts about rounding and sums of rationals *)
(* ===================================================================== *)

Module NumFacts.
Import Py.
Local Open Scope Q_scope.

Lemma py_round_cases (x : Q) :
  py_round x = Qfloor x \/ py_round x = (Qfloor x + 1)%Z.
Proof.
  unfold py_round.
  destruct (x - inject_Z (Qfloor x) ?= 1 # 2); auto.
  destruct (Z.even (Qfloor x)); auto.
Qed.

Lemma floor_bounds (x : Q) :
  inject_Z (Qfloor x) <= x /\ x < inject_Z (Qfloor x) + 1.
Proof.
  split; [apply Qfloor_le|].
  pose proof (Qlt_floor x) as H. rewrite inject_Z_plus in H. exact H.
Qed.

(** A rounded value is within one half of its argument. *)
Lemma py_round_near (x : Q) :
  inject_Z (py_round x) - (1 # 2) <= x /\ x <= inject_Z (py_round x) + (1 # 2).
Proof.
  destruct (floor_bounds x) as [Hlo Hhi]. unfold py_round.
  destruct (Qcompare_spec (x - inject_Z (Qfloor x)) (1 # 2)) as [E|L|G].
  - destruct (Z.even (Qfloor x)); [|rewrite inject_Z_plus];
      change (inject_Z 1) with 1; split; Lqa.lra.
  - split; Lqa.lra.
  - rewrite inject_Z_plus. change (inject_Z 1) with 1. split; Lqa.lra.
Qed.

Lemma py_round_mono (x y : Q) : x <= y -> (py_round x <= py_round y)%Z.
Proof.
  intros Hxy.
  pose proof (Qfloor_resp_le x y Hxy) as Hf.
  destruct (Z.eq_dec (Qfloor x) (Qfloor y)) as [E|NE].
  - unfold py_round. rewrite E.
    destruct (floor_bounds x) as [_ Hx]. destruct (floor_bounds y) as [Hy _].
    rewrite E in Hx.
    destruct (Qcompare_spec (x - inject_Z (Qfloor y)) (1 # 2)) as [E1|L1|G1];
      destruct (Qcompare_spec (y - inject_Z (Qfloor y)) (1 # 2)) as [E2|L2|G2];
      try (exfalso; Lqa.lra);
      destruct (Z.even (Qfloor y)); lia.
  - destruct (py_round_cases x) as [-> | ->];
      destruct (py_round_cases y) as [-> | ->]; lia.
Qed.

Lemma py_round_comp (x y : Q) : x == y -> py_round x = py_round y.
Proof.
  intros E. unfold py_round.
  assert (F : Qfloor x = Qfloor y) by (now apply Qfloor_comp).
  rewrite F.
  assert (C : (x - inject_Z (Qfloor y) ?= 1 # 2)
              = (y - inject_Z (Qfloor y) ?= 1 # 2)).
  { apply Qcompare_comp; [now rewrite E | reflexivity]. }
  now rewrite C.
Qed.

Lemma py_round_Z (z : Z) : py_round (inject_Z z) = z.
Proof.
  unfold py_round. rewrite Qfloor_Z.
  destruct (Qcompare_spec (inject_Z z - inject_Z z) (1 # 2)) as [E|L|G];
    try reflexivity; exfalso; Lqa.lra.
Qed.

Lemma py_round_nonneg (x : Q) : 0 <= x -> (0 <= py_round x)%Z.
Proof.
  intros H. change 0%Z with (py_round 0). now apply py_round_mono.
Qed.

Lemma round2_comp (x y : Q) : x == y -> round2 x == round2 y.
Proof.
  intros E. unfold round2.
  assert (R : py_round (x * 100) = py_round (y * 100))
    by (apply py_round_comp; now rewrite E).
  now rewrite R.
Qed.

(** Rounding to two decimals moves a value by at most 0.005. *)
Lemma round2_near (x : Q) :
  x - (1 # 200) <= round2 x /\ round2 x <= x + (1 # 200).
Proof.
  unfold round2. destruct (py_round_near (x * 100)) as [H1 H2].
  set (r := inject_Z (py_round (x * 100))) in *.
  split.
  - apply Qle_shift_div_l; [reflexivity | Lqa.lra].
  - apply Qle_shift_div_r; [reflexivity | Lqa.lra].
Qed.

Lemma fold_plus_shift (l : list Q) (a : Q) :
  fold_left Qplus l a == a + qsum l.
Proof.
  unfold qsum. revert a. induction l as [|x l IH]; intros a; simpl.
  - Lqa.lra.
  - rewrite IH, (IH (0 + x)). Lqa.lra.
Qed.

Lemma qsum_cons (x : Q) (l : list Q) : qsum (x :: l) == x + qsum l.
Proof. unfold qsum at 1. simpl. rewrite fold_plus_shift. Lqa.lra. Qed.

Lemma qsum_nonneg (l : list Q) : Forall (fun x => 0 <= x) l -> 0 <= qsum l.
Proof.
  induction 1 as [|x l Hx _ IH].
  - unfold qsum; simpl; Lqa.lra.
  - rewrite qsum_cons. Lqa.lra.
Qed.

End NumFacts.

(* ===================================================================== *)
(** * Facts about the boundary pattern *)
(* ===================================================================== *)

Module RegexFacts.
Import PyStr Regex.

Lemma append_nil_r (s : string) : s ++ "" = s.
Proof. induction s as [|c s IH]; simpl; [reflexivity | now rewrite IH]. Qed.

Lemma append_assoc (a b c : string) : (a ++ b) ++ c = a ++ b ++ c.
Proof. induction a as [|x a IH]; simpl; [reflexivity | now rewrite IH]. Qed.

Lemma drop_prefix_spec (p s rest : string) :
  drop_prefix p s = Some rest <-> s = p ++ rest.
Proof.
  revert s; induction p as [|a p IH]; intros s; simpl.
  - split; [now intros [= ->] | now intros ->].
  - destruct s as [|b s].
    + split; discriminate.
    + destruct (Ascii.eqb_spec a b) as [->|Hne].
      * rewrite IH. split; [now intros -> | now intros [= ->]].
      * split; [discriminate | intros [= E _]; now elim Hne].
Qed.

Lemma last_is_word_app (d : bool) (a b : string) :
  last_is_word d (a ++ b) = last_is_word (last_is_word d a) b.
Proof. revert d; induction a as [|c a IH]; intros d; simpl; auto. Qed.

Lemma match_here_spec (prev : bool) (p s : string) :
  match_here prev p s = true <->
  exists post,
    s = p ++ post
    /\ xorb prev (first_is_word (p ++ post)) = true
    /\ xorb (last_is_word prev p) (first_is_word post) = true.
Proof.
  unfold match_here. split.
  - destruct (drop_prefix p s) as [rest|] eqn:E; [|discriminate].
    apply drop_prefix_spec in E. subst s.
    intros H. apply andb_true_iff in H. exists rest. tauto.
  - intros (post & -> & H1 & H2).
    assert (E : drop_prefix p (p ++ post) = Some post)
      by now apply drop_prefix_spec.
    rewrite E, H1, H2. reflexivity.
Qed.

Lemma search_from_spec (p : string) :
  forall (s : string) (prev : bool),
    search_from prev p s = true <->
    exists pre post,
      s = pre ++ p ++ post
      /\ xorb (last_is_word prev pre) (first_is_word (p ++ post)) = true
      /\ xorb (last_is_word prev (pre ++ p)) (first_is_word post) = true.
Proof.
  induction s as [|c s IH]; intros prev; simpl search_from.
  - rewrite orb_false_r, match_here_spec. split.
    + intros (post & E & H1 & H2). exists "", post. simpl. auto.
    + intros (pre & post & E & H1 & H2).
      destruct pre as [|x pre]; [|discriminate].
      simpl in *. exists post. auto.
  - rewrite orb_true_iff, match_here_spec, IH. split.
    + intros [(post & E & H1 & H2) | (pre & post & E & H1 & H2)].
      * exists "", post. simpl. auto.
      * exists (String c pre), post. simpl. rewrite E. auto.
    + intros (pre & post & E & H1 & H2).
      destruct pre as [|x pre]; simpl in *.
      * left. exists post. auto.
      * injection E as -> E. right. exists pre, post. auto.
Qed.

Lemma search_bounded_spec (p text : string) :
  search_bounded p text = true <-> occurs_bounded p text.
Proof. unfold search_bounded, occurs_bounded, boundary. apply search_from_spec. Qed.

End RegexFacts.

(* ===================================================================== *)
(** * Facts about the scoring module *)
(* ===================================================================== *)

Module ScoringFacts.
Import PyStr Py Scoring.

Lemma phrase_present_iff (text phrase : string) :
  _phrase_present text phrase = true <->
  strip phrase <> "" /\ Regex.occurs_bounded (strip phrase) text.
Proof.
  unfold _phrase_present.
  destruct (String.eqb_spec (strip phrase) "") as [E|E].
  - split; [discriminate | intros [H _]; now elim H].
  - rewrite RegexFacts.search_bounded_spec. tauto.
Qed.

(** C2.  A phrase is present exactly when, blanks around it removed, it is
    not empty and occurs in the text with a word boundary at each end; so
    ["coverage"] is not found in ["discoverage"], and it is found in
    ["Coverage."] once the text is put in lower case. *)
Theorem phrase_present_boundary_safe :
  (forall text phrase,
      _phrase_present text phrase = true <->
      strip phrase <> "" /\ Regex.occurs_bounded (strip phrase) text)
  /\ _phrase_present (lower "discoverage") "coverage" = false
  /\ _phrase_present (lower "Improved discoverage of assets") "coverage" = false
  /\ _phrase_present (lower "Coverage.") "coverage" = true
  /\ _phrase_present (lower "We track test Coverage. Daily.") "coverage" = true.
Proof.
  split; [exact phrase_present_iff | repeat split; reflexivity].
Qed.

(** ** Adding a phrase to the text keeps what was present *)

Lemma first_is_word_app_blank (a s : string) :
  Regex.first_is_word (a ++ String " " s) = Regex.first_is_word a.
Proof. destruct a; reflexivity. Qed.

Lemma occurs_bounded_append (p t s : string) :
  Regex.occurs_bounded p t -> Regex.occurs_bounded p (t ++ " " ++ s).
Proof.
  intros (pre & post & -> & H1 & H2).
  exists pre, (post ++ String " " s).
  unfold Regex.boundary in *. simpl.
  rewrite !RegexFacts.append_assoc.
  repeat split.
  - rewrite <- (RegexFacts.append_assoc p post), first_is_word_app_blank.
    exact H1.
  - rewrite first_is_word_app_blank. exact H2.
Qed.

Lemma occurs_bounded_prepend (p t s : string) :
  Regex.occurs_bounded p t -> Regex.occurs_bounded p (s ++ " " ++ t).
Proof.
  intros (pre & post & -> & H1 & H2).
  exists (s ++ String " " pre), post.
  unfold Regex.boundary in *. simpl.
  rewrite !RegexFacts.append_assoc. simpl.
  rewrite !RegexFacts.last_is_word_app in *. simpl.
  rewrite !RegexFacts.last_is_word_app in *. auto.
Qed.

Lemma adds_phrase_keeps (text addition text' : string) :
  Props.adds_phrase text addition text' -> Props.keeps_phrases text text'.
Proof.
  intros Hadd phrase H.
  destruct phrase_present_iff with (text := text) (phrase := phrase)
    as [Hd _].
  destruct (Hd H) as [Hne Hocc].
  apply phrase_present_iff. split; [exact Hne|].
  destruct Hadd as [-> | ->].
  - now apply occurs_bounded_append.
  - now apply occurs_bounded_prepend.
Qed.

(** ** Dictionaries *)

Lemma dict_get_in {V : Type} (d : dict V) (k : string) (v : V) :
  dict_get d k = Some v -> In (k, v) d.
Proof.
  induction d as [|[k' v'] d IH]; simpl; [discriminate|].
  destruct (String.eqb_spec k' k) as [->|_]; [intros [= ->]; auto | auto].
Qed.

Lemma dict_get_set {V : Type} (d : dict V) (k : string) (v : V) (k' : string) :
  dict_get (dict_set d k v) k' = if String.eqb k k' then Some v else dict_get d k'.
Proof.
  induction d as [|[a b] d IH]; simpl; [reflexivity|].
  destruct (String.eqb_spec a k) as [->|Hak]; simpl.
  - destruct (String.eqb_spec k k'); reflexivity.
  - destruct (String.eqb_spec a k') as [->|_]; [|exact IH].
    destruct (String.eqb_spec k k') as [->|_]; [now elim Hak | reflexivity].
Qed.

Lemma fromkeys_values {V : Type} (keys : list string) (v : V) :
  forall d,
    (forall k w, dict_get d k = Some w -> w = v) ->
    forall k w,
      dict_get (fold_left (fun d k => dict_set d k v) keys d) k = Some w ->
      w = v.
Proof.
  induction keys as [|a keys IH]; simpl; intros d Hd k w H.
  - eapply Hd; eauto.
  - eapply IH; [|exact H]. intros k0 w0. rewrite dict_get_set.
    destruct (String.eqb a k0); [now intros [= <-] | apply Hd].
Qed.

(** ** Monotonicity of matching, coverage and score *)

Section Monotone.
Local Open Scope Q_scope.

Lemma nonzero_true (q : Q) : nonzero q = true -> ~ q == 0.
Proof.
  unfold nonzero. intros H E. apply Qeq_bool_iff in E. rewrite E in H.
  discriminate.
Qed.

Lemma nonempty_snoc {A : Type} (l : list A) (x : A) :
  nonempty (l ++ [x])%list = true.
Proof. destruct l; reflexivity. Qed.

Lemma effective_weight_nonneg (conf : ScoringConf) (sig : string) :
  (forall k w, In (k, w) (sc_signal_weights conf) -> 0 <= w) ->
  0 <= get_default (effective_weights conf) sig 1.
Proof.
  intros Hnn. unfold get_default.
  destruct (dict_get (effective_weights conf) sig) as [w|] eqn:E;
    [|Lqa.lra].
  unfold effective_weights in E.
  destruct (sc_signal_weights conf) as [|kv rest] eqn:W.
  - unfold fromkeys in E. apply fromkeys_values in E.
    + subst w. Lqa.lra.
    + intros k w0; discriminate.
  - apply dict_get_in in E. now apply Hnn in E.
Qed.

Lemma total_weight_positive (conf : ScoringConf) :
  (forall k w, In (k, w) (sc_signal_weights conf) -> 0 <= w) ->
  nonzero (signals_total_weight conf) = true ->
  0 < signals_total_weight conf.
Proof.
  intros Hnn Hnz. apply nonzero_true in Hnz.
  unfold signals_total_weight in *.
  set (s := qsum _) in *.
  assert (Hs : 0 <= s).
  { apply NumFacts.qsum_nonneg. apply Forall_forall. intros x Hx.
    apply in_map_iff in Hx. destruct Hx as (sig & <- & _).
    now apply effective_weight_nonneg. }
  destruct (nonzero s).
  - apply Qle_lteq in Hs. destruct Hs as [Hs|Hs]; [exact Hs|].
    exfalso. apply Hnz. now symmetry.
  - exfalso. apply Hnz. reflexivity.
Qed.

Lemma signal_present_mono (t1 t2 : string) (aliases : dict (list string))
  (sig : string) :
  Props.keeps_phrases t1 t2 ->
  signal_present t1 aliases sig = true ->
  signal_present t2 aliases sig = true.
Proof.
  unfold signal_present. intros Hk H.
  apply existsb_exists in H. destruct H as (term & Hin & Hp).
  apply existsb_exists. exists term. split; [exact Hin | now apply Hk].
Qed.

Lemma match_fold_mono (t1 t2 : string) (weights : dict Q)
  (aliases : dict (list string)) (signals : list string) :
  Props.keeps_phrases t1 t2 ->
  (forall sig, 0 <= get_default weights sig 1) ->
  forall st1 st2 : list string * Q,
    0 <= snd st1 -> snd st1 <= snd st2 ->
    (nonempty (fst st1) = true -> nonempty (fst st2) = true) ->
    let r1 := fold_left (match_step t1 weights aliases) signals st1 in
    let r2 := fold_left (match_step t2 weights aliases) signals st2 in
    0 <= snd r1 /\ snd r1 <= snd r2
    /\ (nonempty (fst r1) = true -> nonempty (fst r2) = true).
Proof.
  intros Hk Hw. induction signals as [|sig signals IH]; simpl;
    intros st1 st2 H0 Hle Hne; [auto|].
  pose proof (Hw sig) as Hsig.
  apply IH; unfold match_step;
    destruct (signal_present t1 aliases sig) eqn:P1;
    try (rewrite (signal_present_mono _ _ _ _ Hk P1));
    try destruct (signal_present t2 aliases sig) eqn:P2;
    simpl; try Lqa.lra; auto using nonempty_snoc.
Qed.

Lemma score_from_coverage_mono (mode : string) (c1 c2 : Q) (a1 a2 : bool) :
  0 <= c1 -> c1 <= c2 -> (a1 = true -> a2 = true) ->
  (_score_from_coverage mode c1 a1 (Qle_bool (999 # 1000) c1)
   <= _score_from_coverage mode c2 a2 (Qle_bool (999 # 1000) c2))%Z.
Proof.
  intros H0 Hle Ha. unfold _score_from_coverage.
  assert (Hp : (0 <= py_round (c2 * 5))%Z)
    by (apply NumFacts.py_round_nonneg; Lqa.lra).
  assert (Hm : (py_round (c1 * 5) <= py_round (c2 * 5))%Z)
    by (apply NumFacts.py_round_mono; Lqa.lra).
  destruct a1, a2; simpl; try (specialize (Ha eq_refl); discriminate);
    destruct (String.eqb mode "proportional"); try lia;
    destruct (String.eqb mode "tiered");
    try (destruct (String.eqb mode "binary"); try lia);
    unfold tiered_scan, thresholds, Qlt_bool; simpl;
    repeat match goal with
      | |- context [Qle_bool ?a ?b] =>
          let E := fresh "E" in
          destruct (Qle_bool a b) eqn:E;
          [apply Qle_bool_iff in E
          | assert (~ a <= b)
              by (let HH := fresh in
                  intro HH; apply Qle_bool_iff in HH; congruence);
            clear E];
          simpl
      end;
    try lia; exfalso; Lqa.lra.
Qed.

Lemma filter_length_mono {A : Type} (f g : A -> bool) (l : list A) :
  (forall x, f x = true -> g x = true) ->
  (length (filter f l) <= length (filter g l))%nat.
Proof.
  intros Hfg. induction l as [|x l IH]; simpl; [lia|].
  destruct (f x) eqn:F; [rewrite (Hfg _ F); simpl; lia|].
  destruct (g x); simpl; lia.
Qed.

Lemma len_q_nonneg {A : Type} (l : list A) : 0 <= len_q l.
Proof.
  unfold len_q. change 0 with (inject_Z 0). rewrite <- Zle_Qle. lia.
Qed.

Lemma len_q_positive {A : Type} (l : list A) :
  nonempty l = true -> 0 < len_q l.
Proof.
  destruct l; [discriminate|]. intros _. unfold len_q.
  change 0 with (inject_Z 0). rewrite <- Zlt_Qlt. simpl length. lia.
Qed.

Lemma div_mono (a b d : Q) : 0 < d -> a <= b -> a / d <= b / d.
Proof.
  intros Hd Hab. unfold Qdiv. apply Qmult_le_compat_r; [exact Hab|].
  apply Qinv_le_0_compat. Lqa.lra.
Qed.

Lemma div_nonneg (a d : Q) : 0 < d -> 0 <= a -> 0 <= a / d.
Proof.
  intros Hd Ha. unfold Qdiv. apply Qmult_le_0_compat; [exact Ha|].
  apply Qinv_le_0_compat. Lqa.lra.
Qed.

(** Texts that keep the phrases of one another in one direction give
    ordered coverages and scores. *)
Lemma score_practice_mono (practice : Practice) (t1 t2 : string)
  (override : option Q) :
  Props.signal_weights_nonneg practice ->
  Props.keeps_phrases t1 t2 ->
  exists ps ps',
    _score_practice practice t1 override = Ok ps
    /\ _score_practice practice t2 override = Ok ps'
    /\ coverage ps <= coverage ps' /\ (score ps <= score ps')%Z.
Proof.
  intros Hnn Hk. unfold Props.signal_weights_nonneg in Hnn.
  unfold _score_practice, score_practice_with.
  destruct (p_scoring practice) as [conf|].
  - unfold _match_scoring_signals. cbn [mi_coverage mi_matched].
    do 2 eexists. split; [reflexivity|]. split; [reflexivity|].
    cbn [coverage score].
    pose proof (match_fold_mono t1 t2 (effective_weights conf)
                  (sc_signal_aliases conf) (sc_signals conf) Hk
                  (fun sig => effective_weight_nonneg conf sig Hnn)
                  ([], 0) ([], 0)) as HM.
    cbn [fst snd] in HM.
    specialize (HM ltac:(Lqa.lra) ltac:(Lqa.lra) (fun H => H)).
    destruct HM as (H0 & Hle & Hne).
    fold (match_loop t1 conf) in *. fold (match_loop t2 conf) in *.
    assert (Hc : 0 <= (if nonzero (signals_total_weight conf)
                       then snd (match_loop t1 conf) / signals_total_weight conf
                       else 0)
                 /\ (if nonzero (signals_total_weight conf)
                     then snd (match_loop t1 conf) / signals_total_weight conf
                     else 0)
                    <= (if nonzero (signals_total_weight conf)
                        then snd (match_loop t2 conf) / signals_total_weight conf
                        else 0)).
    { destruct (nonzero (signals_total_weight conf)) eqn:Z;
        [|split; Lqa.lra].
      pose proof (total_weight_positive conf Hnn Z) as Hpos.
      split; [now apply div_nonneg | now apply div_mono]. }
    destruct Hc as [Hc0 Hc1].
    split; [exact Hc1|].
    now apply score_from_coverage_mono.
  - do 2 eexists. split; [reflexivity|]. split; [reflexivity|].
    cbn [coverage score].
    set (m1 := filter (fun s => _phrase_present t1 (lower s)) (p_signals practice)).
    set (m2 := filter (fun s => _phrase_present t2 (lower s)) (p_signals practice)).
    assert (Hm : len_q m1 <= len_q m2).
    { unfold len_q. rewrite <- Zle_Qle. apply inj_le.
      apply filter_length_mono. intros x. apply Hk. }
    destruct (nonempty (p_signals practice)) eqn:N; [|split; [Lqa.lra|lia]].
    pose proof (len_q_positive _ N) as Hpos.
    assert (Hd : len_q m1 / len_q (p_signals practice)
                 <= len_q m2 / len_q (p_signals practice))
      by now apply div_mono.
    split; [exact Hd|].
    apply NumFacts.py_round_mono. Lqa.lra.
Qed.

End Monotone.

(** C4 (amended).  With signal weights that are not negative, adding a
    phrase to the text (after or before it, separated by a blank) never
    decreases the coverage or the score of a practice, whatever its
    scoring mode. *)
Theorem signal_match_monotone :
  forall (practice : Practice) (text addition text' : string)
         (override : option Q),
    Props.signal_weights_nonneg practice ->
    Props.adds_phrase text addition text' ->
    exists ps ps',
      _score_practice practice text override = Ok ps
      /\ _score_practice practice text' override = Ok ps'
      /\ (coverage ps <= coverage ps')%Q /\ (score ps <= score ps')%Z.
Proof.
  intros practice text addition text' override Hnn Hadd.
  apply score_practice_mono; [exact Hnn|].
  now apply adds_phrase_keeps with (addition := addition).
Qed.

(** ** The weighted aggregation *)

Section Aggregation.
Local Open Scope Q_scope.

Variables Gap GapResult : Type.
Variable eval_gaps : string -> list Gap -> list GapResult.
Variable scorer : Practice -> string -> option Q -> result PracticeScore.

Lemma practice_loop_spec (wm : dict Q) (text : string) :
  forall (practices : list Practice) (a r : Acc),
    practice_loop scorer wm text practices a = Ok r ->
    exists scores,
      Props.scored_by scorer wm text practices scores
      /\ acc_scores r = (acc_scores a ++ scores)%list
      /\ acc_recs r = (acc_recs a ++ Props.collected practices scores)%list
      /\ acc_total_weight r
         = fold_left Qplus (map weight scores) (acc_total_weight a)
      /\ acc_weighted_scores r
         = fold_left Qplus
             (map (fun ps => inject_Z (score ps) * weight ps) scores)
             (acc_weighted_scores a).
Proof.
  induction practices as [|practice rest IH]; simpl; intros a r H.
  - injection H as <-. exists []. unfold Props.scored_by, Props.collected.
    simpl. rewrite !app_nil_r. repeat split; constructor.
  - unfold practice_step in H.
    destruct (scorer practice text (override_for wm (p_code practice)))
      as [ps|e] eqn:E; simpl in H; [|discriminate].
    apply IH in H. destruct H as (scores & HS & H1 & H2 & H3 & H4).
    simpl in *. exists (ps :: scores).
    unfold Props.scored_by, Props.collected in *. simpl.
    rewrite H1, H2, H3, H4, <- !app_assoc. simpl.
    repeat split. constructor; assumption.
Qed.

Lemma round2_zero : round2 0 == 0.
Proof. reflexivity. Qed.

Lemma compute_with_spec (data : PillarData Gap) (text name : string)
  (r : PillarScores GapResult) :
  compute_with eval_gaps scorer data text name = Ok r ->
  Props.scored_by scorer (d_weights data) (lower text)
    (d_practices data) (practice_scores r)
  /\ Props.percent_formula (practice_scores r) (overall_maturity_percent r)
  /\ recommendations r
     = Props.collected (d_practices data) (practice_scores r).
Proof.
  unfold compute_with. intros H.
  destruct (practice_loop scorer (d_weights data) (lower text)
              (d_practices data) acc0) as [a|e] eqn:L; simpl in H;
    [|discriminate].
  injection H as <-. cbn [practice_scores overall_maturity_percent recommendations].
  apply practice_loop_spec in L.
  destruct L as (scores & HS & H1 & H2 & H3 & H4). simpl in *.
  rewrite H1, H2. repeat split; try assumption.
  - intros Hnz.
    unfold Props.sum_weights, Props.sum_weighted_scores, qsum in *.
    rewrite H3, H4.
    destruct (nonzero (fold_left Qplus (map weight scores) 0)) eqn:Z.
    + apply NumFacts.round2_comp. unfold Qdiv. ring.
    + exfalso. apply Hnz. unfold nonzero in Z.
      apply negb_false_iff in Z. now apply Qeq_bool_iff in Z.
  - intros Hz.
    unfold Props.sum_weights, qsum in *. rewrite H3.
    destruct (nonzero (fold_left Qplus (map weight scores) 0)) eqn:Z.
    + apply nonzero_true in Z. now elim Z.
    + apply round2_zero.
Qed.

End Aggregation.

Lemma score_practice_total (practice : Practice) (text : string)
  (override : option Q) :
  exists ps, _score_practice practice text override = Ok ps.
Proof.
  unfold _score_practice, score_practice_with.
  destruct (p_scoring practice); eexists; reflexivity.
Qed.

Lemma practice_loop_total (wm : dict Q) (text : string) :
  forall (practices : list Practice) (a : Acc),
    exists r, practice_loop _score_practice wm text practices a = Ok r.
Proof.
  induction practices as [|practice rest IH]; simpl; intros a.
  - now exists a.
  - unfold practice_step.
    destruct (score_practice_total practice text
                (override_for wm (p_code practice))) as [ps E].
    rewrite E. simpl. apply IH.
Qed.

Lemma compute_total {Gap GapResult : Type}
  (eval_gaps : string -> list Gap -> list GapResult)
  (data : PillarData Gap) (text name : string) :
  exists r, compute_pillar_scores eval_gaps data text name = Ok r.
Proof.
  unfold compute_pillar_scores, compute_with.
  destruct (practice_loop_total (d_weights data) (lower text)
              (d_practices data) acc0) as [a E].
  rewrite E. simpl. eexists. reflexivity.
Qed.

Lemma fifty_percent (a b : PracticeScore) (percent : Q) :
  Props.percent_formula [a; b] percent ->
  (weight a == 1)%Q -> (weight b == 1)%Q ->
  score a = 5%Z -> score b = 0%Z ->
  (percent == 50)%Q.
Proof.
  intros [Hf _] Ha Hb Sa Sb.
  unfold Props.sum_weights, Props.sum_weighted_scores, qsum in Hf.
  simpl in Hf. rewrite Sa, Sb in Hf.
  assert (W : (0 + weight a + weight b == 2)%Q) by (rewrite Ha, Hb; reflexivity).
  assert (S : (0 + inject_Z 5 * weight a + inject_Z 0 * weight b == 5)%Q)
    by (rewrite Ha, Hb; reflexivity).
  rewrite Hf.
  - rewrite <- (NumFacts.round2_comp 50); [reflexivity|].
    rewrite W, S. reflexivity.
  - rewrite W. discriminate.
Qed.

Lemma percent_formula_near (scores : list PracticeScore) (percent : Q) :
  Props.percent_formula scores percent -> Props.percent_near scores percent.
Proof.
  intros [HF HZ]. split; [|exact HZ]. intros NZ. rewrite (HF NZ).
  destruct (NumFacts.round2_near
              (100 * Props.sum_weighted_scores scores
               / (5 * Props.sum_weights scores))) as [H1 H2].
  apply Qabs_Qle_condition. split; Lqa.lra.
Qed.

(** C1 (amended).  For a definition whose weights are not negative,
    [compute_pillar_scores] returns; the practice scores of the result are
    those of the practices on the lower-cased text, and the maturity
    percentage is 100 x sum(score x weight) / (5 x sum(weight)) up to the
    rounding to two decimals: it is within 0.01 of the quotient, and it is
    0 when the total weight is zero.  Two practices of weight 1 scoring 5
    and 0 give 50.  The copy under [src/] satisfies the same whenever it
    returns. *)
Theorem overall_percent_near_formula :
  forall (Gap GapResult : Type)
         (eval_gaps : string -> list Gap -> list GapResult)
         (data : PillarData Gap) (text name : string),
    ScoringProps.weights_nonneg data ->
    (exists r,
        compute_pillar_scores eval_gaps data text name = Ok r
        /\ Props.scored_by _score_practice (d_weights data) (lower text)
             (d_practices data) (practice_scores r)
        /\ Props.percent_near (practice_scores r)
             (overall_maturity_percent r)
        /\ (forall a b,
               practice_scores r = [a; b] ->
               (weight a == 1)%Q -> (weight b == 1)%Q ->
               score a = 5%Z -> score b = 0%Z ->
               (overall_maturity_percent r == 50)%Q))
    /\ (forall r,
           compute_pillar_scores_src eval_gaps data text name = Ok r ->
           Props.percent_near (practice_scores r)
             (overall_maturity_percent r)).
Proof.
  intros Gap GapResult eval_gaps data text name _. split.
  - destruct (compute_total eval_gaps data text name) as [r E].
    exists r. split; [exact E|].
    destruct (compute_with_spec _ _ _ _ _ _ _ _ E) as (HS & HF & _).
    split; [exact HS|]. split; [now apply percent_formula_near|].
    intros a b Hab. rewrite Hab in HF. now apply fifty_percent.
  - intros r E.
    destruct (compute_with_spec _ _ _ _ _ _ _ _ E) as (_ & HF & _).
    now apply percent_formula_near.
Qed.

Lemma overall_percent_near_formula_witness :
  ScoringProps.weights_nonneg Examples.three_practices
  /\ exists r,
      compute_pillar_scores Examples.no_gaps Examples.three_practices
        "alpha" "reliability" = Ok r
      /\ Props.percent_near (practice_scores r) (overall_maturity_percent r).
Proof.
  assert (H : ScoringProps.weights_nonneg Examples.three_practices).
  { split; [|intros k w []].
    intros practice [<-|[<-|[<-|[]]]]; split; simpl;
      (discriminate || exact I). }
  split; [exact H|].
  destruct (overall_percent_near_formula unit unit Examples.no_gaps
              Examples.three_practices "alpha" "reliability" H)
    as [(r & E & _ & HN & _) _].
  exists r. split; [exact E | exact HN].
Defined.


(** C1 (as stated).  With three practices of weight 1 scoring 5, 0 and 0
    the result is 33.33, not 100 x 5 / 15. *)
Lemma overall_percent_not_exact :
  exists r,
    compute_pillar_scores Examples.no_gaps Examples.three_practices
      "alpha" "reliability" = Ok r
    /\ map score (practice_scores r) = [5; 0; 0]%Z
    /\ (overall_maturity_percent r == 3333 # 100)%Q
    /\ ~ (overall_maturity_percent r
          == 100 * Props.sum_weighted_scores (practice_scores r)
             / (5 * Props.sum_weights (practice_scores r)))%Q.
Proof.
  eexists. split; [vm_compute; reflexivity|].
  split; [reflexivity|]. split; [reflexivity|].
  intros H. vm_compute in H. discriminate.
Qed.

Example scenario_one_practice :
  exists r,
    compute_pillar_scores Examples.no_gaps Examples.one_practice
      Examples.scenario_text "reliability" = Ok r
    /\ map score (practice_scores r) = [5%Z]
    /\ Forall (fun ps => coverage ps == 1)%Q (practice_scores r)
    /\ (overall_maturity_percent r == 100)%Q.
Proof.
  eexists. split; [vm_compute; reflexivity|].
  split; [reflexivity|]. split; [|reflexivity].
  repeat constructor.
Qed.

Example scenario_two_practices :
  exists r,
    compute_pillar_scores Examples.no_gaps Examples.two_practices
      Examples.scenario_text "reliability" = Ok r
    /\ map score (practice_scores r) = [5; 0]%Z
    /\ (overall_maturity_percent r == 50)%Q.
Proof.
  eexists. split; [vm_compute; reflexivity|]. split; reflexivity.
Qed.

Lemma signal_match_monotone_witness :
  Props.signal_weights_nonneg
    (Examples.block_practice "A" 1 Examples.weighted_block)
  /\ exists ps ps',
      _score_practice (Examples.block_practice "A" 1 Examples.weighted_block)
        "we define an slo" None = Ok ps
      /\ _score_practice (Examples.block_practice "A" 1 Examples.weighted_block)
           "we define an slo backup" None = Ok ps'
      /\ (coverage ps <= coverage ps')%Q /\ (score ps <= score ps')%Z.
Proof.
  assert (H : Props.signal_weights_nonneg
                (Examples.block_practice "A" 1 Examples.weighted_block)).
  { simpl. intros k w [E|[E|[]]]; injection E as _ <-; discriminate. }
  split; [exact H|].
  apply (signal_match_monotone
           (Examples.block_practice "A" 1 Examples.weighted_block)
           "we define an slo" "backup" "we define an slo backup" None H).
  left. reflexivity.
Defined.

(** C4 (as stated).  With a negative signal weight the property fails:
    the signal ["backup"] is not matched in the first text, and adding it
    lowers the coverage from 3/4 to 1/2 and the score from 4 to 2. *)
Lemma negative_weight_breaks_monotonicity :
  exists ps ps',
    _score_practice (Examples.block_practice "A" 1 Examples.penalty_block)
      "we define an slo" None = Ok ps
    /\ _score_practice (Examples.block_practice "A" 1 Examples.penalty_block)
         "we define an slo backup" None = Ok ps'
    /\ _phrase_present "we define an slo" "backup" = false
    /\ matched_signals ps = ["slo"]
    /\ matched_signals ps' = ["slo"; "backup"]
    /\ (coverage ps == 3 # 4)%Q /\ (coverage ps' == 1 # 2)%Q
    /\ score ps = 4%Z /\ score ps' = 2%Z
    /\ ~ (coverage ps <= coverage ps')%Q
    /\ ~ (score ps <= score ps')%Z.
Proof.
  do 2 eexists. split; [vm_compute; reflexivity|].
  split; [vm_compute; reflexivity|].
  repeat split; try reflexivity; vm_compute; intros H; now apply H.
Qed.

(** ** A practice without signals *)

(** C3.  A practice whose scoring block declares no signal, scored by the
    copy of the module under [src/]: [_match_scoring_signals] returns
    early without the key ["coverage"] and [_score_practice] raises
    [KeyError].  The copy under [backend/] returns score 0 and
    coverage 0. *)
Theorem zero_signal_block_raises_in_src :
  forall (c : option string) (t : string) (w : Q)
         (m : option string) (weights : dict Q)
         (aliases : dict (list string)) (recs : list Recommendation)
         (text : string) (override : option Q),
    let practice :=
      {| p_code := c; p_title := t; p_weight := w;
         p_scoring := Some {| sc_mode := m; sc_signals := [];
                              sc_signal_weights := weights;
                              sc_signal_aliases := aliases |};
         p_signals := []; p_recommendations := recs |} in
    _score_practice_src practice text override = Raise (KeyError "coverage")
    /\ exists ps,
        _score_practice practice text override = Ok ps
        /\ score ps = 0%Z /\ (coverage ps == 0)%Q.
Proof.
  intros. split; [reflexivity|].
  eexists. split; [reflexivity|]. split; reflexivity.
Qed.

(** The legacy list without signals is scored 0 by both copies. *)
Lemma zero_signal_legacy (practice : Practice) (text : string)
  (override : option Q) :
  p_scoring practice = None -> p_signals practice = [] ->
  exists ps,
    _score_practice practice text override = Ok ps
    /\ _score_practice_src practice text override = Ok ps
    /\ score ps = 0%Z /\ (coverage ps == 0)%Q.
Proof.
  intros H1 H2. unfold _score_practice, _score_practice_src, score_practice_with.
  rewrite H1, H2. simpl. eexists. repeat split; reflexivity.
Qed.

(** ** Recommendations *)

Lemma severity_of_first_truthy (rec : Recommendation) :
  severity_of rec = Props.severity_first_truthy rec.
Proof.
  unfold severity_of, severity_raw, Props.severity_first_truthy,
    Props.first_truthy, Props.int_or_5, py_or. simpl.
  destruct (truthy (rec_get rec "severity")); [reflexivity|].
  destruct (truthy (rec_get rec "execution_priority")); [reflexivity|].
  destruct (truthy (rec_get rec "priority")); reflexivity.
Qed.

Lemma collect_fold (ps : PracticeScore) (recs acc : list Recommendation) :
  fold_left (collect_step ps) recs acc
  = (acc ++ map (fun rec => normalized rec (severity_of rec) ps)
              (filter (surfaced ps) recs))%list.
Proof.
  revert acc. induction recs as [|rec recs IH]; intros acc; simpl.
  - now rewrite app_nil_r.
  - rewrite IH. unfold collect_step.
    destruct (surfaced ps rec); simpl; [now rewrite <- app_assoc | reflexivity].
Qed.

Lemma collect_in (practice : Practice) (ps : PracticeScore)
  (out : Recommendation) :
  In out (_collect_recommendations practice ps) <->
  exists rec,
    In rec (p_recommendations practice)
    /\ (score ps <= 2)%Z /\ (Props.severity_first_truthy rec <= 2)%Z
    /\ Props.entry_of ps rec out.
Proof.
  unfold _collect_recommendations, Props.entry_of. rewrite collect_fold. simpl.
  rewrite in_map_iff. split.
  - intros (rec & <- & Hin). apply filter_In in Hin. destruct Hin as [Hin Hs].
    unfold surfaced in Hs. apply andb_true_iff in Hs. destruct Hs as [H1 H2].
    rewrite severity_of_first_truthy in *.
    exists rec. repeat split; auto; now apply Z.leb_le.
  - intros (rec & Hin & H1 & H2 & ->). exists rec.
    rewrite severity_of_first_truthy. split; [reflexivity|].
    apply filter_In. split; [exact Hin|].
    unfold surfaced. rewrite severity_of_first_truthy.
    apply andb_true_iff. split; now apply Z.leb_le.
Qed.

(** C5 (amended).  For a definition whose numbers are finite, an entry is
    in the recommendations of the category result exactly when it stands
    for a recommendation of a practice whose score is at most 2 and whose
    severity is at most 2, the severity being the first value true in the
    sense of Python among [severity], [execution_priority], [priority],
    5 when there is none, and 5 when [int] raises [TypeError] or
    [ValueError] on it. *)
Theorem recommendation_surfacing :
  forall (Gap GapResult : Type)
         (eval_gaps : string -> list Gap -> list GapResult)
         (data : PillarData Gap) (text name : string),
  exists r,
    compute_pillar_scores eval_gaps data text name = Ok r
    /\ Props.scored_by _score_practice (d_weights data) (lower text)
         (d_practices data) (practice_scores r)
    /\ forall out,
        In out (recommendations r) <->
        exists practice ps rec,
          In (practice, ps) (combine (d_practices data) (practice_scores r))
          /\ In rec (p_recommendations practice)
          /\ (score ps <= 2)%Z
          /\ (Props.severity_first_truthy rec <= 2)%Z
          /\ Props.entry_of ps rec out.
Proof.
  intros Gap GapResult eval_gaps data text name.
  destruct (compute_total eval_gaps data text name) as [r E].
  exists r. split; [exact E|].
  destruct (compute_with_spec _ _ _ _ _ _ _ _ E) as (HS & _ & HR).
  split; [exact HS|].
  intros out. rewrite HR. unfold Props.collected. rewrite in_flat_map. split.
  - intros ([practice ps] & Hin & Hout). simpl in Hout.
    apply collect_in in Hout. destruct Hout as (rec & H1 & H2 & H3 & H4).
    exists practice, ps, rec. auto.
  - intros (practice & ps & rec & Hin & H1 & H2 & H3 & H4).
    exists (practice, ps). split; [exact Hin|]. simpl.
    apply collect_in. exists rec. auto.
Qed.

(** C5 (as stated).  A recommendation whose first key present,
    [severity], holds the integer 0 belongs to a practice scored 0, and
    the category result has no recommendation. *)
Lemma first_key_severity_not_surfaced :
  exists r,
    compute_pillar_scores Examples.no_gaps
      (Examples.pillar_of [Examples.practice_with Examples.rec_int_zero])
      "" "reliability" = Ok r
    /\ map score (practice_scores r) = [0%Z]
    /\ (Props.severity_first_key Examples.rec_int_zero <= 2)%Z
    /\ recommendations r = [].
Proof.
  eexists. split; [vm_compute; reflexivity|].
  repeat split. vm_compute. discriminate.
Qed.

Lemma rec_get_of_dict_get (rec : Recommendation) (k : string) (v : value) :
  dict_get rec k = Some v -> rec_get rec k = v.
Proof. unfold rec_get, get_default. now intros ->. Qed.

Lemma rec_get_absent (rec : Recommendation) (k : string) :
  dict_get rec k = None -> rec_get rec k = VNone.
Proof. unfold rec_get, get_default. now intros ->. Qed.

(** C10.  A severity that is the integer 0, without [execution_priority]
    and [priority], is normalized to 5 and the recommendation is not
    surfaced whatever the score; a severity that is the string "0" is
    normalized to 0 and the recommendation is surfaced when the score is at
    most 2. *)
Theorem severity_zero_normalization :
  forall (practice : Practice) (ps : PracticeScore) (rec : Recommendation),
    p_recommendations practice = [rec] ->
    (dict_get rec "severity" = Some (VInt 0) ->
     dict_get rec "execution_priority" = None ->
     dict_get rec "priority" = None ->
     severity_of rec = 5%Z
     /\ _collect_recommendations practice ps = [])
    /\ (dict_get rec "severity" = Some (VStr "0") ->
        severity_of rec = 0%Z
        /\ ((score ps <= 2)%Z ->
            _collect_recommendations practice ps = [normalized rec 0 ps]
            /\ dict_get (normalized rec 0 ps) "severity" = Some (VInt 0))).
Proof.
  intros practice ps rec Hrecs.
  unfold _collect_recommendations. rewrite Hrecs. simpl.
  unfold collect_step, surfaced. split.
  - intros H1 H2 H3.
    assert (S : severity_of rec = 5%Z).
    { unfold severity_of, severity_raw.
      rewrite (rec_get_of_dict_get _ _ _ H1), (rec_get_absent _ _ H2),
        (rec_get_absent _ _ H3). reflexivity. }
    rewrite S. split; [reflexivity|].
    now rewrite andb_false_r.
  - intros H1.
    assert (S : severity_of rec = 0%Z).
    { unfold severity_of, severity_raw.
      rewrite (rec_get_of_dict_get _ _ _ H1). reflexivity. }
    rewrite S. split; [reflexivity|]. intros Hs.
    apply Z.leb_le in Hs. rewrite Hs. simpl. split; [reflexivity|].
    unfold normalized. rewrite !dict_get_set. reflexivity.
Qed.

Lemma severity_zero_normalization_witness :
  (severity_of Examples.rec_int_zero = 5%Z
   /\ _collect_recommendations
        (Examples.practice_with Examples.rec_int_zero) Examples.low_score = [])
  /\ (severity_of Examples.rec_str_zero = 0%Z
      /\ _collect_recommendations
           (Examples.practice_with Examples.rec_str_zero) Examples.low_score
         = [normalized Examples.rec_str_zero 0 Examples.low_score]).
Proof.
  split.
  - apply (severity_zero_normalization
             (Examples.practice_with Examples.rec_int_zero)
             Examples.low_score Examples.rec_int_zero eq_refl);
      reflexivity.
  - destruct (severity_zero_normalization
                (Examples.practice_with Examples.rec_str_zero)
                Examples.low_score Examples.rec_str_zero eq_refl)
      as [_ H].
    destruct (H eq_refl) as [H1 H2]. split; [exact H1|].
    apply H2. simpl. lia.
Defined.

End ScoringFacts.

(* ===================================================================== *)
(** * Facts about the orchestrator *)
(* ===================================================================== *)

Module OrchestratorFacts.
Import PyStr Py Orchestrator.

(** ** Section truncation *)

Lemma take_length (k : nat) (s : string) :
  (String.length (take k s) <= k)%nat.
Proof.
  revert s. induction k as [|k IH]; intros s; simpl; [lia|].
  destruct s; simpl; [lia|]. specialize (IH s). lia.
Qed.

Lemma take_length_le (k : nat) (s : string) :
  (String.length (take k s) <= String.length s)%nat.
Proof.
  revert s. induction k as [|k IH]; intros s; simpl; [lia|].
  destruct s; simpl; [lia|]. specialize (IH s). lia.
Qed.

Lemma slice_to_length (s : string) (k : Z) :
  (0 <= k)%Z -> (Z.of_nat (String.length (slice_to s k)) <= k)%Z.
Proof.
  intros Hk. unfold slice_to.
  destruct (0 <=? k)%Z eqn:E; [|apply Z.leb_gt in E; lia].
  pose proof (take_length (Z.to_nat k) s). lia.
Qed.

Lemma rfind_from_lower (c : ascii) (s : string) :
  forall i best, (-1 <= best)%Z -> (0 <= i)%Z ->
                 (-1 <= rfind_from i best c s)%Z.
Proof.
  induction s as [|d s IH]; intros i best Hb Hi; simpl; [exact Hb|].
  apply IH; [destruct (Ascii.eqb d c); lia | lia].
Qed.

(** The result is the section itself, or a cut of at most [4 * max_tokens]
    characters followed by the marker. *)
Lemma truncate_shape (section_text : string) (max_tokens : Z) :
  (0 <= max_tokens)%Z ->
  _safe_truncate_corpus_section section_text max_tokens = section_text
  \/ exists cut,
      _safe_truncate_corpus_section section_text max_tokens
      = cut ++ truncation_marker
      /\ (Z.of_nat (String.length cut) <= 4 * max_tokens)%Z.
Proof.
  intros Hm. unfold _safe_truncate_corpus_section.
  destruct (String.eqb section_text ""); [now left|].
  destruct (_estimate_tokens section_text <=? max_tokens)%Z; [now left|].
  destruct (max_tokens * 4 <? Z.of_nat (String.length section_text))%Z;
    [|now left].
  right. eexists. split; [reflexivity|].
  set (truncated := slice_to section_text (max_tokens * 4)).
  assert (Ht : (Z.of_nat (String.length truncated) <= 4 * max_tokens)%Z).
  { pose proof (slice_to_length section_text (max_tokens * 4)) as H.
    fold truncated in H. lia. }
  destruct (8 * (max_tokens * 4) <? 10 * rfind truncated ".")%Z eqn:P;
    [|exact Ht].
  assert (Hr : (-1 <= rfind truncated ".")%Z)
    by (apply rfind_from_lower; lia).
  unfold slice_to.
  destruct (0 <=? rfind truncated "." + 1)%Z eqn:E;
    [|apply Z.leb_gt in E; lia].
  pose proof (take_length_le (Z.to_nat (rfind truncated "." + 1)) truncated).
  lia.
Qed.

Lemma split_from_bound (s cur : string) :
  (2 * List.length (split_from cur s)
   <= String.length s + match cur with EmptyString => 1 | _ => 2 end)%nat.
Proof.
  revert cur. induction s as [|c s IH]; intros cur; simpl.
  - destruct cur; simpl; lia.
  - destruct (is_space c).
    + destruct cur; simpl; specialize (IH EmptyString); simpl in IH; lia.
    + specialize (IH (String c cur)). simpl in IH. destruct cur; lia.
Qed.

Lemma substring_whole (m : string) : substring 0 (String.length m) m = m.
Proof. induction m as [|c m IH]; simpl; [reflexivity | now rewrite IH]. Qed.

Lemma substring_after (a m : string) :
  substring (String.length a) (String.length m) (a ++ m) = m.
Proof. induction a as [|c a IH]; simpl; [apply substring_whole | exact IH]. Qed.

Lemma append_length (a b : string) :
  String.length (a ++ b) = (String.length a + String.length b)%nat.
Proof. induction a as [|c a IH]; simpl; [reflexivity | now rewrite IH]. Qed.

Lemma endswith_append (a m : string) : endswith (a ++ m) m = true.
Proof.
  unfold endswith. rewrite append_length.
  replace (String.length a + String.length m - String.length m)%nat
    with (String.length a) by lia.
  rewrite substring_after, String.eqb_refl.
  apply andb_true_iff. split; [apply Nat.leb_le; lia | reflexivity].
Qed.

(** Every input of 800 words is cut for a budget of 100 tokens, and the
    result ends with the marker. *)
Lemma truncation_marks_800_words (section_text : string) :
  List.length (split section_text) = 800%nat ->
  endswith (_safe_truncate_corpus_section section_text 100) truncation_marker
  = true.
Proof.
  intros Hw.
  pose proof (split_from_bound section_text EmptyString) as Hb.
  fold (split section_text) in Hb. rewrite Hw in Hb. simpl in Hb.
  unfold _safe_truncate_corpus_section, _estimate_tokens.
  destruct (String.eqb_spec section_text "") as [->|_]; [discriminate|].
  rewrite Hw.
  replace ((13 * Z.of_nat 800 / 10 <=? 100)%Z) with false by reflexivity.
  destruct (100 * 4 <? Z.of_nat (String.length section_text))%Z eqn:L;
    [apply endswith_append|].
  apply Z.ltb_ge in L. lia.
Qed.

(** C6.  Every input of 800 words, cut for a budget of 100 tokens, ends
    with the marker.  For 800 one-letter words the estimated token count
    of the result is 276, and for 800 five-letter words it is 104: both
    exceed the budget of 100. *)
Theorem truncation_exceeds_budget :
  (forall section_text,
      List.length (split section_text) = 800%nat ->
      endswith (_safe_truncate_corpus_section section_text 100)
        truncation_marker = true)
  /\ List.length (split Examples.words800) = 800%nat
  /\ _estimate_tokens (_safe_truncate_corpus_section Examples.words800 100)
     = 276%Z
  /\ List.length (split Examples.alphas800) = 800%nat
  /\ _estimate_tokens (_safe_truncate_corpus_section Examples.alphas800 100)
     = 104%Z.
Proof.
  split; [exact truncation_marks_800_words|].
  repeat split; vm_compute; reflexivity.
Qed.

(** ** The lifecycle *)

Section LifecycleFacts.

Variables Documents Analysis Corpus PillarResult Conflict Rec : Type.
Variable create_unified_corpus : Documents -> Analysis -> result Corpus.
Variable pillar_executor : Corpus -> result (list PillarResult).
Variable detect_cross_pillar_conflicts :
  list PillarResult -> result (list Conflict).
Variable generate_cohesive_recommendations :
  list PillarResult -> list Conflict -> result (list Rec).
Variable overall_score_of : PillarResult -> Q.
Variable corpus_text : Corpus -> string.

Lemma run_cases (has_callback : bool) (documents : Documents)
  (analysis : Analysis) :
  let out :=
    run_assessment_lifecycle Documents Analysis Corpus PillarResult Conflict
      Rec create_unified_corpus pillar_executor detect_cross_pillar_conflicts
      generate_cohesive_recommendations overall_score_of corpus_text
      has_callback documents analysis new_orchestrator in
  (exists rest,
      (Props.progress_values (snd out) ++ rest)%list
      = if has_callback then [5; 10; 20; 25; 80; 85; 90; 95; 100]%Z else [])
  /\ (forall r, fst out = Ok r ->
                Props.progress_values (snd out)
                = (if has_callback
                   then [5; 10; 20; 25; 80; 85; 90; 95; 100]%Z else [])
                /\ current_state (snd out) = COMPLETED)
  /\ (forall corpus results conflicts recs,
         create_unified_corpus documents analysis = Ok corpus ->
         pillar_executor corpus = Ok results ->
         detect_cross_pillar_conflicts results = Ok conflicts ->
         generate_cohesive_recommendations results conflicts = Ok recs ->
         exists r, fst out = Ok r).
Proof.
  unfold run_assessment_lifecycle, bindR, update_progress, set_state,
    await, ret, new_orchestrator, Props.progress_values.
  destruct has_callback; simpl;
    destruct (create_unified_corpus documents analysis) as [corpus|e1] eqn:E1;
    simpl;
    try destruct (pillar_executor corpus) as [results|e2] eqn:E2; simpl;
    try destruct (detect_cross_pillar_conflicts results)
      as [conflicts|e3] eqn:E3;
    simpl;
    try destruct (generate_cohesive_recommendations results conflicts)
      as [recs|e4] eqn:E4; simpl;
    (split; [eexists; reflexivity|]);
    (split; [intros r Hr; try discriminate; split; reflexivity|]);
    intros c0 r0 k0 x0 H1 H2 H3 H4;
    first [eexists; reflexivity | exfalso; congruence].
Qed.

End LifecycleFacts.

Lemma prefix_sorted (l rest full : list Z) :
  (l ++ rest)%list = full -> StronglySorted Z.le full -> StronglySorted Z.le l.
Proof.
  intros <-. revert rest. induction l as [|x l IH]; intros rest H; simpl in *.
  - constructor.
  - inversion H as [|? ? Hs Hf]; subst. constructor; [eapply IH; eauto|].
    apply Forall_app in Hf. tauto.
Qed.

Lemma prefix_forall (P : Z -> Prop) (l rest full : list Z) :
  (l ++ rest)%list = full -> Forall P full -> Forall P l.
Proof. intros <- H. apply Forall_app in H. tauto. Qed.

(** C8.  In every run of the lifecycle, whatever the collaborators do, the
    percentages given to the progress sink are in non-decreasing order and
    lie between 0 and 100; a run that returns has reported 5, 10, 20, 25,
    80, 85, 90, 95 and 100, the last call being 100, and leaves the state
    COMPLETED; the run returns when no collaborator raises. *)
Theorem progress_monotone :
  forall (Documents Analysis Corpus PillarResult Conflict Rec : Type)
         (create_unified_corpus : Documents -> Analysis -> result Corpus)
         (pillar_executor : Corpus -> result (list PillarResult))
         (detect_cross_pillar_conflicts :
            list PillarResult -> result (list Conflict))
         (generate_cohesive_recommendations :
            list PillarResult -> list Conflict -> result (list Rec))
         (overall_score_of : PillarResult -> Q)
         (corpus_text : Corpus -> string)
         (has_callback : bool)
         (documents : Documents) (analysis : Analysis),
    let out :=
      run_assessment_lifecycle Documents Analysis Corpus PillarResult
        Conflict Rec create_unified_corpus pillar_executor
        detect_cross_pillar_conflicts generate_cohesive_recommendations
        overall_score_of corpus_text has_callback documents analysis
        new_orchestrator in
    StronglySorted Z.le (Props.progress_values (snd out))
    /\ Forall (fun percent => 0 <= percent <= 100)%Z
         (Props.progress_values (snd out))
    /\ (forall r, fst out = Ok r ->
                  current_state (snd out) = COMPLETED
                  /\ (has_callback = true ->
                      Props.progress_values (snd out)
                      = [5; 10; 20; 25; 80; 85; 90; 95; 100]%Z
                      /\ last (Props.progress_values (snd out)) 0%Z = 100%Z))
    /\ (forall corpus results conflicts recs,
           create_unified_corpus documents analysis = Ok corpus ->
           pillar_executor corpus = Ok results ->
           detect_cross_pillar_conflicts results = Ok conflicts ->
           generate_cohesive_recommendations results conflicts = Ok recs ->
           exists r, fst out = Ok r).
Proof.
  intros.
  destruct (run_cases Documents Analysis Corpus PillarResult Conflict Rec
              create_unified_corpus pillar_executor
              detect_cross_pillar_conflicts generate_cohesive_recommendations
              overall_score_of corpus_text has_callback documents analysis)
    as ((rest & Hpre) & Hfull & Hret).
  fold out in Hpre, Hfull, Hret.
  assert (Hs : StronglySorted Z.le
                 (if has_callback
                  then [5; 10; 20; 25; 80; 85; 90; 95; 100]%Z else [])).
  { destruct has_callback; repeat constructor; lia. }
  assert (Hr : Forall (fun percent => 0 <= percent <= 100)%Z
                 (if has_callback
                  then [5; 10; 20; 25; 80; 85; 90; 95; 100]%Z else [])).
  { destruct has_callback; repeat constructor; lia. }
  split; [eapply prefix_sorted; eauto|].
  split; [eapply prefix_forall; eauto|].
  split; [|exact Hret].
  intros r Hr0. destruct (Hfull r Hr0) as [Hv Hc]. split; [exact Hc|].
  intros ->. rewrite Hv. split; reflexivity.
Qed.

(** ** The composed corpus *)

Lemma order_first_ok : set_order order_first.
Proof.
  intros l. unfold order_first. split; [apply NoDup_nodup|].
  intros x. apply nodup_In.
Qed.

Lemma order_rev_ok : set_order order_rev.
Proof.
  intros l. unfold order_rev. split.
  - apply NoDup_rev, NoDup_nodup.
  - intros x. rewrite <- in_rev. apply nodup_In.
Qed.

(** C9.  Two corpora built from the same sections and the same inventory
    (the services [vm] and [aks] of one category) differ when the set of
    the services is iterated in two different orders, each a listing of
    its elements: [', '.join(set(services))] writes the services in the
    order of the set, which the hashes of the strings decide anew in every
    process. *)
Lemma full_corpus_depends_on_set_order :
  set_order order_first /\ set_order order_rev
  /\ full_corpus (make_corpus order_first "n" "" "" Examples.two_services [])
     <> full_corpus (make_corpus order_rev "n" "" "" Examples.two_services []).
Proof.
  split; [exact order_first_ok|]. split; [exact order_rev_ok|].
  vm_compute. discriminate.
Qed.

End OrchestratorFacts.

(* ===================================================================== *)
(** * Facts about the deduplication of recommendations *)
(* ===================================================================== *)

Module DedupeFacts.
Import PyStr Py Orchestrator.
Import Props.
Local Open Scope R_scope.

Lemma too_similar_false (a b : list R) :
  too_similar a b = false <-> Props.not_too_similar a b.
Proof.
  unfold too_similar, Props.not_too_similar.
  destruct (Rgt_dec (_cos a b) (9 / 10)) as [G|G]; split; intros H;
    try discriminate; try reflexivity; Lra.lra.
Qed.

Lemma is_duplicate_false (vectors : list (list R)) (v : list R)
  (positions : list nat) :
  is_duplicate v (map (fun j => nth j vectors []) positions) = false <->
  forall j, In j positions -> Props.not_too_similar v (nth j vectors []).
Proof.
  unfold is_duplicate. induction positions as [|k K IH]; simpl.
  - split; [intros _ j [] | reflexivity].
  - rewrite orb_false_iff, too_similar_false, IH. split.
    + intros [H1 H2] j [<-|Hj]; auto.
    + intros H. split; [apply H; now left | intros j Hj; apply H; now right].
Qed.

Lemma sorted_snoc (K : list nat) (n : nat) :
  StronglySorted lt K -> (forall i, In i K -> (i < n)%nat) ->
  StronglySorted lt (K ++ [n]).
Proof.
  induction 1 as [|x K Hs IH Hf]; intros Hn; simpl.
  - repeat constructor.
  - constructor.
    + apply IH. intros i Hi. apply Hn. now right.
    + apply Forall_app. split; [exact Hf|].
      constructor; [apply Hn; now left | constructor].
Qed.

Section Greedy.

Variable Rec : Type.
Variable vectors : list (list R).
Variable recs : list Rec.
Hypothesis enough : (List.length recs <= List.length vectors)%nat.

Lemma greedy_step_dup (idx : nat) (K : list nat) :
  Props.greedy_positions vectors idx K ->
  is_duplicate (nth idx vectors []) (map (fun j => nth j vectors []) K) = true ->
  Props.greedy_positions vectors (S idx) K.
Proof.
  intros (Hs & Hlt & Hiff) Hd. split; [exact Hs|]. split.
  - intros i Hi. specialize (Hlt i Hi). lia.
  - intros i Hi. destruct (Nat.eq_dec i idx) as [->|Hne].
    + split.
      * intros Hin. specialize (Hlt idx Hin). lia.
      * intros Hall. exfalso.
        assert (F : is_duplicate (nth idx vectors [])
                      (map (fun j => nth j vectors []) K) = false).
        { apply is_duplicate_false. intros j Hj. apply Hall; auto. }
        congruence.
    + apply Hiff. lia.
Qed.

Lemma greedy_step_keep (idx : nat) (K : list nat) :
  Props.greedy_positions vectors idx K ->
  is_duplicate (nth idx vectors []) (map (fun j => nth j vectors []) K) = false ->
  Props.greedy_positions vectors (S idx) (K ++ [idx]).
Proof.
  intros (Hs & Hlt & Hiff) Hd.
  pose proof (proj1 (is_duplicate_false _ _ _) Hd) as Hok.
  split; [now apply sorted_snoc|]. split.
  - intros i Hi. apply in_app_or in Hi. destruct Hi as [Hi|[<-|[]]];
      [specialize (Hlt i Hi)|]; lia.
  - intros i Hi. destruct (Nat.eq_dec i idx) as [->|Hne].
    + split.
      * intros _ j Hj Hji. apply in_app_or in Hj.
        destruct Hj as [Hj|[<-|[]]]; [now apply Hok | lia].
      * intros _. apply in_or_app. right. now left.
    + assert (Hi' : (i < idx)%nat) by lia.
      rewrite in_app_iff. split.
      * intros [Hin|[E|[]]]; [|lia].
        intros j Hj Hji. apply in_app_or in Hj.
        destruct Hj as [Hj|[<-|[]]]; [|lia].
        now apply (proj1 (Hiff i Hi') Hin).
      * intros Hall. left. apply (Hiff i Hi').
        intros j Hj Hji. apply Hall; [|exact Hji].
        apply in_or_app. now left.
Qed.

Lemma dedupe_loop_greedy :
  forall (rest : list Rec) (idx : nat) (kept : list Rec) (K : list nat),
    (forall k r, nth_error rest k = Some r ->
                 nth_error recs (idx + k) = Some r) ->
    (idx + List.length rest = List.length recs)%nat ->
    Props.at_positions recs K kept ->
    Props.greedy_positions vectors idx K ->
    exists K' kept',
      dedupe_loop vectors idx rest kept (map (fun j => nth j vectors []) K)
      = Ok kept'
      /\ Props.at_positions recs K' kept'
      /\ Props.greedy_positions vectors (List.length recs) K'.
Proof.
  induction rest as [|rec rest IH]; intros idx kept K Hsuf Hlen Hat HP; simpl.
  - exists K, kept. simpl in Hlen. rewrite Nat.add_0_r in Hlen. subst idx.
    auto.
  - simpl in Hlen.
    assert (Hidx : (idx < List.length vectors)%nat) by lia.
    destruct (nth_error vectors idx) as [vec|] eqn:E;
      [|apply nth_error_None in E; lia].
    assert (Hv : nth idx vectors [] = vec) by (now apply nth_error_nth).
    assert (Hrec : nth_error recs idx = Some rec).
    { specialize (Hsuf 0%nat rec eq_refl). now rewrite Nat.add_0_r in Hsuf. }
    assert (Hsuf' : forall k r, nth_error rest k = Some r ->
                                nth_error recs (S idx + k) = Some r).
    { intros k r Hk. specialize (Hsuf (S k) r Hk).
      now rewrite Nat.add_succ_r in Hsuf. }
    rewrite <- Hv.
    destruct (is_duplicate (nth idx vectors [])
                (map (fun j => nth j vectors []) K)) eqn:D.
    + apply IH; auto; [lia | now apply greedy_step_dup].
    + replace (map (fun j => nth j vectors []) K ++ [nth idx vectors []])%list
        with (map (fun j => nth j vectors []) (K ++ [idx])%list)
        by (now rewrite map_app).
      apply IH; auto; [lia | | now apply greedy_step_keep].
      apply Forall2_app; [exact Hat | constructor; [exact Hrec | constructor]].
Qed.

End Greedy.

(** The pass on the whole list. *)
Lemma bag_of_words_length (combined : list string) :
  List.length (bag_of_words combined) = List.length combined.
Proof. unfold bag_of_words. now rewrite !length_map. Qed.

Lemma dedupe_greedy (Rec : Type) (rec_title rec_reasoning : Rec -> string)
  (embed : list string -> list (list R)) (recs : list Rec) :
  Props.embed_well_formed embed ->
  exists positions kept,
    _dedupe_semantic_recommendations rec_title rec_reasoning embed recs
    = Ok kept
    /\ Props.at_positions recs positions kept
    /\ Props.greedy_positions
         (vectors_for rec_title rec_reasoning embed recs)
         (List.length recs) positions.
Proof.
  intros Hwf. destruct recs as [|r0 recs'] eqn:Erecs.
  - exists [], []. simpl. split; [reflexivity|]. split; [constructor|].
    split; [constructor|]. split; [intros i []|]. intros i Hi. lia.
  - rewrite <- Erecs. unfold _dedupe_semantic_recommendations.
    assert (Hlen : (List.length recs
                    <= List.length (vectors_for rec_title rec_reasoning
                                      embed recs))%nat).
    { unfold vectors_for.
      destruct (Hwf (map (combined_text rec_title rec_reasoning) recs))
        as [E|E].
      - rewrite E, bag_of_words_length, length_map. lia.
      - destruct (embed (map (combined_text rec_title rec_reasoning) recs))
          eqn:E'.
        + rewrite bag_of_words_length, length_map. lia.
        + rewrite E, length_map. lia. }
    destruct (dedupe_loop_greedy Rec
                (vectors_for rec_title rec_reasoning embed recs) recs Hlen
                recs 0%nat [] [])
      as (K & kept & H1 & H2 & H3); auto.
    + constructor.
    + split; [constructor|]. split; [intros i []|]. intros i Hi. lia.
    + exists K, kept. rewrite Erecs in *. auto.
Qed.

(** *** Vectors of the fallback *)

Lemma rsum_fold (l : list R) (a : R) : fold_left Rplus l a = a + rsum l.
Proof.
  unfold rsum. revert a. induction l as [|x l IH]; intros a; simpl.
  - Lra.lra.
  - rewrite IH, (IH (0 + x)). Lra.lra.
Qed.

Lemma rsum_cons (x : R) (l : list R) : rsum (x :: l) = x + rsum l.
Proof. unfold rsum at 1. simpl. rewrite rsum_fold. Lra.lra. Qed.

Lemma rsum_nil : rsum [] = 0.
Proof. reflexivity. Qed.

Lemma sumsq_div (a : list R) (n : R) :
  n <> 0 -> sumsq (map (fun v => v / n) a) = sumsq a / (n * n).
Proof.
  intros Hn. unfold sumsq. induction a as [|x a IH]; simpl.
  - rewrite rsum_nil. field. exact Hn.
  - rewrite !rsum_cons, IH. field. exact Hn.
Qed.

Lemma dot_div (a b : list R) (n m : R) :
  n <> 0 -> m <> 0 ->
  rsum (zip_mul (map (fun v => v / n) a) (map (fun v => v / m) b))
  = rsum (zip_mul a b) / (n * m).
Proof.
  intros Hn Hm. revert b. induction a as [|x a IH]; intros [|y b]; simpl;
    try (rewrite rsum_nil; field; auto).
  rewrite !rsum_cons, IH. field. auto.
Qed.

Lemma or_one_nonzero (x : R) : x <> 0 -> or_one x = x.
Proof. intros H. unfold or_one. destruct (Req_dec_T x 0); [contradiction|reflexivity]. Qed.

Lemma l2norm_positive (a : list R) :
  0 < sumsq a -> l2norm a = sqrt (sumsq a) /\ 0 < sqrt (sumsq a).
Proof.
  intros H. pose proof (sqrt_lt_R0 _ H) as Hs. split; [|exact Hs].
  unfold l2norm. fold (sumsq a). apply or_one_nonzero. Lra.lra.
Qed.

Lemma l2norm_normalize (a : list R) : 0 < sumsq a -> l2norm (normalize a) = 1.
Proof.
  intros H. destruct (l2norm_positive a H) as [E Hs].
  unfold normalize. rewrite E.
  unfold l2norm. fold (sumsq (map (fun v => v / sqrt (sumsq a)) a)).
  rewrite sumsq_div by Lra.lra.
  rewrite sqrt_sqrt by Lra.lra.
  replace (sumsq a / sumsq a) with 1 by (field; Lra.lra).
  rewrite sqrt_1. apply or_one_nonzero. Lra.lra.
Qed.

Lemma cos_normalize (a b : list R) :
  0 < sumsq a -> 0 < sumsq b ->
  _cos (normalize a) (normalize b)
  = rsum (zip_mul a b) / (sqrt (sumsq a) * sqrt (sumsq b)).
Proof.
  intros Ha Hb. unfold _cos.
  rewrite (l2norm_normalize a Ha), (l2norm_normalize b Hb).
  destruct (l2norm_positive a Ha) as [Ea Hsa].
  destruct (l2norm_positive b Hb) as [Eb Hsb].
  unfold normalize. rewrite Ea, Eb, dot_div by Lra.lra.
  field. split; Lra.lra.
Qed.

(** Two vectors of equal squared norm [n]: the cosine is the scalar
    product over [n]. *)
Lemma cos_normalize_same_norm (a b : list R) (n : R) :
  0 < n -> sumsq a = n -> sumsq b = n ->
  _cos (normalize a) (normalize b) = rsum (zip_mul a b) / n.
Proof.
  intros Hn Ha Hb. rewrite cos_normalize by Lra.lra.
  rewrite Ha, Hb, sqrt_sqrt by Lra.lra. reflexivity.
Qed.

Lemma near_vectors :
  Examples.fallback_vectors [Examples.near1; Examples.near2]
  = [normalize [3; 3; 1; 1; 0]; normalize [3; 3; 1; 0; 1]].
Proof.
  cbv -[Rplus Rmult IZR Rdiv sqrt Req_dec_T Rgt_dec Rinv normalize].
  repeat f_equal; Lra.lra.
Qed.

Lemma far_vectors :
  Examples.fallback_vectors [Examples.far1; Examples.far2]
  = [normalize [1; 1; 0]; normalize [1; 0; 1]].
Proof.
  cbv -[Rplus Rmult IZR Rdiv sqrt Req_dec_T Rgt_dec Rinv normalize].
  repeat f_equal; Lra.lra.
Qed.

Lemma near_cos :
  _cos (normalize [3; 3; 1; 0; 1]) (normalize [3; 3; 1; 1; 0]) = 95 / 100.
Proof.
  rewrite (cos_normalize_same_norm _ _ 20);
    unfold sumsq, rsum; simpl; Lra.lra.
Qed.

Lemma far_cos :
  _cos (normalize [1; 0; 1]) (normalize [1; 1; 0]) = 50 / 100.
Proof.
  rewrite (cos_normalize_same_norm _ _ 2);
    unfold sumsq, rsum; simpl; Lra.lra.
Qed.

(** The pass on two recommendations. *)
Lemma dedupe_two (Rec : Type) (r1 r2 : Rec) (v1 v2 : list R) :
  dedupe_loop [v1; v2] 0 [r1; r2] [] []
  = Ok (if too_similar v2 v1 then [r1] else [r1; r2]).
Proof.
  simpl. unfold is_duplicate. simpl. rewrite orb_false_r.
  destruct (too_similar v2 v1); reflexivity.
Qed.

End DedupeFacts.

(* ===================================================================== *)
(** * Facts about the deduplication on binary64 numbers *)
(* ===================================================================== *)

Module Dedupe64Facts.
Import Py Orchestrator64 Dedupe64Props.

Lemma map_result_length {A B : Type} (f : A -> result B) (l : list A) :
  forall out, map_result f l = Ok out -> List.length out = List.length l.
Proof.
  induction l as [|a l IH]; simpl; intros out H.
  - now injection H as <-.
  - destruct (f a) as [b|e]; simpl in H; [|discriminate].
    destruct (map_result f l) as [bs|e]; simpl in H; [|discriminate].
    injection H as <-. simpl. now rewrite (IH bs eq_refl).
Qed.

Section Greedy.

Variable py_sum : list float -> float.
Variable Rec : Type.
Variable vectors : list (list float).
Variable recs : list Rec.
Hypothesis enough : (List.length recs <= List.length vectors)%nat.
Hypothesis defined : cos_defined py_sum vectors.

Lemma no_duplicate_iff (v : list float) (positions : list nat) :
  is_duplicate py_sum v (map (fun j => nth j vectors []) positions)
  = Ok false <->
  forall j, In j positions -> not_too_similar py_sum v (nth j vectors []).
Proof.
  induction positions as [|k K IH]; simpl.
  - split; [intros _ j [] | reflexivity].
  - unfold too_similar, not_too_similar in *. split.
    + intros H j Hj.
      destruct (_cos py_sum v (nth k vectors [])) as [c|e] eqn:C;
        simpl in H; [|discriminate].
      destruct (PrimFloat.ltb threshold c) eqn:L; [discriminate|].
      destruct Hj as [<-|Hj]; [exists c; rewrite C; auto|].
      now apply IH.
    + intros H. destruct (H k (or_introl eq_refl)) as (c & C & L).
      rewrite C. simpl. rewrite L. apply IH.
      intros j Hj. apply H. now right.
Qed.

Lemma duplicate_test_returns (v : list float) (positions : list nat) :
  In v vectors ->
  (forall j, In j positions -> (j < List.length vectors)%nat) ->
  exists d,
    is_duplicate py_sum v (map (fun j => nth j vectors []) positions) = Ok d.
Proof.
  intros Hv. induction positions as [|k K IH]; simpl; intros Hk.
  - now exists false.
  - destruct (defined v (nth k vectors []) Hv) as [c C].
    { apply nth_In. apply Hk. now left. }
    unfold too_similar. rewrite C. simpl.
    destruct (PrimFloat.ltb threshold c); [now exists true|].
    apply IH. intros j Hj. apply Hk. now right.
Qed.

Lemma machine_step_dup (idx : nat) (K : list nat) :
  greedy_positions py_sum vectors idx K ->
  is_duplicate py_sum (nth idx vectors [])
    (map (fun j => nth j vectors []) K) = Ok true ->
  greedy_positions py_sum vectors (S idx) K.
Proof.
  intros (Hs & Hlt & Hiff) Hd. split; [exact Hs|]. split.
  - intros i Hi. specialize (Hlt i Hi). lia.
  - intros i Hi. destruct (Nat.eq_dec i idx) as [->|Hne].
    + split.
      * intros Hin. specialize (Hlt idx Hin). lia.
      * intros Hall. exfalso.
        assert (F : is_duplicate py_sum (nth idx vectors [])
                      (map (fun j => nth j vectors []) K) = Ok false).
        { apply no_duplicate_iff. intros j Hj. apply Hall; auto. }
        congruence.
    + apply Hiff. lia.
Qed.

Lemma machine_step_keep (idx : nat) (K : list nat) :
  greedy_positions py_sum vectors idx K ->
  is_duplicate py_sum (nth idx vectors [])
    (map (fun j => nth j vectors []) K) = Ok false ->
  greedy_positions py_sum vectors (S idx) (K ++ [idx]).
Proof.
  intros (Hs & Hlt & Hiff) Hd.
  pose proof (proj1 (no_duplicate_iff _ _) Hd) as Hok.
  split; [now apply DedupeFacts.sorted_snoc|]. split.
  - intros i Hi. apply in_app_or in Hi. destruct Hi as [Hi|[<-|[]]];
      [specialize (Hlt i Hi)|]; lia.
  - intros i Hi. destruct (Nat.eq_dec i idx) as [->|Hne].
    + split.
      * intros _ j Hj Hji. apply in_app_or in Hj.
        destruct Hj as [Hj|[<-|[]]]; [now apply Hok | lia].
      * intros _. apply in_or_app. right. now left.
    + assert (Hi' : (i < idx)%nat) by lia.
      rewrite in_app_iff. split.
      * intros [Hin|[E|[]]]; [|lia].
        intros j Hj Hji. apply in_app_or in Hj.
        destruct Hj as [Hj|[<-|[]]]; [|lia].
        now apply (proj1 (Hiff i Hi') Hin).
      * intros Hall. left. apply (Hiff i Hi').
        intros j Hj Hji. apply Hall; [|exact Hji].
        apply in_or_app. now left.
Qed.

Lemma machine_loop_greedy :
  forall (rest : list Rec) (idx : nat) (kept : list Rec) (K : list nat),
    (forall k r, nth_error rest k = Some r ->
                 nth_error recs (idx + k) = Some r) ->
    (idx + List.length rest = List.length recs)%nat ->
    Props.at_positions recs K kept ->
    greedy_positions py_sum vectors idx K ->
    exists K' kept',
      dedupe_loop py_sum vectors idx rest kept
        (map (fun j => nth j vectors []) K) = Ok kept'
      /\ Props.at_positions recs K' kept'
      /\ greedy_positions py_sum vectors (List.length recs) K'.
Proof.
  induction rest as [|rec rest IH]; intros idx kept K Hsuf Hlen Hat HP; simpl.
  - exists K, kept. simpl in Hlen. rewrite Nat.add_0_r in Hlen. subst idx.
    auto.
  - simpl in Hlen.
    assert (Hidx : (idx < List.length vectors)%nat) by lia.
    destruct (nth_error vectors idx) as [vec|] eqn:E;
      [|apply nth_error_None in E; lia].
    assert (Hv : nth idx vectors [] = vec) by (now apply nth_error_nth).
    assert (Hrec : nth_error recs idx = Some rec).
    { specialize (Hsuf 0%nat rec eq_refl). now rewrite Nat.add_0_r in Hsuf. }
    assert (Hsuf' : forall k r, nth_error rest k = Some r ->
                                nth_error recs (S idx + k) = Some r).
    { intros k r Hk. specialize (Hsuf (S k) r Hk).
      now rewrite Nat.add_succ_r in Hsuf. }
    rewrite <- Hv.
    destruct (duplicate_test_returns (nth idx vectors []) K) as [d D].
    { now apply nth_In. }
    { destruct HP as (_ & Hlt & _). intros j Hj. specialize (Hlt j Hj). lia. }
    rewrite D. simpl. destruct d.
    + apply IH; auto; [lia | now apply machine_step_dup].
    + replace (map (fun j => nth j vectors []) K ++ [nth idx vectors []])%list
        with (map (fun j => nth j vectors []) (K ++ [idx])%list)
        by (now rewrite map_app).
      apply IH; auto; [lia | | now apply machine_step_keep].
      apply Forall2_app; [exact Hat | constructor; [exact Hrec | constructor]].
Qed.

End Greedy.

Lemma vectors_for_length (Rec : Type) (rec_title rec_reasoning : Rec -> string)
  (embed : list string -> list (list float)) (py_sum : list float -> float)
  (recs : list Rec) (vectors : list (list float)) :
  embed_well_formed embed -> recs <> [] ->
  vectors_for rec_title rec_reasoning embed py_sum recs = Ok vectors ->
  List.length vectors = List.length recs.
Proof.
  intros Hwf Hne. unfold vectors_for.
  destruct (Hwf (map (Orchestrator.combined_text rec_title rec_reasoning)
                     recs)) as [E|E].
  - rewrite E. unfold bag_of_words. intros H.
    apply map_result_length in H. now rewrite !length_map in H.
  - destruct (embed _) as [|v vs] eqn:V.
    + rewrite length_map in E. destruct recs; [now elim Hne | discriminate].
    + intros [= <-]. now rewrite E, length_map.
Qed.

Lemma machine_greedy (Rec : Type) (rec_title rec_reasoning : Rec -> string)
  (embed : list string -> list (list float)) (py_sum : list float -> float)
  (recs : list Rec) (vectors : list (list float)) :
  embed_well_formed embed ->
  vectors_for rec_title rec_reasoning embed py_sum recs = Ok vectors ->
  cos_defined py_sum vectors ->
  exists positions kept,
    _dedupe_semantic_recommendations rec_title rec_reasoning embed py_sum recs
    = Ok kept
    /\ Props.at_positions recs positions kept
    /\ greedy_positions py_sum vectors (List.length recs) positions.
Proof.
  intros Hwf Hv Hdef. destruct recs as [|r0 recs'] eqn:Erecs.
  - exists [], []. simpl. split; [reflexivity|]. split; [constructor|].
    split; [constructor|]. split; [intros i []|]. intros i Hi. lia.
  - rewrite <- Erecs in *.
    assert (Hne : recs <> []) by (rewrite Erecs; discriminate).
    pose proof (vectors_for_length Rec rec_title rec_reasoning embed py_sum
                  recs vectors Hwf Hne Hv) as Hlen.
    assert (Hle : (List.length recs <= List.length vectors)%nat) by lia.
    destruct (machine_loop_greedy py_sum Rec vectors recs Hle Hdef
                recs 0%nat [] [])
      as (K & kept & H1 & H2 & H3); auto.
    + constructor.
    + split; [constructor|]. split; [intros i []|]. intros i Hi. lia.
    + exists K, kept. split; [|auto].
      unfold _dedupe_semantic_recommendations. rewrite Hv.
      rewrite Erecs in *. exact H1.
Qed.

(** *** The pairs of the claim, and a pair on the threshold *)

Ltac cos_is_defined :=
  match goal with
  | |- exists c, ?t = Ok c =>
      let v := eval vm_compute in t in
      match v with
      | Ok ?c => exists c; vm_compute; reflexivity
      end
  end.

Lemma edge_vectors :
  Examples.fallback_vectors [edge1; edge2]
  = [Orchestrator.normalize [1; 3; 0]%R; Orchestrator.normalize [0; 3; 1]%R].
Proof.
  cbv -[Rplus Rmult IZR Rdiv sqrt Req_dec_T Rgt_dec Rinv
        Orchestrator.normalize].
  repeat f_equal; Lra.lra.
Qed.

Lemma edge_cos :
  Orchestrator._cos (Orchestrator.normalize [0; 3; 1]%R)
                    (Orchestrator.normalize [1; 3; 0]%R) = (9 / 10)%R.
Proof.
  rewrite (DedupeFacts.cos_normalize_same_norm _ _ 10%R);
    unfold Props.sumsq, Orchestrator.rsum; simpl; Lra.lra.
Qed.

Lemma edge_kept_on_reals :
  Examples.fallback_dedupe [edge1; edge2] = Ok [edge1; edge2].
Proof.
  unfold Examples.fallback_dedupe,
    Orchestrator._dedupe_semantic_recommendations.
  fold (Examples.fallback_vectors [edge1; edge2]).
  rewrite edge_vectors, DedupeFacts.dedupe_two.
  unfold Orchestrator.too_similar. rewrite edge_cos.
  destruct (Rgt_dec (9 / 10) (9 / 10)) as [G|_]; [|reflexivity].
  exfalso. Lra.lra.
Qed.

Lemma near_collapse_machine :
  fallback_dedupe sum_in_order [Examples.near1; Examples.near2]
  = Ok [Examples.near1]
  /\ fallback_dedupe sum_compensated [Examples.near1; Examples.near2]
     = Ok [Examples.near1].
Proof. split; vm_compute; reflexivity. Qed.

Lemma far_kept_machine :
  fallback_dedupe sum_in_order [Examples.far1; Examples.far2]
  = Ok [Examples.far1; Examples.far2]
  /\ fallback_dedupe sum_compensated [Examples.far1; Examples.far2]
     = Ok [Examples.far1; Examples.far2].
Proof. split; vm_compute; reflexivity. Qed.

(** C7 (amended).  On the numbers of the machine the pass, when no
    similarity raises, keeps a recommendation exactly when the similarity
    computed between its vector and the vector of every recommendation
    kept before it is not greater than the float 0.90 (it is at most
    0.90, or not a number), so that the result lists, in their order, the
    recommendations at the kept positions; this holds whatever [sum] the
    interpreter has.  With the bag-of-words vectors the texts [near1],
    [near2], of similarity 0.95, leave one recommendation and the texts
    [far1], [far2], of similarity 0.50, leave both, with the [sum] of
    Python 3.11 and with that of Python 3.12. *)
Theorem dedupe_greedy_machine :
  (forall (Rec : Type) (rec_title rec_reasoning : Rec -> string)
          (embed : list string -> list (list float))
          (py_sum : list float -> float)
          (recs : list Rec) (vectors : list (list float)),
      embed_well_formed embed ->
      vectors_for rec_title rec_reasoning embed py_sum recs = Ok vectors ->
      cos_defined py_sum vectors ->
      exists positions kept,
        _dedupe_semantic_recommendations rec_title rec_reasoning embed
          py_sum recs = Ok kept
        /\ Props.at_positions recs positions kept
        /\ greedy_positions py_sum vectors (List.length recs) positions)
  /\ (let vs := Examples.fallback_vectors [Examples.near1; Examples.near2] in
      Orchestrator._cos (nth 1 vs []) (nth 0 vs []) = (95 / 100)%R
      /\ fallback_dedupe sum_in_order [Examples.near1; Examples.near2]
         = Ok [Examples.near1]
      /\ fallback_dedupe sum_compensated [Examples.near1; Examples.near2]
         = Ok [Examples.near1])
  /\ (let vs := Examples.fallback_vectors [Examples.far1; Examples.far2] in
      Orchestrator._cos (nth 1 vs []) (nth 0 vs []) = (50 / 100)%R
      /\ fallback_dedupe sum_in_order [Examples.far1; Examples.far2]
         = Ok [Examples.far1; Examples.far2]
      /\ fallback_dedupe sum_compensated [Examples.far1; Examples.far2]
         = Ok [Examples.far1; Examples.far2]).
Proof.
  split; [exact machine_greedy|]. split.
  - cbv zeta. rewrite DedupeFacts.near_vectors. cbn [nth].
    split; [exact DedupeFacts.near_cos | exact near_collapse_machine].
  - cbv zeta. rewrite DedupeFacts.far_vectors. cbn [nth].
    split; [exact DedupeFacts.far_cos | exact far_kept_machine].
Qed.

Lemma dedupe_greedy_machine_witness :
  embed_well_formed no_embedding
  /\ exists vectors positions kept,
      vectors_for fst snd no_embedding sum_in_order
        [Examples.near1; Examples.near2] = Ok vectors
      /\ cos_defined sum_in_order vectors
      /\ fallback_dedupe sum_in_order [Examples.near1; Examples.near2]
         = Ok kept
      /\ Props.at_positions [Examples.near1; Examples.near2] positions kept
      /\ greedy_positions sum_in_order vectors 2 positions.
Proof.
  assert (H : embed_well_formed no_embedding) by (intros texts; now left).
  split; [exact H|].
  let out := eval vm_compute in
    (vectors_for fst snd no_embedding sum_in_order
       [Examples.near1; Examples.near2]) in
  match out with
  | Ok ?vectors =>
      assert (Hv : vectors_for fst snd no_embedding sum_in_order
                     [Examples.near1; Examples.near2] = Ok vectors)
        by (vm_compute; reflexivity);
      assert (Hd : cos_defined sum_in_order vectors)
        by (intros a b [<-|[<-|[]]] [<-|[<-|[]]]; cos_is_defined);
      exists vectors
  end.
  destruct (proj1 dedupe_greedy_machine (string * string)%type fst snd
              no_embedding sum_in_order
              [Examples.near1; Examples.near2] _ H Hv Hd)
    as (K & kept & E & Hat & HG).
  exists K, kept.
  split; [exact Hv|]. split; [exact Hd|]. split; [exact E|].
  split; [exact Hat | exact HG].
Defined.

(** C7 (as stated).  The texts [edge1] and [edge2] have the similarity
    0.9 exactly, which is not above 0.90, and the pass on real numbers
    keeps both; the floats give 0.9000000000000001, and the pass on the
    numbers of the machine keeps the first alone, with either [sum]. *)
Lemma threshold_pair_collapses :
  (let vs := Examples.fallback_vectors [edge1; edge2] in
   Orchestrator._cos (nth 1 vs []) (nth 0 vs []) = (9 / 10)%R)
  /\ Examples.fallback_dedupe [edge1; edge2] = Ok [edge1; edge2]
  /\ (exists v1 v2,
         vectors_for fst snd no_embedding sum_in_order [edge1; edge2]
         = Ok [v1; v2]
         /\ _cos sum_in_order v2 v1 = Ok 0x1.ccccccccccccep-1%float
         /\ _cos sum_compensated v2 v1 = Ok 0x1.ccccccccccccep-1%float
         /\ PrimFloat.ltb threshold 0x1.ccccccccccccep-1%float = true)
  /\ fallback_dedupe sum_in_order [edge1; edge2] = Ok [edge1]
  /\ fallback_dedupe sum_compensated [edge1; edge2] = Ok [edge1].
Proof.
  split; [cbv zeta; rewrite edge_vectors; cbn [nth]; exact edge_cos|].
  split; [exact edge_kept_on_reals|].
  split.
  - do 2 eexists. split; [vm_compute; reflexivity|].
    repeat split; vm_compute; reflexivity.
  - split; vm_compute; reflexivity.
Qed.

End Dedupe64Facts.

(* ===================================================================== *)
(** * Further facts about scoring *)
(* ===================================================================== *)

Module ScoringMore.
Import PyStr Py Scoring.
Import ScoringFacts.
Local Open Scope Q_scope.

Lemma match_fold_filter (text : string) (weights : dict Q)
  (aliases : dict (list string)) (signals : list string) :
  forall st : list string * Q,
    fold_left (match_step text weights aliases) signals st
    = ((fst st ++ filter (signal_present text aliases) signals)%list,
       fold_left Qplus
         (map (fun s => get_default weights s 1)
              (filter (signal_present text aliases) signals))
         (snd st)).
Proof.
  induction signals as [|sig signals IH]; intros [m w]; simpl.
  - now rewrite app_nil_r.
  - rewrite IH. unfold match_step.
    destruct (signal_present text aliases sig); simpl; [|reflexivity].
    now rewrite <- app_assoc.
Qed.

Lemma qsum_filter_le {A : Type} (wt : A -> Q) (P : A -> bool) (l : list A) :
  (forall x, 0 <= wt x) ->
  0 <= qsum (map wt (filter P l))
  /\ qsum (map wt (filter P l)) <= qsum (map wt l).
Proof.
  intros Hw. induction l as [|x l [IH0 IH]]; simpl.
  - unfold qsum; simpl. split; Lqa.lra.
  - pose proof (Hw x). destruct (P x); simpl;
      rewrite ?NumFacts.qsum_cons; split; Lqa.lra.
Qed.

Lemma total_weight_is_sum (conf : ScoringConf) :
  nonzero (signals_total_weight conf) = true ->
  signals_total_weight conf
  = qsum (map (fun s => get_default (effective_weights conf) s 1)
              (sc_signals conf)).
Proof.
  unfold signals_total_weight.
  destruct (nonzero (qsum _)); [reflexivity|]. intros H. discriminate.
Qed.

Lemma find_app {A : Type} (f : A -> bool) (l1 l2 : list A) :
  find f (l1 ++ l2)
  = match find f l1 with Some x => Some x | None => find f l2 end.
Proof.
  induction l1 as [|x l1 IH]; simpl; [reflexivity|].
  destruct (f x); [reflexivity | exact IH].
Qed.

Lemma qsum_between (lo hi : Q) (l : list Q) :
  Forall (fun x => lo <= x /\ x <= hi) l ->
  (inject_Z (Z.of_nat (List.length l)) * lo <= qsum l
   /\ qsum l <= inject_Z (Z.of_nat (List.length l)) * hi).
Proof.
  induction 1 as [|x l [H1 H2] _ [IH1 IH2]].
  - unfold qsum, inject_Z; simpl. split; Lqa.lra.
  - rewrite NumFacts.qsum_cons.
    change (List.length (x :: l)) with (S (List.length l)).
    rewrite Nat2Z.inj_succ. unfold Z.succ. rewrite inject_Z_plus.
    change (inject_Z 1) with 1. split; Lqa.lra.
Qed.

Lemma filter_all {A : Type} (P : A -> bool) (l : list A) :
  (forall x, In x l -> P x = true) -> filter P l = l.
Proof.
  induction l as [|x l IH]; simpl; intros H; [reflexivity|].
  rewrite (H x (or_introl eq_refl)), IH; auto.
Qed.

Lemma filter_none {A : Type} (P : A -> bool) (l : list A) :
  (forall x, In x l -> P x = false) -> filter P l = [].
Proof.
  induction l as [|x l IH]; simpl; intros H; [reflexivity|].
  rewrite (H x (or_introl eq_refl)), IH; auto.
Qed.

(** X1.  A practice is always scored, and the matched signals of the
    score are the declared signals that are found in the text, in the
    order of their declaration; the total is the number of declared
    signals. *)
Theorem matched_signals_are_found :
  forall (practice : Practice) (text : string) (override : option Q),
  exists ps,
    _score_practice practice text override = Ok ps
    /\ matched_signals ps
       = filter (ScoringProps.signal_found practice text)
                (ScoringProps.declared_signals practice)
    /\ total_signals ps = List.length (ScoringProps.declared_signals practice).
Proof.
  intros practice text override.
  unfold _score_practice, score_practice_with, ScoringProps.signal_found,
    ScoringProps.declared_signals.
  destruct (p_scoring practice) as [conf|].
  - unfold _match_scoring_signals. cbn [mi_coverage mi_matched].
    eexists. split; [reflexivity|]. cbn [matched_signals total_signals].
    unfold match_loop. rewrite match_fold_filter. simpl. auto.
  - eexists. split; [reflexivity|]. simpl. auto.
Qed.

Lemma score_from_coverage_range (mode : string) (c : Q) (a : bool) :
  0 <= c -> c <= 1 ->
  (0 <= _score_from_coverage mode c a (Qle_bool (999 # 1000) c) <= 5)%Z.
Proof.
  intros H0 H1. unfold _score_from_coverage.
  assert (Hp : (0 <= py_round (c * 5) <= 5)%Z).
  { split; [apply NumFacts.py_round_nonneg; Lqa.lra|].
    apply Z.le_trans with (py_round 5); [|now vm_compute].
    apply NumFacts.py_round_mono. Lqa.lra. }
  destruct a; simpl; [|lia].
  destruct (String.eqb mode "proportional"); [exact Hp|].
  destruct (String.eqb mode "tiered").
  - unfold tiered_scan, thresholds.
    repeat match goal with
      | |- context [if ?b then _ else _] => destruct b
      end; lia.
  - destruct (String.eqb mode "binary"); [|exact Hp].
    repeat match goal with
      | |- context [if ?b then _ else _] => destruct b
      end; lia.
Qed.

Lemma score_practice_bounds :
  forall (practice : Practice) (text : string) (override : option Q),
    Props.signal_weights_nonneg practice ->
    exists ps,
      _score_practice practice text override = Ok ps
      /\ 0 <= coverage ps /\ coverage ps <= 1
      /\ (0 <= score ps <= 5)%Z.
Proof.
  intros practice text override Hnn.
  unfold Props.signal_weights_nonneg in Hnn.
  unfold _score_practice, score_practice_with.
  destruct (p_scoring practice) as [conf|].
  - unfold _match_scoring_signals. cbn [mi_coverage mi_matched].
    eexists. split; [reflexivity|]. cbn [coverage score].
    unfold match_loop. rewrite match_fold_filter. cbn [fst snd].
    set (wt := fun s => get_default (effective_weights conf) s 1).
    fold (qsum (map wt (filter (signal_present text (sc_signal_aliases conf))
                          (sc_signals conf)))).
    destruct (qsum_filter_le wt (signal_present text (sc_signal_aliases conf))
                (sc_signals conf)
                (fun s => effective_weight_nonneg conf s Hnn)) as [Hm0 Hm1].
    set (mw := qsum _) in *.
    assert (Hc : 0 <= (if nonzero (signals_total_weight conf)
                       then mw / signals_total_weight conf else 0)
                 /\ (if nonzero (signals_total_weight conf)
                     then mw / signals_total_weight conf else 0) <= 1).
    { destruct (nonzero (signals_total_weight conf)) eqn:Z;
        [|split; Lqa.lra].
      pose proof (total_weight_positive conf Hnn Z) as Hpos.
      rewrite (total_weight_is_sum conf Z) in *. fold wt in Hpos |- *.
      split; [now apply div_nonneg|].
      apply Qle_shift_div_r; [exact Hpos | Lqa.lra]. }
    destruct Hc as [Hc0 Hc1]. repeat split; try assumption;
      now apply score_from_coverage_range.
  - eexists. split; [reflexivity|]. cbn [coverage score].
    set (m := filter _ (p_signals practice)).
    assert (Hm : len_q m <= len_q (p_signals practice)).
    { unfold len_q. rewrite <- Zle_Qle. apply inj_le. apply filter_length_le. }
    pose proof (len_q_nonneg m) as Hm0.
    destruct (nonempty (p_signals practice)) eqn:N;
      [|repeat split; try Lqa.lra; lia].
    pose proof (len_q_positive _ N) as Hpos.
    assert (H0 : 0 <= len_q m / len_q (p_signals practice))
      by now apply div_nonneg.
    assert (H1 : len_q m / len_q (p_signals practice) <= 1)
      by (apply Qle_shift_div_r; [exact Hpos | Lqa.lra]).
    repeat split; try assumption.
    + apply NumFacts.py_round_nonneg. Lqa.lra.
    + apply Z.le_trans with (py_round 5); [|now vm_compute].
      apply NumFacts.py_round_mono. Lqa.lra.
Qed.

(** X2.  With signal weights that are not negative, the score of a
    practice lies between 0 and 5 and its coverage is not negative, in
    every mode and for both kinds of practice. *)
Theorem score_bounds :
  forall (practice : Practice) (text : string) (override : option Q),
    Props.signal_weights_nonneg practice ->
    exists ps,
      _score_practice practice text override = Ok ps
      /\ 0 <= coverage ps
      /\ (0 <= score ps <= 5)%Z.
Proof.
  intros practice text override Hnn.
  destruct (score_practice_bounds practice text override Hnn)
    as (ps & E & Hc & _ & Hs).
  exists ps. split; [exact E|]. split; [exact Hc | exact Hs].
Qed.

Lemma score_bounds_witness :
  Props.signal_weights_nonneg
    (Examples.block_practice "A" 1 Examples.weighted_block)
  /\ exists ps,
      _score_practice (Examples.block_practice "A" 1 Examples.weighted_block)
        "we define an slo" None = Ok ps
      /\ 0 <= coverage ps
      /\ (0 <= score ps <= 5)%Z.
Proof.
  assert (H : Props.signal_weights_nonneg
                (Examples.block_practice "A" 1 Examples.weighted_block)).
  { simpl. intros k w [E|[E|[]]]; injection E as _ <-; discriminate. }
  split; [exact H|].
  exact (score_bounds
           (Examples.block_practice "A" 1 Examples.weighted_block)
           "we define an slo" None H).
Defined.

Lemma score_full (mode : string) (c : Q) :
  c == 1 -> _score_from_coverage mode c true (Qle_bool (999 # 1000) c) = 5%Z.
Proof.
  intros E. unfold _score_from_coverage. simpl.
  assert (F : Qle_bool (999 # 1000) c = true)
    by (apply Qle_bool_iff; rewrite E; discriminate).
  assert (R : py_round (c * 5) = 5%Z).
  { rewrite (NumFacts.py_round_comp (c * 5) 5) by (rewrite E; reflexivity).
    reflexivity. }
  rewrite F, R.
  destruct (String.eqb mode "proportional"); [reflexivity|].
  destruct (String.eqb mode "tiered").
  - unfold tiered_scan, thresholds.
    assert (T : Qle_bool (1 - (1 # 1000000000)) c = true)
      by (apply Qle_bool_iff; rewrite E; discriminate).
    rewrite T. reflexivity.
  - destruct (String.eqb mode "binary"); reflexivity.
Qed.

Lemma total_weight_needs_signals (conf : ScoringConf) :
  nonzero (signals_total_weight conf) = true -> sc_signals conf <> [].
Proof.
  intros H E. unfold signals_total_weight in H. rewrite E in H. discriminate.
Qed.

(** On exact weights the coverage of a practice all of whose signals are
    found is 1. *)
Lemma full_and_empty_coverage :
  forall (practice : Practice) (text : string) (override : option Q),
  exists ps,
    _score_practice practice text override = Ok ps
    /\ (ScoringProps.weighable practice ->
        (forall sig, In sig (ScoringProps.declared_signals practice) ->
                     ScoringProps.signal_found practice text sig = true) ->
        score ps = 5%Z /\ coverage ps == 1)
    /\ ((forall sig, In sig (ScoringProps.declared_signals practice) ->
                     ScoringProps.signal_found practice text sig = false) ->
        score ps = 0%Z /\ coverage ps == 0).
Proof.
  intros practice text override.
  unfold _score_practice, score_practice_with, ScoringProps.signal_found,
    ScoringProps.declared_signals, ScoringProps.weighable.
  destruct (p_scoring practice) as [conf|].
  - unfold _match_scoring_signals. cbn [mi_coverage mi_matched].
    eexists. split; [reflexivity|]. cbn [coverage score].
    unfold match_loop. rewrite match_fold_filter. cbn [fst snd]. split.
    + intros Hw Hall. rewrite (filter_all _ _ Hall), Hw.
      pose proof (total_weight_needs_signals conf Hw) as Hne.
      assert (C : fold_left Qplus
                    (map (fun s => get_default (effective_weights conf) s 1)
                         (sc_signals conf)) 0
                  / signals_total_weight conf == 1).
      { pose proof (nonzero_true _ Hw) as Hnz.
        rewrite (total_weight_is_sum conf Hw) in *.
        apply Qmult_inv_r. exact Hnz. }
      split; [|exact C].
      replace (nonempty ([] ++ sc_signals conf)%list) with true
        by (simpl; destruct (sc_signals conf); [now elim Hne | reflexivity]).
      now apply score_full.
    + intros Hnone. rewrite (filter_none _ _ Hnone). simpl.
      split; [reflexivity|].
      destruct (nonzero (signals_total_weight conf)); [|reflexivity].
      unfold Qdiv. ring.
  - eexists. split; [reflexivity|]. cbn [coverage score]. split.
    + intros Hne Hall. rewrite (filter_all _ _ Hall).
      assert (N : nonempty (p_signals practice) = true)
        by (destruct (p_signals practice); [now elim Hne | reflexivity]).
      rewrite N. pose proof (len_q_positive _ N) as Hpos.
      assert (C : len_q (p_signals practice) / len_q (p_signals practice) == 1)
        by (apply Qmult_inv_r; Lqa.lra).
      split; [|exact C].
      rewrite (NumFacts.py_round_comp _ 5) by (rewrite C; reflexivity).
      reflexivity.
    + intros Hnone. rewrite (filter_none _ _ Hnone).
      destruct (nonempty (p_signals practice)); [|split; reflexivity].
      split; reflexivity.
Qed.

(** X3.  With signal weights that are not negative, a practice all of
    whose signals are found scores 5 in every mode, provided it has
    something to weigh; a practice none of whose signals is found scores 0
    with coverage 0. *)
Theorem all_or_nothing :
  forall (practice : Practice) (text : string) (override : option Q),
  exists ps,
    _score_practice practice text override = Ok ps
    /\ (Props.signal_weights_nonneg practice ->
        ScoringProps.weighable practice ->
        (forall sig, In sig (ScoringProps.declared_signals practice) ->
                     ScoringProps.signal_found practice text sig = true) ->
        score ps = 5%Z)
    /\ ((forall sig, In sig (ScoringProps.declared_signals practice) ->
                     ScoringProps.signal_found practice text sig = false) ->
        score ps = 0%Z /\ coverage ps == 0).
Proof.
  intros practice text override.
  destruct (full_and_empty_coverage practice text override)
    as (ps & E & Hall & Hnone).
  exists ps. split; [exact E|]. split; [|exact Hnone].
  intros _ Hw Hfound. now destruct (Hall Hw Hfound).
Qed.

Lemma all_or_nothing_witness :
  exists ps,
    _score_practice (Examples.legacy_practice "A" 1 ["multi-region"])
      Examples.scenario_text None = Ok ps
    /\ score ps = 5%Z.
Proof.
  destruct (all_or_nothing (Examples.legacy_practice "A" 1 ["multi-region"])
              Examples.scenario_text None) as (ps & E & Hall & _).
  exists ps. split; [exact E|]. apply Hall.
  - exact I.
  - simpl. discriminate.
  - intros sig [<-|[]]. vm_compute. reflexivity.
Defined.

(** ** The percentage lies between 0 and 100 *)

Lemma round2_mono (x y : Q) : x <= y -> round2 x <= round2 y.
Proof.
  intros H. unfold round2.
  apply div_mono; [reflexivity|].
  rewrite <- Zle_Qle. apply NumFacts.py_round_mono. Lqa.lra.
Qed.

Lemma weighted_sum_bounds (scores : list PracticeScore) :
  Forall (fun ps => 0 <= weight ps /\ (0 <= score ps <= 5)%Z) scores ->
  0 <= Props.sum_weights scores
  /\ 0 <= Props.sum_weighted_scores scores
  /\ Props.sum_weighted_scores scores <= 5 * Props.sum_weights scores.
Proof.
  unfold Props.sum_weights, Props.sum_weighted_scores.
  induction 1 as [|ps scores [Hw [Hs0 Hs5]] _ (IH1 & IH2 & IH3)]; simpl.
  - unfold qsum; simpl. repeat split; Lqa.lra.
  - rewrite !NumFacts.qsum_cons.
    assert (H0 : 0 <= inject_Z (score ps)) by (now rewrite <- (Zle_Qle 0)).
    assert (H5 : inject_Z (score ps) <= 5) by (now rewrite <- (Zle_Qle _ 5)).
    assert (Hp : 0 <= inject_Z (score ps) * weight ps)
      by (apply Qmult_le_0_compat; assumption).
    assert (Hq : inject_Z (score ps) * weight ps <= 5 * weight ps)
      by (apply Qmult_le_compat_r; assumption).
    repeat split; Lqa.lra.
Qed.

Lemma override_nonneg (wm : dict Q) (c : option string) (w : Q) :
  (forall k v, In (k, v) wm -> 0 <= v) ->
  override_for wm c = Some w -> 0 <= w.
Proof.
  intros H. unfold override_for. destruct c as [k|]; [|discriminate].
  destruct (negb (k =? "")%string); [|discriminate].
  intros E. apply dict_get_in in E. eauto.
Qed.

Lemma score_practice_weight (practice : Practice) (text : string)
  (override : option Q) (ps : PracticeScore) :
  _score_practice practice text override = Ok ps ->
  weight ps = match override with Some o => o | None => p_weight practice end.
Proof.
  unfold _score_practice, score_practice_with.
  destruct (p_scoring practice); intros [= <-]; reflexivity.
Qed.

Lemma scored_in_range (wm : dict Q) (text : string)
  (practices : list Practice) (scores : list PracticeScore) :
  Props.scored_by _score_practice wm text practices scores ->
  (forall practice, In practice practices ->
                    0 <= p_weight practice
                    /\ Props.signal_weights_nonneg practice) ->
  (forall k w, In (k, w) wm -> 0 <= w) ->
  Forall (fun ps => 0 <= weight ps /\ (0 <= score ps <= 5)%Z) scores.
Proof.
  unfold Props.scored_by.
  induction 1 as [|practice ps practices scores Hps _ IH]; intros Hp Ho;
    constructor.
  - destruct (Hp practice (or_introl eq_refl)) as [Hw Hnn].
    destruct (score_practice_bounds practice text
                (override_for wm (p_code practice)) Hnn)
      as (ps' & E' & _ & _ & Hsc).
    rewrite Hps in E'. injection E' as <-. split; [|exact Hsc].
    rewrite (score_practice_weight _ _ _ _ Hps).
    destruct (override_for wm (p_code practice)) eqn:O;
      [eapply override_nonneg; eauto | exact Hw].
  - apply IH; [|exact Ho]. intros p Hin. apply Hp. now right.
Qed.

(** X4.  With weights that are not negative, [compute_pillar_scores]
    returns a maturity percentage between 0 and 100. *)
Theorem overall_percent_bounds :
  forall (Gap GapResult : Type)
         (eval_gaps : string -> list Gap -> list GapResult)
         (data : PillarData Gap) (text name : string),
    ScoringProps.weights_nonneg data ->
    exists r,
      compute_pillar_scores eval_gaps data text name = Ok r
      /\ 0 <= overall_maturity_percent r
      /\ overall_maturity_percent r <= 100.
Proof.
  intros Gap GapResult eval_gaps data text name [Hp Ho].
  destruct (compute_total eval_gaps data text name) as [r E].
  exists r. split; [exact E|].
  destruct (compute_with_spec _ _ _ _ _ _ _ _ E) as (HS & [HF HZ] & _).
  assert (HB : Forall (fun ps => 0 <= weight ps /\ (0 <= score ps <= 5)%Z)
                 (practice_scores r))
    by (eapply scored_in_range; eauto).
  destruct (weighted_sum_bounds _ HB) as (HW & HS0 & HS5).
  destruct (Qeq_dec (Props.sum_weights (practice_scores r)) 0) as [Z|NZ].
  - rewrite (HZ Z). split; Lqa.lra.
  - rewrite (HF NZ).
    assert (Hpos : 0 < 5 * Props.sum_weights (practice_scores r)).
    { apply Qle_lteq in HW. destruct HW as [HW|HW]; [Lqa.lra|].
      exfalso. apply NZ. now symmetry. }
    split.
    + apply Qle_trans with (round2 0); [discriminate|].
      apply round2_mono. apply div_nonneg; [exact Hpos | Lqa.lra].
    + apply Qle_trans with (round2 100); [|discriminate].
      apply round2_mono. apply Qle_shift_div_r; [exact Hpos | Lqa.lra].
Qed.

Lemma overall_percent_bounds_witness :
  ScoringProps.weights_nonneg Examples.two_practices
  /\ exists r,
      compute_pillar_scores Examples.no_gaps Examples.two_practices
        Examples.scenario_text "reliability" = Ok r
      /\ 0 <= overall_maturity_percent r
      /\ overall_maturity_percent r <= 100.
Proof.
  assert (H : ScoringProps.weights_nonneg Examples.two_practices).
  { split; [|intros k w []].
    intros practice [<-|[<-|[]]]; split; simpl; (discriminate || exact I). }
  split; [exact H|].
  exact (overall_percent_bounds unit unit Examples.no_gaps
           Examples.two_practices Examples.scenario_text "reliability" H).
Defined.

(** ** The shape of a surfaced recommendation *)

Lemma dict_get_filter_keys {V : Type} (bad : string -> bool) (d : dict V)
  (k : string) :
  dict_get (filter (fun kv => negb (bad (fst kv))) d) k
  = if bad k then None else dict_get d k.
Proof.
  induction d as [|[k' v] d IH]; simpl.
  - now destruct (bad k).
  - destruct (bad k') eqn:B; simpl.
    + rewrite IH. destruct (String.eqb_spec k' k) as [->|_]; [|reflexivity].
      now rewrite B.
    + rewrite IH. destruct (String.eqb_spec k' k) as [->|_]; [|reflexivity].
      now rewrite B.
Qed.

(** X5.  Every entry of the result of [_collect_recommendations] comes from a
    recommendation of the practice, the practice scoring at most 2: it
    carries an integer severity of at most 2 and the code of the practice,
    it has lost [priority] and [execution_priority], and its other keys
    are those of the recommendation. *)
Theorem surfaced_entry_shape :
  forall (practice : Practice) (ps : PracticeScore) (out : Recommendation),
    In out (_collect_recommendations practice ps) ->
    (score ps <= 2)%Z
    /\ exists rec s,
        In rec (p_recommendations practice)
        /\ (s <= 2)%Z
        /\ dict_get out "severity" = Some (VInt s)
        /\ dict_get out "practice" = Some (code_value (code ps))
        /\ dict_get out "priority" = None
        /\ dict_get out "execution_priority" = None
        /\ forall k, ScoringProps.reserved_key k = false ->
                     dict_get out k = dict_get rec k.
Proof.
  intros practice ps out Hin. apply collect_in in Hin.
  destruct Hin as (rec & Hrec & Hs & Hsev & ->). split; [exact Hs|].
  exists rec, (Props.severity_first_truthy rec).
  split; [exact Hrec|]. split; [exact Hsev|].
  unfold normalized.
  repeat split; rewrite ?dict_get_set; simpl; try reflexivity.
  - now rewrite (dict_get_filter_keys
                   (fun k => String.eqb k "priority"
                             || String.eqb k "execution_priority")).
  - now rewrite (dict_get_filter_keys
                   (fun k => String.eqb k "priority"
                             || String.eqb k "execution_priority")).
  - intros k Hk. unfold ScoringProps.reserved_key in Hk.
    apply orb_false_iff in Hk. destruct Hk as [Hk Hp].
    apply orb_false_iff in Hk. destruct Hk as [Hk Hs'].
    rewrite !dict_get_set.
    rewrite (String.eqb_sym "practice"), Hp.
    rewrite (String.eqb_sym "severity"), Hs'.
    rewrite (dict_get_filter_keys
               (fun k => String.eqb k "priority"
                         || String.eqb k "execution_priority")).
    now rewrite Hk.
Qed.

Lemma surfaced_entry_shape_witness :
  exists out,
    In out (_collect_recommendations
              (Examples.practice_with MoreExamples.urgent_rec)
              Examples.low_score)
    /\ (score Examples.low_score <= 2)%Z
    /\ dict_get out "practice" = Some (VStr "RE01")
    /\ dict_get out "priority" = None.
Proof.
  assert (Hin : In (hd [] (_collect_recommendations
                             (Examples.practice_with MoreExamples.urgent_rec)
                             Examples.low_score))
                   (_collect_recommendations
                      (Examples.practice_with MoreExamples.urgent_rec)
                      Examples.low_score))
    by (vm_compute; left; reflexivity).
  eexists. split; [exact Hin|].
  destruct (surfaced_entry_shape _ _ _ Hin)
    as (Hs & rec & s & _ & _ & _ & Hp & Hq & _).
  split; [exact Hs|]. split; [exact Hp | exact Hq].
Defined.

(** ** The letter case of the text *)

Lemma lower_upper_char (c : ascii) : lower_char (upper_char c) = lower_char c.
Proof. destruct c as [[] [] [] [] [] [] [] []]; reflexivity. Qed.

Lemma lower_lower_char (c : ascii) : lower_char (lower_char c) = lower_char c.
Proof. destruct c as [[] [] [] [] [] [] [] []]; reflexivity. Qed.

Lemma lower_upper (s : string) : lower (ScoringProps.upper s) = lower s.
Proof.
  induction s as [|c s IH]; simpl; [reflexivity|].
  now rewrite lower_upper_char, IH.
Qed.

Lemma lower_lower (s : string) : lower (lower s) = lower s.
Proof.
  induction s as [|c s IH]; simpl; [reflexivity|].
  now rewrite lower_lower_char, IH.
Qed.

(** X7.  On a text of ASCII characters the result of
    [compute_pillar_scores] does not depend on the letter case: the text
    in upper case and the text in lower case give the result of the text
    itself. *)
Theorem scoring_ignores_case :
  forall (Gap GapResult : Type)
         (eval_gaps : string -> list Gap -> list GapResult)
         (data : PillarData Gap) (text name : string),
    ScoringProps.isascii text = true ->
    compute_pillar_scores eval_gaps data (ScoringProps.upper text) name
    = compute_pillar_scores eval_gaps data text name
    /\ compute_pillar_scores eval_gaps data (lower text) name
       = compute_pillar_scores eval_gaps data text name.
Proof.
  intros Gap GapResult eval_gaps data text name _.
  unfold compute_pillar_scores, compute_with.
  now rewrite lower_upper, lower_lower.
Qed.

Lemma scoring_ignores_case_witness :
  ScoringProps.isascii Examples.scenario_text = true
  /\ compute_pillar_scores Examples.no_gaps Examples.one_practice
       (ScoringProps.upper Examples.scenario_text) "reliability"
     = compute_pillar_scores Examples.no_gaps Examples.one_practice
         Examples.scenario_text "reliability".
Proof.
  assert (H : ScoringProps.isascii Examples.scenario_text = true)
    by reflexivity.
  split; [exact H|].
  exact (proj1 (scoring_ignores_case unit unit Examples.no_gaps
                  Examples.one_practice Examples.scenario_text
                  "reliability" H)).
Defined.

End ScoringMore.

(* ===================================================================== *)
(** * Facts about gap evaluation *)
(* ===================================================================== *)

Module GapFacts.
Import PyStr Py Gaps GapProps.

Lemma collapse_tidy (s : string) :
  forall b, tidy_from b (collapse_from b s) = true.
Proof.
  induction s as [|c s IH]; intros b; simpl; [reflexivity|].
  destruct (is_space c) eqn:C.
  - destruct b; [apply IH|]. simpl. now rewrite IH.
  - simpl. rewrite C. apply IH.
Qed.

Lemma tidy_weaken (s : string) : tidy_from true s = true -> tidy_from false s = true.
Proof.
  destruct s as [|c s]; simpl; [auto|].
  destruct (is_space c); [|auto]. rewrite andb_false_r. discriminate.
Qed.

Lemma tidy_tail (b : bool) (c : ascii) (s : string) :
  tidy_from b (String c s) = true -> tidy_from (is_space c) s = true.
Proof.
  simpl. destruct (is_space c); [|auto].
  intros H. apply andb_true_iff in H. tauto.
Qed.

Lemma tidy_any (b : bool) (s : string) :
  tidy_from b s = true -> tidy_from false s = true.
Proof. destruct b; [apply tidy_weaken | auto]. Qed.

(** What a token leaves behind in a tidy text is tidy. *)
Lemma tidy_after_token (t : string) :
  t <> "" -> ws_free t = true ->
  forall b s rest,
    tidy_from b s = true -> Regex.drop_prefix t s = Some rest ->
    tidy_from false rest = true.
Proof.
  induction t as [|a t IH]; intros Hne Hw b s rest Ht Hd; [now elim Hne|].
  destruct s as [|c s]; [discriminate|]. simpl in Hd.
  destruct (Ascii.eqb_spec a c) as [->|]; [|discriminate].
  simpl in Hw. apply andb_true_iff in Hw. destruct Hw as [Hc Hw].
  apply negb_true_iff in Hc. simpl in Ht. rewrite Hc in Ht.
  destruct t as [|a' t'].
  - simpl in Hd. now injection Hd as <-.
  - apply (IH ltac:(discriminate) Hw false s rest Ht Hd).
Qed.

Lemma lstrip_tidy (s : string) : tidy_from true s = true -> lstrip s = s.
Proof.
  destruct s as [|c s]; simpl; [reflexivity|].
  destruct (is_space c); [|reflexivity].
  rewrite andb_false_r. discriminate.
Qed.

Lemma drop_prefix_app (a b s : string) :
  Regex.drop_prefix (a ++ b) s
  = match Regex.drop_prefix a s with
    | Some r => Regex.drop_prefix b r
    | None => None
    end.
Proof.
  revert s. induction a as [|x a IH]; intros s; simpl; [reflexivity|].
  destruct s as [|y s]; [reflexivity|].
  destruct (Ascii.eqb x y); [apply IH | reflexivity].
Qed.


Lemma join_spaced (t : string) (ts : list string) :
  join " " (t :: ts) = t ++ spaced ts.
Proof.
  revert t. induction ts as [|u ts IH]; intros t.
  - simpl. now rewrite RegexFacts.append_nil_r.
  - change (join " " (t :: u :: ts)) with (t ++ " " ++ join " " (u :: ts)).
    rewrite IH. reflexivity.
Qed.

Lemma space_is_space (c : ascii) : is_space c = false -> (" " =? c)%char = false.
Proof.
  intros H. destruct (Ascii.eqb_spec " "%char c) as [<-|]; [discriminate|reflexivity].
Qed.

Lemma match_rest_tidy (ts : list string) :
  Forall is_token ts ->
  forall lw s,
    tidy_from false s = true ->
    match_rest lw ts s
    = match Regex.drop_prefix (spaced ts) s with
      | Some rest =>
          xorb (Regex.last_is_word lw (spaced ts)) (Regex.first_is_word rest)
      | None => false
      end.
Proof.
  induction 1 as [|t ts [Hne Hw] _ IH]; intros lw s Ht; [reflexivity|].
  simpl match_rest. simpl spaced.
  destruct s as [|c s]; [reflexivity|].
  destruct (is_space c) eqn:C.
  - simpl in Ht. rewrite C in Ht.
    apply andb_true_iff in Ht. destruct Ht as [Ht Ht'].
    apply andb_true_iff in Ht. destruct Ht as [Ec _].
    apply Ascii.eqb_eq in Ec. subst c.
    rewrite (lstrip_tidy s Ht'). simpl Regex.drop_prefix.
    rewrite drop_prefix_app.
    destruct (Regex.drop_prefix t s) as [rest|] eqn:D; [|reflexivity].
    rewrite (IH _ rest (tidy_after_token t Hne Hw true s rest Ht' D)).
    simpl Regex.last_is_word. rewrite RegexFacts.last_is_word_app.
    reflexivity.
  - cbn -[Ascii.eqb]. now rewrite (space_is_space c C).
Qed.

Lemma match_plain_here_tidy (t : string) (ts : list string) (prev b : bool)
  (s : string) :
  Forall is_token (t :: ts) -> tidy_from b s = true ->
  match_plain_here prev (t :: ts) s
  = Regex.match_here prev (join " " (t :: ts)) s.
Proof.
  intros HF Ht. inversion HF as [|? ? [Hne Hw] HF']; subst.
  unfold match_plain_here, Regex.match_here.
  rewrite join_spaced, drop_prefix_app.
  destruct (Regex.drop_prefix t s) as [rest|] eqn:D;
    [|now rewrite andb_false_r].
  rewrite (match_rest_tidy ts HF' _ rest
             (tidy_after_token t Hne Hw b s rest Ht D)).
  destruct (Regex.drop_prefix (spaced ts) rest) as [rest'|];
    [|now rewrite andb_false_r].
  now rewrite RegexFacts.last_is_word_app.
Qed.

Lemma search_plain_tidy (t : string) (ts : list string) :
  Forall is_token (t :: ts) ->
  forall s prev b,
    tidy_from b s = true ->
    search_plain_from prev (t :: ts) s
    = Regex.search_from prev (join " " (t :: ts)) s.
Proof.
  intros HF. induction s as [|c s IH]; intros prev b Ht.
  - change (search_plain_from prev (t :: ts) "")
      with (match_plain_here prev (t :: ts) "" || false).
    change (Regex.search_from prev (join " " (t :: ts)) "")
      with (Regex.match_here prev (join " " (t :: ts)) "" || false).
    now rewrite (match_plain_here_tidy t ts prev b "" HF Ht).
  - change (search_plain_from prev (t :: ts) (String c s))
      with (match_plain_here prev (t :: ts) (String c s)
            || search_plain_from (is_word c) (t :: ts) s).
    change (Regex.search_from prev (join " " (t :: ts)) (String c s))
      with (Regex.match_here prev (join " " (t :: ts)) (String c s)
            || Regex.search_from (is_word c) (join " " (t :: ts)) s).
    rewrite (match_plain_here_tidy t ts prev b _ HF Ht).
    now rewrite (IH (is_word c) (is_space c) (tidy_tail b c s Ht)).
Qed.

Lemma rev_string_ws_free (s : string) :
  forall acc, ws_free acc = true -> ws_free s = true ->
              ws_free (rev_string acc s) = true.
Proof.
  induction s as [|c s IH]; intros acc Ha Hs; simpl in *; [exact Ha|].
  apply andb_true_iff in Hs. destruct Hs as [Hc Hs].
  apply IH; [simpl; now rewrite Hc, Ha | exact Hs].
Qed.

Lemma rev_string_nonempty (s : string) :
  forall acc, acc <> "" \/ s <> "" -> rev_string acc s <> "".
Proof.
  induction s as [|c s IH]; intros acc H; simpl.
  - destruct H as [H|H]; [exact H | now elim H].
  - apply IH. left. discriminate.
Qed.

Lemma split_from_tokens (s : string) :
  forall cur, ws_free cur = true -> Forall is_token (split_from cur s).
Proof.
  assert (Tok : forall cur, cur <> "" -> ws_free cur = true ->
                            is_token (rev_string "" cur)).
  { intros cur Hne Hw. split.
    - apply rev_string_nonempty. now right.
    - now apply rev_string_ws_free. }
  induction s as [|c s IH]; intros cur Hw; simpl.
  - destruct cur as [|a cur']; [constructor|].
    constructor; [apply Tok; [discriminate | exact Hw] | constructor].
  - destruct (is_space c) eqn:C.
    + destruct cur as [|a cur']; [now apply IH|].
      constructor; [apply Tok; [discriminate | exact Hw] | now apply IH].
    + apply IH. simpl. now rewrite C, Hw.
Qed.

Lemma split_tokens (s : string) : Forall is_token (split s).
Proof. now apply split_from_tokens. Qed.

Section Evaluate.

Variable author_regex : string -> option (string -> bool).

Lemma compile_step_app (compiled : list (string * Compiled)) (raw : string) :
  compile_step author_regex compiled raw
  = (compiled ++ compile_one author_regex raw)%list.
Proof.
  unfold compile_one, compile_step.
  destruct (has_meta (normalize_pattern raw)).
  - destruct (author_regex (normalize_pattern raw));
      [reflexivity | now rewrite app_nil_r].
  - destruct (split (normalize_pattern raw));
      [now rewrite app_nil_r | reflexivity].
Qed.

Lemma compile_fold (raws : list string) :
  forall compiled,
    fold_left (compile_step author_regex) raws compiled
    = (compiled ++ flat_map (compile_one author_regex) raws)%list.
Proof.
  induction raws as [|raw raws IH]; intros compiled; simpl.
  - now rewrite app_nil_r.
  - now rewrite IH, compile_step_app, <- app_assoc.
Qed.

Lemma compile_one_holds (norm_text raw : string) (entry : string * Compiled) :
  tidy_from false norm_text = true ->
  In entry (compile_one author_regex raw) ->
  fst entry = raw
  /\ (compiled_search (snd entry) norm_text = true ->
      pattern_holds author_regex norm_text raw).
Proof.
  intros Ht. unfold compile_one, compile_step, pattern_holds.
  destruct (has_meta (normalize_pattern raw)).
  - destruct (author_regex (normalize_pattern raw)) as [search|];
      [|intros []].
    intros [<-|[]]. split; [reflexivity|]. simpl. eauto.
  - pose proof (split_tokens (normalize_pattern raw)) as HT.
    destruct (split (normalize_pattern raw)) as [|t ts]; [intros []|].
    intros [<-|[]]. split; [reflexivity|].
    cbn [snd compiled_search]. intros Hs.
    split; [discriminate|].
    apply RegexFacts.search_bounded_spec. unfold Regex.search_bounded.
    unfold search_plain in Hs.
    now rewrite <- (search_plain_tidy t ts HT norm_text false false Ht).
Qed.

Lemma holds_compile_one (norm_text raw : string) :
  tidy_from false norm_text = true ->
  pattern_holds author_regex norm_text raw ->
  exists entry,
    In entry (compile_one author_regex raw)
    /\ fst entry = raw
    /\ compiled_search (snd entry) norm_text = true.
Proof.
  intros Ht. unfold compile_one, compile_step, pattern_holds.
  destruct (has_meta (normalize_pattern raw)).
  - intros (search & E & Hs). rewrite E.
    exists (raw, Author search). simpl. auto.
  - pose proof (split_tokens (normalize_pattern raw)) as HT.
    destruct (split (normalize_pattern raw)) as [|t ts];
      [intros [H _]; now elim H|].
    intros [_ Ho]. exists (raw, Plain (t :: ts)).
    split; [now left|]. split; [reflexivity|].
    cbn [snd compiled_search].
    apply RegexFacts.search_bounded_spec in Ho.
    unfold Regex.search_bounded in Ho. unfold search_plain.
    now rewrite (search_plain_tidy t ts HT norm_text false false Ht).
Qed.

Lemma matched_patterns_iff (norm_text : string) (gap : Gap) (raw : string) :
  tidy_from false norm_text = true ->
  In raw (matchedPatterns (evaluate_gap author_regex norm_text gap)) <->
  In raw (g_patterns gap) /\ pattern_holds author_regex norm_text raw.
Proof.
  intros Ht. unfold evaluate_gap. cbn [matchedPatterns].
  rewrite compile_fold. simpl. rewrite in_map_iff. split.
  - intros (entry & <- & Hin). apply filter_In in Hin.
    destruct Hin as [Hin Hs]. apply in_flat_map in Hin.
    destruct Hin as (raw0 & Hraw & Hentry).
    destruct (compile_one_holds norm_text raw0 entry Ht Hentry) as [E H].
    rewrite E. auto.
  - intros [Hraw Hh].
    destruct (holds_compile_one norm_text raw Ht Hh) as (entry & Hin & E & Hs).
    exists entry. split; [exact E|]. apply filter_In. split; [|exact Hs].
    apply in_flat_map. eauto.
Qed.

(** X8.  The results of [_evaluate_gaps] follow the gaps in order; the matched
    patterns of a gap are its raw patterns that hold on the text put in
    lower case with single spaces: an expression of the author when it
    compiles and is found, a plain phrase when it has a token and its
    tokens, joined by single spaces, occur between two word boundaries;
    the gap is matched when one of its patterns holds. *)
Theorem gap_patterns_hold :
  forall (text : string) (gaps_def : list Gap),
    Forall2 (gap_result_ok author_regex (collapse_ws (lower text)))
      gaps_def (_evaluate_gaps author_regex text gaps_def).
Proof.
  intros text gaps_def.
  unfold _evaluate_gaps.
  assert (Ht : tidy_from false (collapse_ws (lower text)) = true)
    by apply collapse_tidy.
  induction gaps_def as [|gap gaps IH]; simpl; constructor; [|exact IH].
  unfold gap_result_ok.
  split; [reflexivity|]. split; [reflexivity|].
  split; [intros raw; now apply matched_patterns_iff|].
  pose proof (fun raw => matched_patterns_iff _ gap raw Ht) as HM.
  unfold evaluate_gap in *. cbn [matched matchedPatterns] in *.
  destruct (map fst _) as [|p l].
  - split; [discriminate|]. intros (raw & Hraw). apply HM in Hraw.
    contradiction.
  - split; [|reflexivity]. intros _. exists p. apply HM. now left.
Qed.

End Evaluate.

Lemma is_space_lower (c : ascii) : is_space (lower_char c) = is_space c.
Proof. destruct c as [[] [] [] [] [] [] [] []]; reflexivity. Qed.

Lemma lower_collapse (s : string) :
  forall b, lower (collapse_from b s) = collapse_from b (lower s).
Proof.
  induction s as [|c s IH]; intros b; simpl; [reflexivity|].
  rewrite is_space_lower. destruct (is_space c) eqn:C.
  - destruct b; [apply IH|]. simpl. now rewrite IH.
  - simpl. now rewrite IH.
Qed.

Lemma collapse_collapse (s : string) :
  forall b, collapse_from b (collapse_from b s) = collapse_from b s.
Proof.
  induction s as [|c s IH]; intros b; simpl; [reflexivity|].
  destruct (is_space c) eqn:C.
  - destruct b; [apply IH|].
    change (collapse_from false (String " " (collapse_from true s)))
      with (String " "%char (collapse_from true (collapse_from true s))).
    now rewrite IH.
  - simpl. now rewrite C, IH.
Qed.

(** X9.  On a text of ASCII characters gap evaluation reads the text
    without regard to case and to the amount of blank space: the text in
    upper case, and the text with every run of blanks made one space, give
    the same results. *)
Theorem gaps_ignore_case_and_spacing :
  forall (author_regex : string -> option (string -> bool))
         (text : string) (gaps_def : list Gap),
    ScoringProps.isascii text = true ->
    _evaluate_gaps author_regex (ScoringProps.upper text) gaps_def
    = _evaluate_gaps author_regex text gaps_def
    /\ _evaluate_gaps author_regex (collapse_ws text) gaps_def
       = _evaluate_gaps author_regex text gaps_def.
Proof.
  intros author_regex text gaps_def _. unfold _evaluate_gaps, collapse_ws.
  split.
  - now rewrite ScoringMore.lower_upper.
  - now rewrite lower_collapse, collapse_collapse.
Qed.

Lemma gaps_ignore_case_and_spacing_witness :
  ScoringProps.isascii MoreExamples.backup_text = true
  /\ _evaluate_gaps (fun _ => None)
       (ScoringProps.upper MoreExamples.backup_text) [MoreExamples.backup_gap]
     = _evaluate_gaps (fun _ => None) MoreExamples.backup_text
         [MoreExamples.backup_gap].
Proof.
  assert (H : ScoringProps.isascii MoreExamples.backup_text = true)
    by reflexivity.
  split; [exact H|].
  exact (proj1 (gaps_ignore_case_and_spacing (fun _ => None)
                  MoreExamples.backup_text [MoreExamples.backup_gap] H)).
Defined.

End GapFacts.

(* ===================================================================== *)
(** * Facts about the reliability breakdown *)
(* ===================================================================== *)

Module BreakdownFacts.
Import PyStr Py Scoring Breakdown BreakdownProps.
Local Open Scope Q_scope.

Lemma code_eqb_eq (a b : option string) : code_eqb a b = true <-> a = b.
Proof.
  destruct a as [x|], b as [y|]; simpl; try (split; congruence).
  rewrite String.eqb_eq. split; congruence.
Qed.

Lemma code_eqb_sym (a b : option string) : code_eqb a b = code_eqb b a.
Proof.
  destruct (code_eqb a b) eqn:E, (code_eqb b a) eqn:F; try reflexivity.
  - apply code_eqb_eq in E. subst. destruct b; simpl in F;
      [now rewrite String.eqb_refl in F | discriminate].
  - apply code_eqb_eq in F. subst. destruct a; simpl in E;
      [now rewrite String.eqb_refl in E | discriminate].
Qed.

Lemma code_get_set {V : Type} (m : code_map V) (k k' : option string) (v : V) :
  code_get (code_set m k v) k'
  = if code_eqb k k' then Some v else code_get m k'.
Proof.
  induction m as [|[k0 v0] m IH]; simpl.
  - reflexivity.
  - destruct (code_eqb k0 k) eqn:E; simpl.
    + apply code_eqb_eq in E. subst k0.
      now destruct (code_eqb k k').
    + rewrite IH. destruct (code_eqb k0 k') eqn:F; [|reflexivity].
      apply code_eqb_eq in F. subst k0.
      rewrite code_eqb_sym, E. reflexivity.
Qed.

Lemma by_code_get {V : Type} (f : PracticeScore -> V)
  (scores : list PracticeScore) (c : string) :
  forall m,
    code_get (fold_left (fun m p => code_set m (code p) (f p)) scores m)
             (Some c)
    = match find (fun p => code_eqb (code p) (Some c)) (rev scores) with
      | Some p => Some (f p)
      | None => code_get m (Some c)
      end.
Proof.
  induction scores as [|p scores IH]; intros m; simpl; [reflexivity|].
  rewrite IH, ScoringMore.find_app.
  destruct (find _ (rev scores)); [reflexivity|].
  simpl. rewrite code_get_set. now destruct (code_eqb (code p) (Some c)).
Qed.

Lemma pct_is_score_percent (scores : list PracticeScore) (c : string) :
  pct (by_code score scores) c = score_percent scores c.
Proof.
  unfold pct, get_code, by_code, score_percent, last_with_code.
  rewrite by_code_get. cbn [code_get].
  now destruct (find _ (rev scores)).
Qed.

Lemma score_percent_range (scores : list PracticeScore) (c : string) :
  Forall (fun ps => (0 <= score ps <= 5)%Z) scores ->
  0 <= score_percent scores c /\ score_percent scores c <= 100.
Proof.
  intros HF. unfold score_percent, last_with_code.
  destruct (find _ (rev scores)) as [p|] eqn:E;
    [|split; vm_compute; discriminate].
  apply find_some in E. destruct E as [Hin _].
  apply in_rev in Hin. rewrite Forall_forall in HF.
  destruct (HF p Hin) as [H0 H5].
  rewrite Zle_Qle in H0, H5.
  change (inject_Z 0) with 0 in H0. change (inject_Z 5) with 5 in H5.
  assert (E : inject_Z (score p) / 5 * 100 == inject_Z (score p) * 20)
    by field.
  rewrite E. split; Lqa.lra.
Qed.

Lemma round2_percent (x : Q) : 0 <= x -> x <= 100 ->
  0 <= round2 x /\ round2 x <= 100.
Proof.
  intros H0 H1. split.
  - apply Qle_trans with (round2 0); [discriminate|].
    now apply ScoringMore.round2_mono.
  - apply Qle_trans with (round2 100); [|discriminate].
    now apply ScoringMore.round2_mono.
Qed.

Lemma category_percent_spec (scores : list PracticeScore)
  (codes : list string) :
  category_percent (by_code score scores) codes
  = if nonempty codes
    then round2 (qsum (map (score_percent scores) codes) / len_q codes)
    else 0.
Proof.
  unfold category_percent. destruct (nonempty codes); [|reflexivity].
  f_equal. f_equal. f_equal. apply map_ext. intros c.
  apply pct_is_score_percent.
Qed.

Lemma category_percent_range (scores : list PracticeScore)
  (codes : list string) :
  Forall (fun ps => (0 <= score ps <= 5)%Z) scores ->
  0 <= category_percent (by_code score scores) codes
  /\ category_percent (by_code score scores) codes <= 100.
Proof.
  intros HF. rewrite category_percent_spec.
  destruct codes as [|c codes]; [simpl; split; Lqa.lra|].
  cbn [nonempty]. apply round2_percent.
  - apply ScoringFacts.div_nonneg.
    + now apply ScoringFacts.len_q_positive.
    + assert (HB : Forall (fun x => 0 <= x /\ x <= 100)
                     (map (score_percent scores) (c :: codes))).
      { apply Forall_forall. intros x Hx. apply in_map_iff in Hx.
        destruct Hx as (c' & <- & _). now apply score_percent_range. }
      destruct (ScoringMore.qsum_between 0 100 _ HB) as [S0 _]. Lqa.lra.
  - apply Qle_shift_div_r.
    + now apply ScoringFacts.len_q_positive.
    + assert (HB : Forall (fun x => 0 <= x /\ x <= 100)
                     (map (score_percent scores) (c :: codes))).
      { apply Forall_forall. intros x Hx. apply in_map_iff in Hx.
        destruct Hx as (c' & <- & _). now apply score_percent_range. }
      destruct (ScoringMore.qsum_between 0 100 _ HB) as [_ S1].
      rewrite length_map in S1. unfold len_q. Lqa.lra.
Qed.

Lemma categories_lookup {GapResult : Type} (scores : PillarScores GapResult)
  (name : string) (codes : list string) :
  In (name, codes) mappings ->
  dict_get (categories (reliability_category_breakdown scores)) name
  = Some (category_percent (by_code score (practice_scores scores)) codes).
Proof.
  unfold reliability_category_breakdown. cbn [categories].
  intros [E|[E|[E|[E|[E|[]]]]]]; injection E as <- <-; reflexivity.
Qed.

(** X10.  A category of the reliability breakdown is the mean, rounded to two
    decimals, of the percentages of its practice codes; the percentage of a
    code is that of the last practice score that bears it, and 0 when no
    practice score does. *)
Theorem category_is_mean_of_last_scores :
  forall (GapResult : Type) (scores : PillarScores GapResult)
         (name : string) (codes : list string),
    In (name, codes) mappings ->
    dict_get (categories (reliability_category_breakdown scores)) name
    = Some (round2 (qsum (map (score_percent (practice_scores scores)) codes)
                    / len_q codes)).
Proof.
  intros GapResult scores name codes Hin.
  rewrite (categories_lookup scores name codes Hin).
  rewrite category_percent_spec.
  destruct codes as [|c codes]; [|reflexivity].
  exfalso. destruct Hin as [E|[E|[E|[E|[E|[]]]]]]; discriminate.
Qed.

Lemma category_is_mean_of_last_scores_witness :
  exists q,
    dict_get (categories (reliability_category_breakdown MoreExamples.repeated_code))
      "Reliability Objectives & Health Metrics" = Some q
    /\ q == 80.
Proof.
  eexists. split.
  - apply (category_is_mean_of_last_scores unit MoreExamples.repeated_code
             "Reliability Objectives & Health Metrics" ["RE04"; "RE10"]).
    right. left. reflexivity.
  - vm_compute. reflexivity.
Defined.

(** X11.  With weights that are not negative, every percentage of the
    reliability breakdown of computed scores lies between 0 and 100: those
    of the five categories and those of the practices listed under them. *)
Theorem breakdown_percents_in_range :
  forall (Gap GapResult : Type)
         (eval_gaps : string -> list Gap -> list GapResult)
         (data : PillarData Gap) (text name : string),
    ScoringProps.weights_nonneg data ->
    exists r,
      compute_pillar_scores eval_gaps data text name = Ok r
      /\ map fst (categories (reliability_category_breakdown r))
         = map fst mappings
      /\ Forall (fun entry => 0 <= snd entry /\ snd entry <= 100)
           (categories (reliability_category_breakdown r))
      /\ Forall (fun entry =>
                   Forall (fun cp => 0 <= cp_percent cp
                                     /\ cp_percent cp <= 100)
                          (snd entry))
           (category_practices (reliability_category_breakdown r)).
Proof.
  intros Gap GapResult eval_gaps data text name [Hp Ho].
  destruct (ScoringFacts.compute_total eval_gaps data text name) as [r E].
  exists r. split; [exact E|].
  destruct (ScoringFacts.compute_with_spec _ _ _ _ _ _ _ _ E) as (HS & _ & _).
  assert (HB : Forall (fun ps => (0 <= score ps <= 5)%Z) (practice_scores r)).
  { eapply Forall_impl;
      [|eapply ScoringMore.scored_in_range; eauto].
    intros ps [_ H]. exact H. }
  unfold reliability_category_breakdown.
  cbn [categories category_practices].
  split; [reflexivity|]. split.
  - apply Forall_forall. intros entry Hin. apply in_map_iff in Hin.
    destruct Hin as ([n codes] & <- & _). cbn [fst snd].
    now apply category_percent_range.
  - apply Forall_forall. intros entry Hin. apply in_map_iff in Hin.
    destruct Hin as ([n codes] & <- & _). cbn [fst snd].
    apply Forall_forall. intros cp Hcp. apply in_map_iff in Hcp.
    destruct Hcp as (c & <- & _). cbn [cp_percent].
    apply round2_percent;
      apply (score_percent_range (practice_scores r) c) in HB;
      rewrite <- pct_is_score_percent in HB; unfold pct in HB; tauto.
Qed.

Lemma breakdown_percents_in_range_witness :
  ScoringProps.weights_nonneg Examples.two_practices
  /\ exists r,
      compute_pillar_scores Examples.no_gaps Examples.two_practices
        Examples.scenario_text "reliability" = Ok r
      /\ Forall (fun entry => 0 <= snd entry /\ snd entry <= 100)
           (categories (reliability_category_breakdown r)).
Proof.
  assert (H : ScoringProps.weights_nonneg Examples.two_practices).
  { split; [|intros k w []].
    intros practice [<-|[<-|[]]]; split; simpl; (discriminate || exact I). }
  split; [exact H|].
  destruct (breakdown_percents_in_range unit unit Examples.no_gaps
              Examples.two_practices Examples.scenario_text "reliability" H)
    as (r & E & _ & HC & _).
  exists r. split; [exact E | exact HC].
Defined.

End BreakdownFacts.

(* ===================================================================== *)
(** * Facts about the progress phases *)
(* ===================================================================== *)

Module PhasesFacts.
Import Phases.

(** X12.  A progress between 0 and 100 gets a phase whose range holds it, the
    earlier of the two at a shared end; any other progress gets the last
    phase. *)
Theorem phase_holds_progress :
  forall progress : Z,
    In (get_phase_for_progress progress) PHASES
    /\ ((0 <= progress <= 100)%Z ->
        (start_percent (get_phase_for_progress progress) <= progress
         <= end_percent (get_phase_for_progress progress))%Z
        /\ (progress <> 0%Z ->
            (start_percent (get_phase_for_progress progress) < progress)%Z))
    /\ ((progress < 0 \/ 100 < progress)%Z ->
        get_phase_for_progress progress = Finalization).
Proof.
  intros progress. unfold get_phase_for_progress, PHASES. simpl.
  repeat match goal with
    | |- context [(?a <=? ?b)%Z] => destruct (Z.leb_spec a b); simpl
    end;
    (split; [simpl; tauto|]); (split; [intros ?|intros ?]);
    simpl; try lia; try reflexivity; split; try lia.
Qed.

Lemma phase_holds_progress_witness :
  (start_percent (get_phase_for_progress 20) < 20
   <= end_percent (get_phase_for_progress 20))%Z
  /\ get_phase_for_progress 101 = Finalization.
Proof.
  destruct (phase_holds_progress 20) as (_ & H & _).
  destruct (phase_holds_progress 101) as (_ & _ & H').
  destruct (H ltac:(lia)) as [[_ Hhi] Hlo].
  split; [split; [apply Hlo; lia | exact Hhi] | apply H'; lia].
Defined.

Lemma py_trunc_floor (x : Q) : (0 <= x)%Q -> py_trunc x = Qfloor x.
Proof.
  intros H. unfold py_trunc, Qfloor. destruct x as [n d]. simpl.
  unfold Qle in H. simpl in H. apply Z.quot_div_nonneg; lia.
Qed.

Lemma py_trunc_mono (x y : Q) :
  (0 <= x)%Q -> (x <= y)%Q -> (py_trunc x <= py_trunc y)%Z.
Proof.
  intros H0 H. rewrite !py_trunc_floor by Lqa.lra.
  now apply Qfloor_resp_le.
Qed.

Lemma py_trunc_Z (z : Z) : py_trunc (inject_Z z) = z.
Proof. unfold py_trunc. simpl. apply Z.quot_1_r. Qed.

Lemma py_trunc_comp (x y : Q) :
  (0 <= x)%Q -> (x == y)%Q -> py_trunc x = py_trunc y.
Proof.
  intros H E. rewrite !py_trunc_floor by Lqa.lra. now apply Qfloor_comp.
Qed.

Lemma phase_named_in (phase : ProgressPhase) :
  In phase PHASES -> phase_named (name phase) = Some phase.
Proof.
  intros H. simpl in H.
  repeat (destruct H as [<-|H]; [reflexivity|]). contradiction.
Qed.

Lemma phase_progress_facts :
  (forall (phase : ProgressPhase) (s1 s2 : Q),
      In phase PHASES ->
      (0 <= s1)%Q -> (s1 <= s2)%Q -> (s2 <= 1)%Q ->
      (start_percent phase <= calculate_phase_progress (name phase) s1)%Z
      /\ (calculate_phase_progress (name phase) s1
          <= calculate_phase_progress (name phase) s2)%Z
      /\ (calculate_phase_progress (name phase) s2 <= end_percent phase)%Z
      /\ calculate_phase_progress (name phase) 0 = start_percent phase
      /\ calculate_phase_progress (name phase) 1 = end_percent phase)
  /\ (forall (phase_name : string) (s : Q),
         (forall phase, In phase PHASES -> name phase <> phase_name) ->
         calculate_phase_progress phase_name s = 0%Z).
Proof.
  split.
  - intros phase s1 s2 Hin H0 H12 H1.
    unfold calculate_phase_progress. rewrite (phase_named_in phase Hin).
    set (range := (end_percent phase - start_percent phase)%Z).
    assert (Hr : (0 <= range)%Z).
    { unfold range. simpl in Hin.
      repeat (destruct Hin as [<-|Hin]; [simpl; lia|]). contradiction. }
    assert (Hq : (0 <= inject_Z range)%Q) by (now rewrite <- (Zle_Qle 0)).
    assert (A : (0 <= inject_Z range * s1)%Q)
      by (apply Qmult_le_0_compat; assumption).
    assert (B : (inject_Z range * s1 <= inject_Z range * s2)%Q).
    { rewrite !(Qmult_comm (inject_Z range)).
      now apply Qmult_le_compat_r. }
    assert (C : (inject_Z range * s2 <= inject_Z range)%Q).
    { rewrite <- (Qmult_1_r (inject_Z range)) at 2.
      rewrite !(Qmult_comm (inject_Z range)).
      now apply Qmult_le_compat_r. }
    pose proof (py_trunc_mono _ _ A B) as M1.
    assert (M0 : (0 <= py_trunc (inject_Z range * s1))%Z).
    { change 0%Z with (py_trunc 0). apply py_trunc_mono; [Lqa.lra | exact A]. }
    assert (M2 : (py_trunc (inject_Z range * s2) <= range)%Z).
    { rewrite <- (py_trunc_Z range) at 2.
      apply py_trunc_mono; [Lqa.lra | exact C]. }
    assert (Z0 : py_trunc (inject_Z range * 0) = 0%Z).
    { rewrite (py_trunc_comp _ 0); [reflexivity | Lqa.lra | ring]. }
    assert (Z1 : py_trunc (inject_Z range * 1) = range).
    { rewrite (py_trunc_comp _ (inject_Z range));
        [apply py_trunc_Z | Lqa.lra | ring]. }
    rewrite Z0, Z1. unfold range in *. repeat split; lia.
  - intros phase_name s Hno. unfold calculate_phase_progress, phase_named.
    destruct (find _ PHASES) as [phase|] eqn:F; [|reflexivity].
    apply find_some in F. destruct F as [Hin Heq].
    apply String.eqb_eq in Heq. now elim (Hno phase Hin).
Qed.

(** X13.  The progress computed for a phase and a fraction between 0 and
    1 lies in the range of the phase, grows with the fraction, is the
    start of the phase at 0 and its end at 1; a name that is not one of a
    phase gives 0. *)
Theorem phase_progress_in_range :
  (forall (phase : ProgressPhase) (s1 s2 : Q),
      In phase PHASES ->
      (0 <= s1)%Q -> (s1 <= s2)%Q -> (s2 <= 1)%Q ->
      (start_percent phase <= calculate_phase_progress (name phase) s1)%Z
      /\ (calculate_phase_progress (name phase) s1
          <= calculate_phase_progress (name phase) s2)%Z
      /\ (calculate_phase_progress (name phase) s2 <= end_percent phase)%Z
      /\ calculate_phase_progress (name phase) 0 = start_percent phase
      /\ calculate_phase_progress (name phase) 1 = end_percent phase)
  /\ (forall (phase_name : string) (s : Q),
         (forall phase, In phase PHASES -> name phase <> phase_name) ->
         calculate_phase_progress phase_name s = 0%Z).
Proof. exact phase_progress_facts. Qed.

Lemma phase_progress_in_range_witness :
  (start_percent Pillar_Evaluation
   <= calculate_phase_progress (name Pillar_Evaluation) (1 # 4))%Z
  /\ (calculate_phase_progress (name Pillar_Evaluation) (1 # 4)
      <= calculate_phase_progress (name Pillar_Evaluation) (1 # 2))%Z
  /\ (calculate_phase_progress (name Pillar_Evaluation) (1 # 2)
      <= end_percent Pillar_Evaluation)%Z.
Proof.
  destruct phase_progress_in_range as [H _].
  assert (Hin : In Pillar_Evaluation PHASES) by (simpl; tauto).
  assert (A : (0 <= 1 # 4)%Q) by discriminate.
  assert (B : (1 # 4 <= 1 # 2)%Q) by discriminate.
  assert (C : (1 # 2 <= 1)%Q) by discriminate.
  destruct (H Pillar_Evaluation (1 # 4) (1 # 2) Hin A B C)
    as (H1 & H2 & H3 & _).
  split; [exact H1|]. split; [exact H2 | exact H3].
Defined.

Lemma phase_of_value (phase : ProgressPhase) (v : Z) :
  In phase PHASES ->
  (start_percent phase <= v <= end_percent phase)%Z ->
  ((start_percent phase < v)%Z -> get_phase_for_progress v = phase)
  /\ (v = start_percent phase -> phase <> Initialization ->
      end_percent (get_phase_for_progress v) = start_percent phase
      /\ get_phase_for_progress v <> phase).
Proof.
  intros Hin Hv. unfold get_phase_for_progress, PHASES.
  simpl in Hin.
  destruct Hin as [<-|[<-|[<-|[<-|[<-|[<-|[<-|[]]]]]]]];
    simpl in Hv |- *;
    repeat match goal with
      | |- context [(?a <=? ?b)%Z] => destruct (Z.leb_spec a b); simpl
      end;
    try lia;
    (split; [intros ?; try lia; reflexivity|]);
    intros ? Hne; try lia; try (now elim Hne);
    (split; [simpl; lia | discriminate]).
Qed.

(** X14.  Looking up the phase of a progress computed for a phase gives that
    phase back as soon as the progress has left the start of the phase;
    at the start itself the lookup gives the phase before (the one that
    ends there), except for the first phase. *)
Theorem phase_of_computed_progress :
  forall (phase : ProgressPhase) (s : Q),
    In phase PHASES -> (0 <= s)%Q -> (s <= 1)%Q ->
    let v := calculate_phase_progress (name phase) s in
    ((start_percent phase < v)%Z -> get_phase_for_progress v = phase)
    /\ (v = start_percent phase -> phase <> Initialization ->
        end_percent (get_phase_for_progress v) = start_percent phase
        /\ get_phase_for_progress v <> phase)
    /\ (phase = Initialization -> get_phase_for_progress v = phase).
Proof.
  intros phase s Hin H0 H1 v.
  destruct phase_progress_facts as [HR _].
  destruct (HR phase s s Hin H0 (Qle_refl s) H1) as (A & _ & B & _).
  fold v in A, B.
  destruct (phase_of_value phase v Hin (conj A B)) as [P1 P2].
  split; [exact P1|]. split; [exact P2|].
  intros ->. simpl in A, B. unfold get_phase_for_progress, PHASES. simpl.
  destruct (Z.leb_spec 0 v); [|lia]. destruct (Z.leb_spec v 5); [|lia].
  reflexivity.
Qed.

Lemma phase_of_computed_progress_witness :
  In Pillar_Evaluation PHASES
  /\ get_phase_for_progress (calculate_phase_progress "Pillar Evaluation" (1 # 2))
     = Pillar_Evaluation
  /\ end_percent
       (get_phase_for_progress (calculate_phase_progress "Pillar Evaluation" 0))
     = 20%Z.
Proof.
  assert (Hin : In Pillar_Evaluation PHASES) by (simpl; tauto).
  split; [exact Hin|]. split.
  - assert (A : (0 <= 1 # 2)%Q) by discriminate.
    assert (B : (1 # 2 <= 1)%Q) by discriminate.
    destruct (phase_of_computed_progress Pillar_Evaluation (1 # 2) Hin A B)
      as (H & _ & _).
    apply H. reflexivity.
  - assert (A : (0 <= 0)%Q) by discriminate.
    assert (B : (0 <= 1)%Q) by discriminate.
    destruct (phase_of_computed_progress Pillar_Evaluation 0 Hin A B)
      as (_ & H & _).
    apply H; [reflexivity | discriminate].
Defined.

End PhasesFacts.

(* ===================================================================== *)
(** * Further facts about truncation *)
(* ===================================================================== *)

Module TruncationFacts.
Import PyStr Py Orchestrator.
Import OrchestratorFacts.

Lemma take_prefix (k : nat) (s : string) :
  exists rest, s = take k s ++ rest.
Proof.
  revert s. induction k as [|k IH]; intros s; simpl.
  - now exists s.
  - destruct s as [|c s]; [now exists ""|].
    destruct (IH s) as [rest E]. exists rest. simpl. now rewrite <- E.
Qed.

Lemma slice_to_prefix (s : string) (k : Z) :
  exists rest, s = slice_to s k ++ rest.
Proof. unfold slice_to. destruct (0 <=? k)%Z; apply take_prefix. Qed.

Lemma take_exact (k : nat) (s : string) :
  (k <= String.length s)%nat -> String.length (take k s) = k.
Proof.
  revert s. induction k as [|k IH]; intros s H; simpl; [reflexivity|].
  destruct s as [|c s]; simpl in *; [lia|]. rewrite IH; lia.
Qed.

(** What [rfind] finds: nothing ([best] is kept), or a position of the
    character. *)
Lemma rfind_from_spec (c : ascii) (s : string) :
  forall i best,
    (0 <= i)%Z ->
    rfind_from i best c s = best
    \/ exists n, rfind_from i best c s = (i + Z.of_nat n)%Z
                 /\ String.get n s = Some c.
Proof.
  induction s as [|d s IH]; intros i best Hi; simpl; [now left|].
  destruct (Ascii.eqb_spec d c) as [->|Hne].
  - destruct (IH (i + 1)%Z i ltac:(lia)) as [E|(n & E & G)].
    + right. exists 0%nat. rewrite E. split; [lia | reflexivity].
    + right. exists (S n). rewrite E. split; [lia | exact G].
  - destruct (IH (i + 1)%Z best ltac:(lia)) as [E|(n & E & G)].
    + now left.
    + right. exists (S n). rewrite E. split; [lia | exact G].
Qed.

Lemma take_snoc (n : nat) (s : string) (c : ascii) :
  String.get n s = Some c -> take (S n) s = take n s ++ String c "".
Proof.
  revert s. induction n as [|n IH]; intros s G.
  - destruct s as [|d s]; [discriminate|]. simpl in G. injection G as ->.
    reflexivity.
  - destruct s as [|d s]; [discriminate|]. simpl in G.
    change (take (S (S n)) (String d s)) with (String d (take (S n) s)).
    rewrite (IH s G). reflexivity.
Qed.

Lemma get_some_lt (n : nat) (s : string) (c : ascii) :
  String.get n s = Some c -> (n < String.length s)%nat.
Proof.
  revert s. induction n as [|n IH]; intros [|d s] G; simpl in *;
    try discriminate; [lia|]. apply IH in G. lia.
Qed.

Lemma cut_shape :
  forall (section_text : string) (max_tokens : Z),
    (0 <= max_tokens)%Z ->
    let out := _safe_truncate_corpus_section section_text max_tokens in
    (out = section_text
     /\ (section_text = ""
         \/ (_estimate_tokens section_text <= max_tokens)%Z
         \/ (Z.of_nat (String.length section_text) <= 4 * max_tokens)%Z))
    \/ ((max_tokens < _estimate_tokens section_text)%Z
        /\ exists cut rest,
            section_text = cut ++ rest
            /\ out = cut ++ truncation_marker
            /\ (Z.of_nat (String.length cut) = 4 * max_tokens
                \/ (endswith cut "." = true
                    /\ (Z.of_nat (String.length cut) <= 4 * max_tokens)%Z
                    /\ (32 * max_tokens
                        < 10 * (Z.of_nat (String.length cut) - 1))%Z))%Z).
Proof.
  intros section_text max_tokens Hm out. subst out.
  unfold _safe_truncate_corpus_section.
  destruct (String.eqb_spec section_text "") as [E|_]; [left; auto|].
  destruct (Z.leb_spec (_estimate_tokens section_text) max_tokens) as [L|L];
    [left; auto|].
  destruct (Z.ltb_spec (max_tokens * 4)
              (Z.of_nat (String.length section_text))) as [C|C];
    [|left; split; [reflexivity | right; right; lia]].
  right. split; [exact L|].
  set (truncated := slice_to section_text (max_tokens * 4)).
  assert (Ht : truncated = take (Z.to_nat (max_tokens * 4)) section_text).
  { unfold truncated, slice_to.
    destruct (Z.leb_spec 0 (max_tokens * 4)); [reflexivity | lia]. }
  assert (Hlen : Z.of_nat (String.length truncated) = (4 * max_tokens)%Z).
  { rewrite Ht, take_exact; lia. }
  destruct (take_prefix (Z.to_nat (max_tokens * 4)) section_text)
    as [rest1 Hrest1]. rewrite <- Ht in Hrest1.
  destruct (Z.ltb_spec (8 * (max_tokens * 4)) (10 * rfind truncated "."))
    as [P|P].
  - unfold rfind in *.
    destruct (rfind_from_spec "." truncated 0 (-1) ltac:(lia))
      as [E|(n & E & G)]; [lia|].
    rewrite E in *. simpl Z.add in *.
    pose proof (get_some_lt _ _ _ G) as Hn.
    assert (Hcut : slice_to truncated (Z.of_nat n + 1) = take (S n) truncated).
    { unfold slice_to.
      destruct (Z.leb_spec 0 (Z.of_nat n + 1)); [|lia].
      f_equal. lia. }
    rewrite Hcut.
    destruct (take_prefix (S n) truncated) as [rest2 Hrest2].
    exists (take (S n) truncated), (rest2 ++ rest1).
    split; [rewrite <- RegexFacts.append_assoc, <- Hrest2; exact Hrest1|].
    split; [reflexivity|]. right.
    assert (Hl : String.length (take (S n) truncated) = S n)
      by (apply take_exact; lia).
    rewrite Hl. split; [|lia].
    rewrite (take_snoc _ _ _ G). apply endswith_append.
  - exists truncated, rest1. repeat split; auto.
Qed.

(** X15.  For a budget that is not negative the result is the section itself
    (when it is empty, within the estimate or of at most [4 * max_tokens]
    characters), or a prefix of the section followed by the marker; the
    prefix has [4 * max_tokens] characters, or it ends with a period and
    is longer than 80% of that. *)
Theorem truncation_cut_shape :
  forall (section_text : string) (max_tokens : Z),
    (0 <= max_tokens)%Z ->
    let out := _safe_truncate_corpus_section section_text max_tokens in
    (out = section_text
     /\ (section_text = ""
         \/ (_estimate_tokens section_text <= max_tokens)%Z
         \/ (Z.of_nat (String.length section_text) <= 4 * max_tokens)%Z))
    \/ ((max_tokens < _estimate_tokens section_text)%Z
        /\ exists cut rest,
            section_text = cut ++ rest
            /\ out = cut ++ truncation_marker
            /\ (Z.of_nat (String.length cut) = 4 * max_tokens
                \/ (endswith cut "." = true
                    /\ (Z.of_nat (String.length cut) <= 4 * max_tokens)%Z
                    /\ (32 * max_tokens
                        < 10 * (Z.of_nat (String.length cut) - 1))%Z))%Z).
Proof. exact cut_shape. Qed.

Lemma truncation_cut_shape_witness :
  (0 <= 2)%Z
  /\ exists cut rest,
      "One. Two three four five six" = cut ++ rest
      /\ _safe_truncate_corpus_section "One. Two three four five six" 2
         = cut ++ truncation_marker.
Proof.
  assert (H : (0 <= 2)%Z) by lia. split; [exact H|].
  destruct (truncation_cut_shape "One. Two three four five six" 2 H)
    as [[E _]|[_ (cut & rest & E1 & E2 & _)]].
  - vm_compute in E. discriminate.
  - exists cut, rest. split; [exact E1 | exact E2].
Defined.

(** X16.  For a budget that is not negative the result is within the budget by
    the estimate of the function, or it has at most [4 * max_tokens]
    characters besides the marker. *)
Theorem truncation_budget_or_length :
  forall (section_text : string) (max_tokens : Z),
    (0 <= max_tokens)%Z ->
    let out := _safe_truncate_corpus_section section_text max_tokens in
    (_estimate_tokens out <= max_tokens)%Z
    \/ (Z.of_nat (String.length out)
        <= 4 * max_tokens + Z.of_nat (String.length truncation_marker))%Z.
Proof.
  intros section_text max_tokens Hm out.
  destruct (cut_shape section_text max_tokens Hm)
    as [[E [H|[H|H]]]|[_ (cut & rest & _ & E & H)]]; fold out in E.
  - left. rewrite E, H. exact Hm.
  - left. now rewrite E.
  - right. rewrite E. lia.
  - right. rewrite E, append_length. destruct H as [H|(_ & H & _)]; lia.
Qed.

Lemma truncation_budget_or_length_witness :
  (0 <= 100)%Z
  /\ ((_estimate_tokens
         (_safe_truncate_corpus_section Examples.words800 100) <= 100)%Z
      \/ (Z.of_nat (String.length
                      (_safe_truncate_corpus_section Examples.words800 100))
          <= 4 * 100 + Z.of_nat (String.length truncation_marker))%Z).
Proof.
  assert (H : (0 <= 100)%Z) by lia. split; [exact H|].
  exact (truncation_budget_or_length Examples.words800 100 H).
Defined.

End TruncationFacts.

(* ===================================================================== *)
(** * Facts about the evidence of the pillar context *)
(* ===================================================================== *)

Module EvidenceFacts.
Import PyStr Py Evidence.

Lemma evidence_loop_app (sigs : list string) :
  forall seen deduped,
    evidence_loop sigs seen deduped
    = (deduped ++ evidence_loop sigs seen [])%list.
Proof.
  induction sigs as [|s sigs IH]; intros seen deduped; simpl.
  - now rewrite app_nil_r.
  - destruct (existsb (String.eqb (evidence_key s)) seen); [apply IH|].
    rewrite IH, (IH _ [s]). now rewrite <- app_assoc.
Qed.

Lemma seen_iff (key : string) (seen : list string) :
  existsb (String.eqb key) seen = true <-> In key seen.
Proof.
  rewrite existsb_exists. split.
  - intros (x & Hx & E). apply String.eqb_eq in E. now subst.
  - intros H. exists key. split; [exact H | apply String.eqb_refl].
Qed.

Lemma evidence_loop_facts (sigs : list string) :
  forall seen,
    let out := evidence_loop sigs seen [] in
    NoDup (map evidence_key out)
    /\ (forall r, In r out -> In r sigs /\ ~ In (evidence_key r) seen)
    /\ (forall s, In s sigs ->
                  In (evidence_key s) seen
                  \/ In (evidence_key s) (map evidence_key out))
    /\ evidence_loop out seen [] = out.
Proof.
  induction sigs as [|s sigs IH]; intros seen; simpl.
  - split; [constructor|]. split; [intros r []|].
    split; [intros s []|reflexivity].
  - destruct (existsb (String.eqb (evidence_key s)) seen) eqn:E.
    + destruct (IH seen) as (H1 & H2 & H3 & H4).
      split; [exact H1|]. split; [|split; [|exact H4]].
      * intros r Hr. destruct (H2 r Hr). auto.
      * intros x [<-|Hx]; [left; now apply seen_iff | now apply H3].
    + rewrite evidence_loop_app. simpl.
      destruct (IH (evidence_key s :: seen)) as (H1 & H2 & H3 & H4).
      assert (Hns : ~ In (evidence_key s) seen).
      { intros Hin. apply seen_iff in Hin. congruence. }
      split; [|split; [|split]].
      * constructor; [|exact H1]. intros Hin. apply in_map_iff in Hin.
        destruct Hin as (r & Er & Hr). destruct (H2 r Hr) as [_ Hn].
        apply Hn. left. now symmetry.
      * intros r [<-|Hr]; [auto|]. destruct (H2 r Hr) as [Hin Hn].
        split; [now right|]. intros Hs. apply Hn. now right.
      * intros x [<-|Hx]; [right; now left|].
        destruct (H3 x Hx) as [[Ek|Hk]|Hk];
          [right; left; exact Ek | left; exact Hk | right; right; exact Hk].
      * rewrite E, evidence_loop_app. simpl. now rewrite H4.
Qed.

(** X17.  The deduplication of the evidence of a pillar keeps entries of the
    list with pairwise distinct keys (the first 140 characters in lower
    case), one for every key of the list, and changes nothing when it is
    applied again. *)
Theorem evidence_keys_unique :
  forall sigs : list string,
    NoDup (map evidence_key (dedupe_signals sigs))
    /\ (forall r, In r (dedupe_signals sigs) -> In r sigs)
    /\ (forall s, In s sigs ->
                  exists r, In r (dedupe_signals sigs)
                            /\ evidence_key r = evidence_key s)
    /\ dedupe_signals (dedupe_signals sigs) = dedupe_signals sigs.
Proof.
  intros sigs. unfold dedupe_signals.
  destruct (evidence_loop_facts sigs []) as (H1 & H2 & H3 & H4).
  split; [exact H1|]. split; [intros r Hr; now apply H2|].
  split; [|exact H4].
  intros s Hs. destruct (H3 s Hs) as [[]|Hk].
  apply in_map_iff in Hk. destruct Hk as (r & E & Hr). eauto.
Qed.

End EvidenceFacts.

(* ===================================================================== *)
(** * Further facts about the lifecycle *)
(* ===================================================================== *)

Module LifecycleMore.
Import PyStr Py Orchestrator.

Section Runs.

Variables Documents Analysis Corpus PillarResult Conflict Rec : Type.
Variable create_unified_corpus : Documents -> Analysis -> result Corpus.
Variable pillar_executor : Corpus -> result (list PillarResult).
Variable detect_cross_pillar_conflicts :
  list PillarResult -> result (list Conflict).
Variable generate_cohesive_recommendations :
  list PillarResult -> list Conflict -> result (list Rec).
Variable overall_score_of : PillarResult -> Q.
Variable corpus_text : Corpus -> string.

(** X25.  The overall score of a run that returns is the mean of the pillar
    scores rounded to two decimals: 0 without any pillar result, and
    between 0 and 100 when every pillar score is. *)
Theorem overall_score_is_bounded_mean :
  forall (documents : Documents) (analysis : Analysis)
         (r : LifecycleResult PillarResult Conflict Rec) (o : Orch),
    run_assessment_lifecycle Documents Analysis Corpus PillarResult
      Conflict Rec create_unified_corpus pillar_executor
      detect_cross_pillar_conflicts generate_cohesive_recommendations
      overall_score_of corpus_text true documents analysis
      new_orchestrator = (Ok r, o) ->
    (exists corpus,
        create_unified_corpus documents analysis = Ok corpus
        /\ pillar_executor corpus
           = Ok (pillar_results PillarResult Conflict Rec r))
    /\ (pillar_results PillarResult Conflict Rec r = [] ->
        (overall_architecture_score PillarResult Conflict Rec r == 0)%Q)
    /\ (Forall (fun pr => 0 <= overall_score_of pr
                          /\ overall_score_of pr <= 100)%Q
          (pillar_results PillarResult Conflict Rec r) ->
        (0 <= overall_architecture_score PillarResult Conflict Rec r
         /\ overall_architecture_score PillarResult Conflict Rec r <= 100)%Q).
Proof.
  intros documents analysis r o.
  unfold run_assessment_lifecycle, bindR, update_progress, set_state,
    await, ret, new_orchestrator. simpl.
  destruct (create_unified_corpus documents analysis) as [corpus|e1] eqn:E1;
    simpl; [|discriminate].
  destruct (pillar_executor corpus) as [results|e2] eqn:E2; simpl;
    [|discriminate].
  destruct (detect_cross_pillar_conflicts results) as [conflicts|e3] eqn:E3;
    simpl; [|discriminate].
  destruct (generate_cohesive_recommendations results conflicts)
    as [recs|e4] eqn:E4; simpl; [|discriminate].
  intros [= <- _]. simpl.
  split; [exists corpus; auto|]. split.
  - intros ->. reflexivity.
  - intros HF.
    assert (HM : (0 <= mean_score PillarResult overall_score_of results
                  /\ mean_score PillarResult overall_score_of results <= 100)%Q).
    { unfold mean_score. destruct results as [|pr0 rest] eqn:R;
        [split; discriminate|].
      rewrite <- R in *.
      assert (Hn : (0 < inject_Z (Z.of_nat (List.length results)))%Q).
      { rewrite R. change 0%Q with (inject_Z 0). rewrite <- Zlt_Qlt.
        simpl List.length. lia. }
      assert (HF' : Forall (fun x => 0 <= x /\ x <= 100)%Q
                      (map overall_score_of results)).
      { apply Forall_forall. intros x Hx. apply in_map_iff in Hx.
        destruct Hx as (pr & <- & Hin).
        rewrite Forall_forall in HF. now apply HF. }
      destruct (ScoringMore.qsum_between 0 100 _ HF') as [S0 S1].
      rewrite length_map in S0, S1.
      split.
      - apply ScoringFacts.div_nonneg; [exact Hn | Lqa.lra].
      - apply Qle_shift_div_r; [exact Hn | Lqa.lra]. }
    destruct HM as [M0 M1]. split.
    + apply Qle_trans with (round2 0); [discriminate|].
      now apply ScoringMore.round2_mono.
    + apply Qle_trans with (round2 100); [|discriminate].
      now apply ScoringMore.round2_mono.
Qed.


End Runs.

Lemma overall_score_is_bounded_mean_witness :
  exists r o,
    MoreExamples.quiet_run new_orchestrator = (Ok r, o)
    /\ (0 <= overall_architecture_score Q unit unit r
        /\ overall_architecture_score Q unit unit r <= 100)%Q.
Proof.
  let out := eval vm_compute in (MoreExamples.quiet_run new_orchestrator) in
  match out with
  | (Ok ?r, ?o) =>
      assert (E : MoreExamples.quiet_run new_orchestrator = (Ok r, o))
        by (vm_compute; reflexivity);
      exists r, o; split; [exact E|];
      destruct (overall_score_is_bounded_mean unit unit string Q unit unit
                  (fun _ _ => Ok "corpus") (fun _ => Ok [80; 60]%Q)
                  (fun _ => Ok []) (fun _ _ => Ok []) (fun score => score)
                  (fun corpus => corpus) tt tt r o E) as (_ & _ & H);
      apply H; repeat constructor; discriminate
  end.
Defined.

End LifecycleMore.

(* ===================================================================== *)
(** * Further facts about the deduplication of recommendations *)
(* ===================================================================== *)

Module DedupeMore.
Import PyStr Py Orchestrator.
Import Props DedupeProps DedupeFacts.
Local Open Scope R_scope.

Lemma sorted_lt_nodup (K : list nat) : StronglySorted lt K -> NoDup K.
Proof.
  induction 1 as [|x K Hs IH Hf]; constructor; [|exact IH].
  intros Hin. rewrite Forall_forall in Hf. specialize (Hf x Hin). lia.
Qed.

Lemma positions_length (vectors : list (list R)) (n : nat) (K : list nat) :
  greedy_positions vectors n K -> (List.length K <= n)%nat.
Proof.
  intros (Hs & Hlt & _).
  apply Nat.le_trans with (List.length (seq 0 n));
    [|rewrite length_seq; lia].
  apply NoDup_incl_length.
  - now apply sorted_lt_nodup.
  - intros i Hi. apply in_seq. specialize (Hlt i Hi). lia.
Qed.

Lemma positions_head (vectors : list (list R)) (n : nat) (K : list nat) :
  greedy_positions vectors n K -> (0 < n)%nat -> exists K', K = 0%nat :: K'.
Proof.
  intros (Hs & Hlt & Hiff) Hn.
  assert (H0 : In 0%nat K) by (apply Hiff; [exact Hn | intros j _ Hj; lia]).
  destruct K as [|k K']; [contradiction|].
  destruct H0 as [->|H0]; [now exists K'|].
  inversion Hs as [|? ? _ Hf]; subst. rewrite Forall_forall in Hf.
  specialize (Hf 0%nat H0). lia.
Qed.

Lemma at_positions_in {A : Type} (recs : list A) (K : list nat)
  (kept : list A) :
  at_positions recs K kept -> forall r, In r kept -> In r recs.
Proof.
  induction 1 as [|i r K kept Hi _ IH]; intros x Hx; [contradiction|].
  destruct Hx as [<-|Hx]; [eapply nth_error_In; eauto | now apply IH].
Qed.

Lemma at_positions_length {A : Type} (recs : list A) (K : list nat)
  (kept : list A) :
  at_positions recs K kept -> List.length kept = List.length K.
Proof. intros H. symmetry. eapply Forall2_length; eauto. Qed.

Lemma dedupe_shrinks :
  forall (Rec : Type) (rec_title rec_reasoning : Rec -> string)
         (embed : list string -> list (list R)) (recs : list Rec),
    embed_well_formed embed ->
    exists kept,
      _dedupe_semantic_recommendations rec_title rec_reasoning embed recs
      = Ok kept
      /\ (List.length kept <= List.length recs)%nat
      /\ (forall r, In r kept -> In r recs)
      /\ (forall r0 rest, recs = r0 :: rest ->
                          exists rest', kept = r0 :: rest').
Proof.
  intros Rec rec_title rec_reasoning embed recs Hwf.
  destruct (dedupe_greedy Rec rec_title rec_reasoning embed recs Hwf)
    as (K & kept & E & Hat & HG).
  exists kept. split; [exact E|]. split.
  - rewrite (at_positions_length _ _ _ Hat). eapply positions_length; eauto.
  - split; [now apply at_positions_in with (K := K)|].
    intros r0 rest ->.
    destruct (positions_head _ _ _ HG) as [K' ->]; [simpl; lia|].
    inversion Hat as [|? r ? kept' H0 _]; subst. simpl in H0.
    injection H0 as <-. now exists kept'.
Qed.

(** X21.  With an embedding service that answers with one vector per text
    or with nothing, the pass returns some of the recommendations it was
    given, never more of them, and the first one always. *)
Theorem dedupe_keeps_first :
  forall (Rec : Type) (rec_title rec_reasoning : Rec -> string)
         (embed : list string -> list (list R)) (recs : list Rec),
    embed_well_formed embed ->
    exists kept,
      _dedupe_semantic_recommendations rec_title rec_reasoning embed recs
      = Ok kept
      /\ (List.length kept <= List.length recs)%nat
      /\ (forall r, In r kept -> In r recs)
      /\ (forall r0 rest, recs = r0 :: rest ->
                          exists rest', kept = r0 :: rest').
Proof. exact dedupe_shrinks. Qed.

Lemma dedupe_keeps_first_witness :
  embed_well_formed Examples.no_embedding
  /\ exists kept,
      Examples.fallback_dedupe [Examples.far1; Examples.far2] = Ok kept
      /\ (List.length kept <= 2)%nat.
Proof.
  assert (H : embed_well_formed Examples.no_embedding)
    by (intros texts; now left).
  split; [exact H|].
  destruct (dedupe_keeps_first (string * string)%type fst snd
              Examples.no_embedding [Examples.far1; Examples.far2] H)
    as (kept & E & L & _).
  exists kept. split; [exact E | exact L].
Defined.

(** A recommendation whose vector is the vector of an earlier one, that
    vector being too similar to itself, is not kept. *)
Lemma equal_vector_dropped (vectors : list (list R)) (n : nat)
  (K : list nat) (i j : nat) :
  greedy_positions vectors n K ->
  (i < j)%nat -> (j < n)%nat ->
  nth i vectors [] = nth j vectors [] ->
  ~ not_too_similar (nth j vectors []) (nth j vectors []) ->
  ~ In j K.
Proof.
  intros (Hs & Hlt & Hiff) Hij Hjn Ev Hself Hj.
  pose proof (proj1 (Hiff j Hjn) Hj) as Hall.
  assert (Hi : In i K).
  { apply Hiff; [lia|]. intros k Hk Hki. rewrite Ev. apply Hall; [exact Hk|lia]. }
  apply Hself. rewrite <- Ev at 2. now apply Hall.
Qed.

(** *** The vocabulary and the count vectors of the fallback *)

Lemma dict_get_snoc {V : Type} (d : dict V) (t : string) (v : V) (k : string) :
  dict_get (d ++ [(t, v)])%list k
  = match dict_get d k with
    | Some i => Some i
    | None => if String.eqb t k then Some v else None
    end.
Proof.
  induction d as [|[a b] d IH]; simpl; [reflexivity|].
  destruct (String.eqb a k); [reflexivity | exact IH].
Qed.


Lemma vocab_add_facts (d : dict nat) (t : string) :
  well_indexed d ->
  well_indexed (vocab_add d t)
  /\ (forall k i, dict_get d k = Some i -> dict_get (vocab_add d t) k = Some i)
  /\ dict_get (vocab_add d t) t <> None.
Proof.
  intros Hw. unfold vocab_add.
  destruct (dict_get d t) as [i|] eqn:E.
  - split; [exact Hw|]. split; [auto|]. rewrite E. discriminate.
  - split; [|split].
    + intros k i. rewrite dict_get_snoc, length_app. simpl.
      destruct (dict_get d k) as [i'|] eqn:E'.
      * intros [= <-]. apply Hw in E'. lia.
      * destruct (String.eqb t k); [intros [= <-]; lia | discriminate].
    + intros k i Hk. rewrite dict_get_snoc, Hk. reflexivity.
    + rewrite dict_get_snoc, E, String.eqb_refl. discriminate.
Qed.

Lemma vocab_fold_facts (L : list string) :
  forall d,
    well_indexed d ->
    well_indexed (fold_left vocab_add L d)
    /\ (forall k i, dict_get d k = Some i ->
                    dict_get (fold_left vocab_add L d) k = Some i)
    /\ (forall t, In t L -> dict_get (fold_left vocab_add L d) t <> None).
Proof.
  induction L as [|t L IH]; intros d Hw; simpl.
  - split; [exact Hw|]. split; [auto | intros t []].
  - destruct (vocab_add_facts d t Hw) as (W1 & K1 & P1).
    destruct (IH (vocab_add d t) W1) as (W2 & K2 & P2).
    split; [exact W2|]. split; [auto|].
    intros x [<-|Hx]; [|now apply P2].
    destruct (dict_get (vocab_add d t) t) as [i|] eqn:E; [|now elim P1].
    rewrite (K2 t i E). discriminate.
Qed.

Lemma build_vocab_concat (tokenized : list (list string)) :
  forall d,
    fold_left (fun vocab toks => fold_left vocab_add toks vocab) tokenized d
    = fold_left vocab_add (concat tokenized) d.
Proof.
  induction tokenized as [|toks rest IH]; intros d; simpl; [reflexivity|].
  now rewrite IH, fold_left_app.
Qed.

Lemma build_vocab_has (tokenized : list (list string)) (toks : list string)
  (t : string) :
  In toks tokenized -> In t toks ->
  exists i, dict_get (build_vocab tokenized) t = Some i
            /\ (i < List.length (build_vocab tokenized))%nat.
Proof.
  intros H1 H2. unfold build_vocab. rewrite build_vocab_concat.
  assert (W0 : well_indexed []) by (intros k i; discriminate).
  destruct (vocab_fold_facts (concat tokenized) [] W0) as (W & _ & P).
  assert (Hin : In t (concat tokenized))
    by (apply in_concat; exists toks; auto).
  destruct (dict_get (fold_left vocab_add (concat tokenized) []) t)
    as [i|] eqn:E; [|now elim (P t Hin)].
  exists i. split; [reflexivity | now apply W in E].
Qed.

Lemma add_at_length (i : nat) (v : list R) :
  List.length (add_at i v) = List.length v.
Proof.
  revert i. induction v as [|x v IH]; intros [|i]; simpl; auto.
Qed.

Lemma add_at_nth_same (i : nat) (v : list R) :
  (i < List.length v)%nat -> nth i (add_at i v) 0 = nth i v 0 + 1.
Proof.
  revert i. induction v as [|x v IH]; intros [|i] H; simpl in *; try lia;
    [reflexivity | apply IH; lia].
Qed.

Lemma add_at_nth_ge (i k : nat) (v : list R) :
  nth k v 0 <= nth k (add_at i v) 0.
Proof.
  revert i k. induction v as [|x v IH]; intros [|i] [|k]; simpl;
    try Lra.lra; apply IH.
Qed.


Lemma count_fold_facts (vocab : dict nat) (toks : list string) :
  forall vec k,
    List.length (fold_left (count_step vocab) toks vec) = List.length vec
    /\ nth k vec 0 <= nth k (fold_left (count_step vocab) toks vec) 0.
Proof.
  induction toks as [|tok toks IH]; intros vec k; simpl.
  - split; [reflexivity | Lra.lra].
  - destruct (IH (count_step vocab vec tok) k) as [L M].
    assert (Ls : List.length (count_step vocab vec tok) = List.length vec).
    { unfold count_step. destruct (dict_get vocab tok);
        [apply add_at_length | reflexivity]. }
    assert (Ms : nth k vec 0 <= nth k (count_step vocab vec tok) 0).
    { unfold count_step. destruct (dict_get vocab tok);
        [apply add_at_nth_ge | Lra.lra]. }
    split; [congruence | Lra.lra].
Qed.

Lemma count_fold_hit (vocab : dict nat) (toks : list string) (t : string)
  (i : nat) :
  In t toks -> dict_get vocab t = Some i ->
  forall vec,
    (i < List.length vec)%nat ->
    nth i vec 0 + 1 <= nth i (fold_left (count_step vocab) toks vec) 0.
Proof.
  intros Hin Hi. induction toks as [|tok toks IH]; intros vec Hl;
    [contradiction|]. simpl.
  destruct Hin as [->|Hin].
  - destruct (count_fold_facts vocab toks (count_step vocab vec t) i)
      as [_ M].
    unfold count_step in *. rewrite Hi in *.
    rewrite add_at_nth_same in M by exact Hl. exact M.
  - assert (Ls : List.length (count_step vocab vec tok) = List.length vec).
    { unfold count_step. destruct (dict_get vocab tok);
        [apply add_at_length | reflexivity]. }
    assert (Ms : nth i vec 0 <= nth i (count_step vocab vec tok) 0).
    { unfold count_step. destruct (dict_get vocab tok);
        [apply add_at_nth_ge | Lra.lra]. }
    specialize (IH Hin (count_step vocab vec tok) ltac:(lia)). Lra.lra.
Qed.

Lemma sumsq_cons (x : R) (v : list R) : sumsq (x :: v) = x * x + sumsq v.
Proof. unfold sumsq. simpl. apply rsum_cons. Qed.

Lemma sumsq_ge_entry (v : list R) :
  forall i, 0 <= sumsq v /\ nth i v 0 * nth i v 0 <= sumsq v.
Proof.
  induction v as [|x v IH]; intros i.
  - unfold sumsq, rsum. destruct i; simpl; split; Lra.lra.
  - rewrite sumsq_cons. destruct (IH 0%nat) as [H0 _].
    pose proof (Rle_0_sqr x) as Hx. unfold Rsqr in Hx.
    destruct i as [|i]; simpl; [split; Lra.lra|].
    destruct (IH i) as [_ Hi]. split; Lra.lra.
Qed.

Lemma nth_repeat_zero (n k : nat) : nth k (repeat 0 n) 0 = 0.
Proof. revert k. induction n as [|n IH]; intros [|k]; simpl; auto. Qed.

(** The count vector of a text with a token is not the null vector. *)
Lemma count_vec_positive (tokenized : list (list string))
  (toks : list string) :
  In toks tokenized -> toks <> [] ->
  0 < sumsq (count_vec (build_vocab tokenized) toks).
Proof.
  intros Hin Hne. destruct toks as [|t toks']; [now elim Hne|].
  destruct (build_vocab_has tokenized (t :: toks') t Hin (or_introl eq_refl))
    as (i & Hi & Hlt).
  unfold count_vec.
  change (fun vec tok => match dict_get (build_vocab tokenized) tok with
                         | Some i => add_at i vec
                         | None => vec
                         end)
    with (count_step (build_vocab tokenized)).
  pose proof (count_fold_hit (build_vocab tokenized) (t :: toks') t i
                (or_introl eq_refl) Hi
                (repeat 0 (List.length (build_vocab tokenized)))) as H.
  rewrite repeat_length, nth_repeat_zero in H. specialize (H Hlt).
  set (v := fold_left _ _ _) in *.
  destruct (sumsq_ge_entry v i) as [_ Hs].
  assert (1 <= nth i v 0 * nth i v 0) by Lra.nra. Lra.lra.
Qed.

Lemma zip_mul_self (a : list R) : rsum (zip_mul a a) = sumsq a.
Proof.
  unfold sumsq. induction a as [|x a IH]; simpl; [reflexivity|].
  now rewrite !rsum_cons, IH.
Qed.

Lemma cos_self (a : list R) :
  0 < sumsq a -> _cos (normalize a) (normalize a) = 1.
Proof.
  intros H. rewrite cos_normalize by exact H.
  rewrite zip_mul_self, sqrt_sqrt by Lra.lra. field. Lra.lra.
Qed.

Lemma zip_mul_zero (n : nat) (d : R) (w : list R) :
  rsum (zip_mul (map (fun v => v / d) (repeat 0 n)) w) = 0.
Proof.
  revert w. induction n as [|n IH]; intros w; simpl; [reflexivity|].
  destruct w as [|y w]; [reflexivity|].
  rewrite rsum_cons, IH. unfold Rdiv. ring.
Qed.

Lemma cos_null (n : nat) (w : list R) :
  _cos (normalize (repeat 0 n)) w = 0.
Proof.
  unfold _cos, normalize. rewrite zip_mul_zero. unfold Rdiv. ring.
Qed.

Section Fallback.

Variable Rec : Type.
Variable rec_title rec_reasoning : Rec -> string.

Lemma no_embedding_well_formed : embed_well_formed Examples.no_embedding.
Proof. intros texts. now left. Qed.

Lemma fallback_vector_nth (recs : list Rec) (i : nat) (r : Rec) :
  nth_error recs i = Some r ->
  nth i (vectors_for rec_title rec_reasoning Examples.no_embedding recs) []
  = normalize
      (count_vec
         (build_vocab
            (map tokens (map (combined_text rec_title rec_reasoning) recs)))
         (tokens (combined_text rec_title rec_reasoning r))).
Proof.
  intros H. unfold vectors_for, Examples.no_embedding, bag_of_words.
  apply nth_error_nth. rewrite !nth_error_map, H. reflexivity.
Qed.

(** X22.  With the bag-of-words vectors, a recommendation that repeats the
    title and the reasoning of an earlier one is never kept, provided the
    text has a word made of letters only. *)
Theorem exact_duplicate_dropped :
  forall (recs : list Rec) (i j : nat) (ri rj : Rec),
    (i < j)%nat ->
    nth_error recs i = Some ri -> nth_error recs j = Some rj ->
    combined_text rec_title rec_reasoning ri
    = combined_text rec_title rec_reasoning rj ->
    tokens (combined_text rec_title rec_reasoning rj) <> [] ->
    exists positions kept,
      _dedupe_semantic_recommendations rec_title rec_reasoning
        Examples.no_embedding recs = Ok kept
      /\ at_positions recs positions kept
      /\ ~ In j positions.
Proof.
  intros recs i j ri rj Hij Hi Hj Ec Hne.
  destruct (dedupe_greedy Rec rec_title rec_reasoning Examples.no_embedding
              recs no_embedding_well_formed) as (K & kept & E & Hat & HG).
  exists K, kept. split; [exact E|]. split; [exact Hat|].
  assert (Hjn : (j < List.length recs)%nat)
    by (apply nth_error_Some; congruence).
  apply (equal_vector_dropped _ _ _ i j HG Hij Hjn).
  - rewrite (fallback_vector_nth recs i ri Hi),
      (fallback_vector_nth recs j rj Hj), Ec. reflexivity.
  - rewrite (fallback_vector_nth recs j rj Hj).
    unfold not_too_similar. rewrite cos_self; [Lra.lra|].
    apply count_vec_positive; [|exact Hne].
    apply in_map, in_map. eapply nth_error_In; eauto.
Qed.

(** X23.  With the bag-of-words vectors, a recommendation whose title and
    reasoning have no word made of letters only is always kept, even when
    it repeats an earlier one. *)
Theorem wordless_always_kept :
  forall (recs : list Rec) (i : nat) (r : Rec),
    nth_error recs i = Some r ->
    tokens (combined_text rec_title rec_reasoning r) = [] ->
    exists positions kept,
      _dedupe_semantic_recommendations rec_title rec_reasoning
        Examples.no_embedding recs = Ok kept
      /\ at_positions recs positions kept
      /\ In i positions.
Proof.
  intros recs i r Hi Ht.
  destruct (dedupe_greedy Rec rec_title rec_reasoning Examples.no_embedding
              recs no_embedding_well_formed) as (K & kept & E & Hat & HG).
  exists K, kept. split; [exact E|]. split; [exact Hat|].
  destruct HG as (_ & _ & Hiff).
  apply Hiff; [apply nth_error_Some; congruence|].
  intros j _ _. rewrite (fallback_vector_nth recs i r Hi), Ht.
  unfold not_too_similar, count_vec. simpl. rewrite cos_null. Lra.lra.
Qed.

End Fallback.

Lemma exact_duplicate_dropped_witness :
  exists positions kept,
    Examples.fallback_dedupe [Examples.far1; Examples.far1] = Ok kept
    /\ at_positions [Examples.far1; Examples.far1] positions kept
    /\ ~ In 1%nat positions.
Proof.
  apply (exact_duplicate_dropped (string * string)%type fst snd
           [Examples.far1; Examples.far1] 0 1 Examples.far1 Examples.far1);
    try reflexivity; [lia|].
  vm_compute. discriminate.
Defined.

Lemma wordless_always_kept_witness :
  exists positions kept,
    Examples.fallback_dedupe [("123", "4.5"); ("123", "4.5")] = Ok kept
    /\ at_positions [("123", "4.5"); ("123", "4.5")] positions kept
    /\ In 1%nat positions.
Proof.
  apply (wordless_always_kept (string * string)%type fst snd
           [("123", "4.5"); ("123", "4.5")] 1 ("123", "4.5"));
    reflexivity.
Defined.

End DedupeMore.

(* ===================================================================== *)
(** * Facts about cross-pillar conflicts *)
(* ===================================================================== *)

Module ConflictFacts.
Import PyStr Py Conflicts.
Import ScoringFacts.

Section Recs.

Variable Rec : Type.
Variable rec_title rec_reasoning : Rec -> string.
Variable rec_considerations : Rec -> option (list string).

Lemma first_hit_spec (keywords : list string) (recs : list Rec)
  (c : Conflict) (cs : list Conflict) :
  first_hit rec_title rec_reasoning keywords recs c cs
  = (cs ++ if existsb (fun rec => any_keyword keywords
                                    (rec_text rec_title rec_reasoning rec))
                recs
           then [c] else [])%list.
Proof.
  induction recs as [|rec recs IH]; simpl; [now rewrite app_nil_r|].
  destruct (any_keyword keywords (rec_text rec_title rec_reasoning rec));
    [reflexivity | exact IH].
Qed.

Lemma pair_scan_spec (ka : list string) (ra : list Rec) (kb : list string)
  (rb : list Rec) (c : Conflict) :
  forall cs,
    pair_scan rec_title rec_reasoning ka ra kb rb c cs
    = (cs ++ repeat c (ConflictProps.hits rec_title rec_reasoning ka ra kb rb))%list.
Proof.
  unfold Conflicts.pair_scan, ConflictProps.hits.
  induction ra as [|rec ra IH]; intros cs; simpl.
  - destruct (existsb _ rb); simpl; now rewrite app_nil_r.
  - rewrite IH.
    destruct (any_keyword ka (rec_text rec_title rec_reasoning rec)); simpl.
    + rewrite first_hit_spec.
      destruct (existsb _ rb); simpl.
      * now rewrite <- app_assoc.
      * now rewrite app_nil_r.
    + reflexivity.
Qed.


Lemma recs_by_pillar_get (results : list (PillarResult Rec)) (pillar : string) :
  forall d,
    dict_get
      (fold_left (fun d result =>
                    dict_set d (pillar_name result)
                             (pr_recommendations result))
                 results d) pillar
    = match find (fun result => String.eqb (pillar_name result) pillar)
                 (rev results) with
      | Some result => Some (pr_recommendations result)
      | None => dict_get d pillar
      end.
Proof.
  induction results as [|r results IH]; intros d; simpl; [reflexivity|].
  rewrite IH, ScoringMore.find_app. simpl.
  destruct (find _ (rev results)); [reflexivity|].
  rewrite dict_get_set. destruct (pillar_name r =? pillar); reflexivity.
Qed.

Lemma recs_by_pillar_spec (results : list (PillarResult Rec)) (pillar : string) :
  get_default (recs_by_pillar results) pillar []
  = ConflictProps.recs_of results pillar.
Proof.
  unfold get_default, recs_by_pillar, ConflictProps.recs_of.
  rewrite recs_by_pillar_get. simpl.
  destruct (find _ (rev results)); reflexivity.
Qed.

Lemma detection_spec :
  forall pillar_results : list (PillarResult Rec),
    detect_cross_pillar_conflicts rec_title rec_reasoning pillar_results
    = (repeat cost_vs_reliability
         (ConflictProps.hits rec_title rec_reasoning
            cost_keywords
            (ConflictProps.recs_of pillar_results "Cost Optimization")
            reliability_keywords
            (ConflictProps.recs_of pillar_results "Reliability"))
       ++ repeat security_vs_performance
            (ConflictProps.hits rec_title rec_reasoning
               security_keywords
               (ConflictProps.recs_of pillar_results "Security")
               performance_keywords
               (ConflictProps.recs_of pillar_results "Performance Efficiency"))
       ++ (if existsb (fun rec => any_keyword operational_keywords
                                    (rec_text rec_title rec_reasoning rec))
                (ConflictProps.recs_of pillar_results "Operational Excellence")
           then [operational_enabler] else []))%list.
Proof.
  intros pillar_results. unfold detect_cross_pillar_conflicts.
  rewrite !recs_by_pillar_spec, first_hit_spec, !pair_scan_spec.
  simpl. now rewrite <- app_assoc.
Qed.


(** X18.  The conflicts found are, in this order: one cost-reliability conflict
    for each cost recommendation with a cost keyword, if some reliability
    recommendation has a reliability keyword; the same for security and
    performance; and one enabler when some operational recommendation has
    an automation keyword.  The recommendations of a pillar are those of
    the last result that carries its name. *)
Theorem conflicts_closed_form :
  forall pillar_results : list (PillarResult Rec),
    detect_cross_pillar_conflicts rec_title rec_reasoning pillar_results
    = (repeat cost_vs_reliability
         (ConflictProps.hits rec_title rec_reasoning
            cost_keywords
            (ConflictProps.recs_of pillar_results "Cost Optimization")
            reliability_keywords
            (ConflictProps.recs_of pillar_results "Reliability"))
       ++ repeat security_vs_performance
            (ConflictProps.hits rec_title rec_reasoning
               security_keywords
               (ConflictProps.recs_of pillar_results "Security")
               performance_keywords
               (ConflictProps.recs_of pillar_results "Performance Efficiency"))
       ++ (if existsb (fun rec => any_keyword operational_keywords
                                    (rec_text rec_title rec_reasoning rec))
                (ConflictProps.recs_of pillar_results "Operational Excellence")
           then [operational_enabler] else []))%list.
Proof. exact detection_spec. Qed.

End Recs.

End ConflictFacts.

(* ===================================================================== *)
(** * Facts about the synthesis *)
(* ===================================================================== *)

Module SynthesisFacts.
Import PyStr Py Conflicts.
Import ScoringFacts.

Section Recs.

Variable Rec : Type.
Variable rec_title rec_reasoning : Rec -> string.
Variable rec_considerations : Rec -> option (list string).
Variable embed : list string -> list (list R).

Lemma enrich_fields (conflicts : list Conflict) (rec : Cohesive Rec) :
  co_rec (enrich rec_title rec_reasoning conflicts rec) = co_rec rec
  /\ source_pillar (enrich rec_title rec_reasoning conflicts rec)
     = source_pillar rec
  /\ cross_pillar_considerations (enrich rec_title rec_reasoning conflicts rec)
     = match filter (relates rec_title rec_reasoning rec) conflicts with
       | [] => cross_pillar_considerations rec
       | related => Some (map consideration related)
       end.
Proof.
  unfold enrich.
  destruct (filter (relates rec_title rec_reasoning rec) conflicts);
    simpl; auto.
Qed.

Lemma relates_enrich (conflicts : list Conflict) (rec : Cohesive Rec)
  (c : Conflict) :
  relates rec_title rec_reasoning
    (enrich rec_title rec_reasoning conflicts rec) c
  = relates rec_title rec_reasoning rec c.
Proof.
  destruct (enrich_fields conflicts rec) as (E1 & E2 & _).
  unfold relates. now rewrite E1, E2.
Qed.

Lemma collect_all_in (results : list (PillarResult Rec)) (e : Cohesive Rec) :
  In e (collect_all rec_considerations results) ->
  exists result,
    In result results
    /\ In (co_rec e) (pr_recommendations result)
    /\ source_pillar e = pillar_name result
    /\ cross_pillar_considerations e = rec_considerations (co_rec e).
Proof.
  unfold collect_all. intros H. apply in_flat_map in H.
  destruct H as (result & Hr & H). apply in_map_iff in H.
  destruct H as (rec & <- & Hrec). exists result. simpl. auto.
Qed.

Lemma collect_all_length (results : list (PillarResult Rec)) :
  List.length (collect_all rec_considerations results)
  = list_sum (map (fun result => List.length (pr_recommendations result))
                  results).
Proof.
  unfold collect_all. induction results as [|r results IH]; simpl;
    [reflexivity|].
  now rewrite length_app, length_map, IH.
Qed.

Lemma synthesis_spec (results : list (PillarResult Rec))
  (conflicts : list Conflict) :
  Props.embed_well_formed embed ->
  exists kept,
    generate_cohesive_recommendations rec_title rec_reasoning
      rec_considerations embed results conflicts = Ok kept
    /\ (List.length kept
        <= list_sum (map (fun result =>
                            List.length (pr_recommendations result))
                         results))%nat
    /\ forall e, In e kept ->
         (exists result,
             In result results
             /\ In (co_rec e) (pr_recommendations result)
             /\ source_pillar e = pillar_name result)
         /\ cross_pillar_considerations e
            = match filter (relates rec_title rec_reasoning e) conflicts with
              | [] => rec_considerations (co_rec e)
              | related => Some (map consideration related)
              end.
Proof.
  intros Hwf. unfold generate_cohesive_recommendations.
  destruct (DedupeMore.dedupe_shrinks (Cohesive Rec)
              (fun rec => rec_title (co_rec rec))
              (fun rec => rec_reasoning (co_rec rec)) embed
              (map (enrich rec_title rec_reasoning conflicts)
                   (collect_all rec_considerations results)) Hwf)
    as (kept & E & HL & HI & _).
  exists kept. split; [exact E|]. split.
  - rewrite length_map, collect_all_length in HL. exact HL.
  - intros e He. apply HI in He. apply in_map_iff in He.
    destruct He as (e0 & <- & He0).
    destruct (collect_all_in _ _ He0) as (result & Hr & Hrec & Hs & Hc).
    destruct (enrich_fields conflicts e0) as (E1 & E2 & E3).
    split.
    + exists result. rewrite E1, E2. auto.
    + rewrite E3, E1, Hc.
      rewrite (filter_ext _ _ (relates_enrich conflicts e0)). reflexivity.
Qed.

Lemma detected_relates (results : list (PillarResult Rec))
  (e : Cohesive Rec) (c : Conflict) :
  In c (detect_cross_pillar_conflicts rec_title rec_reasoning results) ->
  relates rec_title rec_reasoning e c = true ->
  ConflictProps.conflict_pillar (source_pillar e) = true.
Proof.
  rewrite ConflictFacts.detection_spec. intros Hin Hr.
  unfold relates in Hr. apply andb_true_iff in Hr. destruct Hr as [Hr _].
  apply andb_true_iff in Hr. destruct Hr as [Ht Hp].
  unfold ConflictProps.conflict_pillar.
  apply in_app_or in Hin. destruct Hin as [Hin|Hin].
  - apply repeat_spec in Hin. subst c. simpl in Hp.
    apply orb_true_iff in Hp. destruct Hp as [->| ->]; reflexivity ||
      (rewrite ?orb_true_r; reflexivity).
  - apply in_app_or in Hin. destruct Hin as [Hin|Hin].
    + apply repeat_spec in Hin. subst c. simpl in Hp.
      apply orb_true_iff in Hp. destruct Hp as [->| ->];
        rewrite ?orb_true_r; reflexivity.
    + destruct (existsb _ _) in Hin; [|contradiction].
      destruct Hin as [<-|[]]. simpl in Ht. discriminate.
Qed.

(** X19.  The synthesis returns at most as many entries as the pillar results
    have recommendations; each entry is a recommendation of a result,
    tagged with the pillar of that result, and its considerations are the
    lines of the conflicts that relate to it, or those it came with when
    no conflict relates to it. *)
Theorem synthesis_entries :
  forall (results : list (PillarResult Rec)) (conflicts : list Conflict),
    Props.embed_well_formed embed ->
    exists kept,
      generate_cohesive_recommendations rec_title rec_reasoning
        rec_considerations embed results conflicts = Ok kept
      /\ (List.length kept
          <= list_sum (map (fun result =>
                              List.length (pr_recommendations result))
                           results))%nat
      /\ forall e, In e kept ->
           (exists result,
               In result results
               /\ In (co_rec e) (pr_recommendations result)
               /\ source_pillar e = pillar_name result)
           /\ cross_pillar_considerations e
              = match filter (relates rec_title rec_reasoning e) conflicts with
                | [] => rec_considerations (co_rec e)
                | related => Some (map consideration related)
                end.
Proof. exact synthesis_spec. Qed.

(** X20.  Fed with the conflicts that the detection finds, the synthesis leaves
    the considerations of every recommendation untouched unless its
    source pillar is one of Cost Optimization, Reliability, Security and
    Performance Efficiency. *)
Theorem detected_conflicts_enrich_four_pillars :
  forall (results detected_from : list (PillarResult Rec)),
    Props.embed_well_formed embed ->
    exists kept,
      generate_cohesive_recommendations rec_title rec_reasoning
        rec_considerations embed results
        (detect_cross_pillar_conflicts rec_title rec_reasoning detected_from)
      = Ok kept
      /\ forall e, In e kept ->
           ConflictProps.conflict_pillar (source_pillar e) = false ->
           cross_pillar_considerations e = rec_considerations (co_rec e).
Proof.
  intros results detected_from Hwf.
  destruct (synthesis_spec results
              (detect_cross_pillar_conflicts rec_title rec_reasoning
                 detected_from) Hwf) as (kept & E & _ & H).
  exists kept. split; [exact E|]. intros e He Hp.
  destruct (H e He) as [_ Hc]. rewrite Hc.
  assert (F : filter (relates rec_title rec_reasoning e)
                (detect_cross_pillar_conflicts rec_title rec_reasoning
                   detected_from) = []).
  { destruct (filter _ _) as [|c l] eqn:F; [reflexivity|].
    assert (Hin : In c (filter (relates rec_title rec_reasoning e)
                          (detect_cross_pillar_conflicts rec_title
                             rec_reasoning detected_from)))
      by (rewrite F; now left).
    apply filter_In in Hin. destruct Hin as [Hin Hr].
    rewrite (detected_relates detected_from e c Hin Hr) in Hp.
    discriminate. }
  now rewrite F.
Qed.


End Recs.

Lemma synthesis_entries_witness :
  Props.embed_well_formed Examples.no_embedding
  /\ exists kept,
      generate_cohesive_recommendations fst snd (fun _ => None)
        Examples.no_embedding [MoreExamples.cost_result]
        [cost_vs_reliability] = Ok kept
      /\ (List.length kept <= 1)%nat.
Proof.
  assert (H : Props.embed_well_formed Examples.no_embedding)
    by (intros texts; now left).
  split; [exact H|].
  destruct (synthesis_entries (string * string)%type fst snd (fun _ => None)
              Examples.no_embedding [MoreExamples.cost_result]
              [cost_vs_reliability] H) as (kept & E & L & _).
  exists kept. split; [exact E | exact L].
Defined.

Lemma detected_conflicts_enrich_four_pillars_witness :
  Props.embed_well_formed Examples.no_embedding
  /\ exists kept,
      generate_cohesive_recommendations fst snd (fun _ => None)
        Examples.no_embedding [MoreExamples.cost_result]
        (detect_cross_pillar_conflicts fst snd [MoreExamples.cost_result])
      = Ok kept.
Proof.
  assert (H : Props.embed_well_formed Examples.no_embedding)
    by (intros texts; now left).
  split; [exact H|].
  destruct (detected_conflicts_enrich_four_pillars (string * string)%type
              fst snd (fun _ => None) Examples.no_embedding
              [MoreExamples.cost_result] [MoreExamples.cost_result] H)
    as (kept & E & _).
  exists kept. exact E.
Defined.

End SynthesisFacts.
